(** * Screaming Frog SEO analysis scripts: link-gap scorer, embedding repair
      and fallback embeddings

    Shallow embedding of the parts of [linkgap.js], [vector.js] and
    [semantic.js] that the specification makes claims about.

    Conventions.
    - A JavaScript Number that holds a count (words, links, URL depth, a
      32-bit hash) is a [Z]; integer arithmetic on such values is exact in
      JavaScript as long as it stays below 2^53.
    - A JavaScript Number that is the result of a division, of [Math.sqrt] or
      of a comparison against a decimal constant is a binary64 [float]; the
      primitive operations of Rocq are the IEEE 754 operations JavaScript
      uses, so [/], [*], [sqrt] and [<?] round and compare exactly as the
      script does.
    - A JavaScript string is a [string] whose characters are read as UTF-16
      code units below 256.
    - A [Set] of strings is a [gset string]; an object used as a lookup table
      is a [gmap string _]. *)

From Stdlib Require Import ZArith Floats Lia Bool List Ascii String.
From stdpp Require Import gmap strings pretty.

Set Warnings "-inexact-float".
Local Open Scope Z_scope.

(** ** Numbers *)

(** The double nearest to an integer (what a count is when it enters a
    floating-point operation). *)
Definition Z2F (z : Z) : float := SF2Prim (binary_normalize prec emax z 0 false).

(** The integer a double stands for, when it is finite and integral. *)
Definition exactInteger (x : float) : option Z :=
  match Prim2SF x with
  | S754_zero _ => Some 0
  | S754_finite s m e =>
      let v := if s then Z.neg m else Z.pos m in
      if 0 <=? e then Some (v * 2 ^ e)
      else if Z.pos m mod 2 ^ (- e) =? 0 then Some (v / 2 ^ (- e))
      else None
  | _ => None
  end.

(** [Math.round]: the integer nearest to [x], a tie going towards +infinity;
    NaN, the infinities and the zeros are returned unchanged, and a negative
    [x] that rounds to zero gives -0. The value [floor(x + 1/2)] is computed
    exactly from the mantissa and exponent of [x]. *)
Definition Math_round (x : float) : float :=
  match Prim2SF x with
  | S754_finite s m e =>
      let v := if s then Z.neg m else Z.pos m in
      let n := if 0 <=? e then v * 2 ^ e
               else (2 * v + 2 ^ (- e)) / 2 ^ (- e + 1) in
      if n =? 0 then (if s then PrimFloat.neg_zero else PrimFloat.zero) else Z2F n
  | _ => x
  end.

(** [Number::toString] (what [x + '%'] applies to [x]) for the values
    [Math.round] can return: NaN, an infinity, or an integer. An integer below
    10^21 is written in decimal; from 10^21 on JavaScript switches to exponent
    notation, which is outside the modelled fragment ([None]), as is a
    fractional value. *)
Definition NumberToString (x : float) : option string :=
  match Prim2SF x with
  | S754_nan => Some "NaN"
  | S754_infinity s => Some (if s then "-Infinity" else "Infinity")
  | _ => match exactInteger x with
         | Some n => if Z.abs n <? 10 ^ 21 then Some (pretty n) else None
         | None => None
         end
  end.

(** * linkgap.js *)

Module CONFIG.
Definition CONTEXTUAL_LINK_TARGET : Z := 100.
Definition MIN_CONTEXTUAL_DENSITY : float := 0.8.
Definition MAX_CONTEXTUAL_DENSITY : float := 3.0.
Definition THIN_CONTENT_THRESHOLD : Z := 300.
Definition MEDIUM_CONTENT_THRESHOLD : Z := 800.
Definition HIGH_CONTENT_THRESHOLD : Z := 800.
Definition MIN_WORDS_FOR_LINKS : Z := 50.
Definition EXTERNAL_WARNING_RATIO : float := 2.0.
End CONFIG.

(** The object built by [analyzeLinksAdvanced]; its two arrays of link
    records ([contextualLinks], [templateLinks]) are read by nothing in the
    script and are left out. *)
Record LinkData := {
  contextual : Z;
  template : Z;
  navigation : Z;
  footer : Z;
  external : Z;
  nofollow : Z;
  uniqueContextual : gset string;
  uniqueTemplate : gset string
}.

Inductive Quality := thin | medium | high.

(** The object returned by [analyzeContentElement]. *)
Record ContentData := {
  words : Z;
  headings : Z;
  paragraphs : Z;
  lists : Z;
  quality : Quality
}.

(** [analyzeContentElement], lines 261-277: the quality label computed from
    the three counts taken from the cleaned DOM clone. *)
Definition classifyQuality (words headings paragraphs : Z) : Quality :=
  let quality :=
    if words <? CONFIG.THIN_CONTENT_THRESHOLD then thin
    else if words <? CONFIG.MEDIUM_CONTENT_THRESHOLD then medium
    else high in
  let quality :=
    match quality with
    | medium => if (3 <=? headings) && (4 <=? paragraphs) then high else quality
    | _ => quality
    end in
  let quality :=
    match quality with
    | high => if headings <? 2 then medium else quality
    | _ => quality
    end in
  quality.

(** THIN < MEDIUM < HIGH. *)
Definition qualityRank (q : Quality) : Z :=
  match q with thin => 0 | medium => 1 | high => 2 end.

Inductive Severity := none | sevMedium | sevHigh | critical.

Record GapAnalysis := {
  hasGap : bool;
  severity : Severity;
  recommendedLinks : Z;
  currentLinks : Z
}.

(** One entry of [scoreBreakdown]. The script pushes a template string; the
    entry keeps the label and the interpolated values, the last component
    being the points shown in parentheses. *)
Inductive BreakdownEntry :=
| BrokenPage (points : Z)
| ThinContentPenalty (points : Z)
| ZeroContextualLinks (points : Z)
| LinkDeficit (deficit points : Z)
| LowDensity (density : float) (points : Z)
| OverLinking (density : float) (points : Z)
| PageTypePriority (pageType : string) (points : Z)
| DuplicateLinks (duplicates points : Z)
| DeepPage (level points : Z).

(** One entry of [opportunities], kept the same way. *)
Inductive Opportunity :=
| OppBroken (words : Z)
| OppThinContent (words : Z)
| OppCriticalGap (words : Z)
| OppLinkGap (deficit current ideal : Z)
| OppLowDensity (density : float)
| OppOverLinked (density : float)
| OppPageType (message : string)
| OppDuplicateLinks (duplicates targets : Z)
| OppDeepPage (level : Z).

Record OpportunityAnalysis := {
  score : Z;
  scoreBreakdown : list BreakdownEntry;
  opportunities : list Opportunity;
  gapAnalysis : GapAnalysis
}.

Record PageWeight := { minLinks : Z; weight : Z; message : string }.

Definition pageTypeWeights : gmap string PageWeight :=
  <["homepage" := {| minLinks := 4; weight := 20;
       message := "Homepage needs strong internal linking foundation" |}]>
  (<["trading-pair" := {| minLinks := 3; weight := 15;
       message := "Trading pairs should link to: guides, security, related pairs" |}]>
  (<["crypto-specific" := {| minLinks := 4; weight := 15;
       message := "Crypto pages should link to: trading, market data, guides, news" |}]>
  (<["learn-hub" := {| minLinks := 5; weight := 18;
       message := "Educational content needs cross-links to related lessons" |}]>
  (<["blog-article" := {| minLinks := 3; weight := 12;
       message := "Articles should reference related posts and crypto pages" |}]>
  (<["market-data" := {| minLinks := 2; weight := 10;
       message := "Market pages should link to trading and crypto info" |}]>
   ∅))))).

(** The four variables [calculateContextualOpportunity] mutates while it
    walks through its factors. *)
Record Acc := {
  opportunityScore : Z;
  accBreakdown : list BreakdownEntry;
  accOpportunities : list Opportunity;
  accGap : GapAnalysis
}.

Definition addPoints (a : Acc) (p : Z) (b : BreakdownEntry) (o : Opportunity) : Acc :=
  {| opportunityScore := opportunityScore a + p;
     accBreakdown := accBreakdown a ++ [b];
     accOpportunities := accOpportunities a ++ [o];
     accGap := accGap a |}.

Definition setGap (a : Acc) (sev : Severity) : Acc :=
  {| opportunityScore := opportunityScore a;
     accBreakdown := accBreakdown a;
     accOpportunities := accOpportunities a;
     accGap := {| hasGap := true; severity := sev;
                  recommendedLinks := recommendedLinks (accGap a);
                  currentLinks := currentLinks (accGap a) |} |}.

Section Scoring.
Variables (linkData : LinkData) (contentData : ContentData)
          (pageType : string) (urlDepth : Z).

Definition idealLinks : Z :=
  Z.max 1 (words contentData / CONFIG.CONTEXTUAL_LINK_TARGET).

Definition contextualDensity : float :=
  (Z2F (contextual linkData) / Z2F (words contentData) * 100)%float.

Definition uniqueRatio : float :=
  (Z2F (Z.of_nat (size (uniqueContextual linkData)))
     / Z2F (Z.max (contextual linkData) 1))%float.

(** 1. Gap severity. *)
Definition gapStep (a : Acc) : Acc :=
  if contextual linkData =? 0 then
    setGap (addPoints a 40 (ZeroContextualLinks 40)
              (OppCriticalGap (words contentData))) critical
  else if contextual linkData <? idealLinks then
    let deficit := idealLinks - contextual linkData in
    let gapPoints := Z.min 30 (deficit * 8) in
    setGap (addPoints a gapPoints (LinkDeficit deficit gapPoints)
              (OppLinkGap deficit (contextual linkData) idealLinks))
           (if 3 <=? deficit then sevHigh else sevMedium)
  else a.

(** 2. Density below the minimum. *)
Definition lowDensityStep (a : Acc) : Acc :=
  if (contextualDensity <? CONFIG.MIN_CONTEXTUAL_DENSITY)%float then
    let densityPoints := 15 in
    addPoints a densityPoints (LowDensity contextualDensity densityPoints)
              (OppLowDensity contextualDensity)
  else a.

(** Over-linking penalty. *)
Definition overLinkStep (a : Acc) : Acc :=
  if (CONFIG.MAX_CONTEXTUAL_DENSITY <? contextualDensity)%float then
    let overLinkPoints := 20 in
    addPoints a overLinkPoints (OverLinking contextualDensity overLinkPoints)
              (OppOverLinked contextualDensity)
  else a.

(** 3. Page type weighting. *)
Definition pageTypeStep (a : Acc) : Acc :=
  match pageTypeWeights !! pageType with
  | Some pageWeight =>
      if contextual linkData <? minLinks pageWeight then
        addPoints a (weight pageWeight)
                  (PageTypePriority pageType (weight pageWeight))
                  (OppPageType (message pageWeight))
      else a
  | None => a
  end.

(** 4. Link quality issues. *)
Definition duplicateLinkIssue : bool :=
  (5 <? contextual linkData) && (uniqueRatio <? 0.7)%float.

Definition duplicateStep (a : Acc) : Acc :=
  if duplicateLinkIssue then
    let duplicatePoints := 15 in
    let duplicates :=
      contextual linkData - Z.of_nat (size (uniqueContextual linkData)) in
    addPoints a duplicatePoints (DuplicateLinks duplicates duplicatePoints)
              (OppDuplicateLinks duplicates
                 (Z.of_nat (size (uniqueContextual linkData))))
  else a.

(** 5. URL depth factor. *)
Definition depthStep (a : Acc) : Acc :=
  if 3 <? urlDepth then
    let depthPoints := Z.min 10 ((urlDepth - 3) * 3) in
    addPoints a depthPoints (DeepPage urlDepth depthPoints)
              (OppDeepPage urlDepth)
  else a.

Definition initialGap : GapAnalysis :=
  {| hasGap := false; severity := none; recommendedLinks := 0;
     currentLinks := contextual linkData |}.

Definition calculateContextualOpportunity : OpportunityAnalysis :=
  let gapAnalysis := initialGap in
  if words contentData <? 10 then
    {| score := 90;
       scoreBreakdown := [BrokenPage 90];
       opportunities := [OppBroken (words contentData)];
       gapAnalysis := {| hasGap := true; severity := critical;
                         recommendedLinks := recommendedLinks gapAnalysis;
                         currentLinks := currentLinks gapAnalysis |} |}
  else if words contentData <? CONFIG.MIN_WORDS_FOR_LINKS then
    {| score := 50;
       scoreBreakdown := [ThinContentPenalty 50];
       opportunities := [OppThinContent (words contentData)];
       gapAnalysis := {| hasGap := true; severity := sevMedium;
                         recommendedLinks := recommendedLinks gapAnalysis;
                         currentLinks := currentLinks gapAnalysis |} |}
  else
    let a := {| opportunityScore := 0; accBreakdown := [];
                accOpportunities := [];
                accGap := {| hasGap := hasGap gapAnalysis;
                             severity := severity gapAnalysis;
                             recommendedLinks := idealLinks;
                             currentLinks := currentLinks gapAnalysis |} |} in
    let a := gapStep a in
    let a := lowDensityStep a in
    let a := overLinkStep a in
    let a := pageTypeStep a in
    let a := duplicateStep a in
    let a := depthStep a in
    {| score := Z.min (opportunityScore a) 100;
       scoreBreakdown := accBreakdown a;
       opportunities := firstn 3 (accOpportunities a);
       gapAnalysis := accGap a |}.

End Scoring.

(** Which of the two density bonuses an analysis was given, read off its
    score breakdown. *)
Definition isLowDensity (b : BreakdownEntry) : bool :=
  match b with LowDensity _ _ => true | _ => false end.

Definition isOverLinking (b : BreakdownEntry) : bool :=
  match b with OverLinking _ _ => true | _ => false end.

Definition lowDensityBonus (r : OpportunityAnalysis) : bool :=
  existsb isLowDensity (scoreBreakdown r).

Definition highDensityBonus (r : OpportunityAnalysis) : bool :=
  existsb isOverLinking (scoreBreakdown r).

(** The points the two density factors contributed. *)
Definition densityPoints (r : OpportunityAnalysis) : Z :=
  fold_right (fun b acc =>
                match b with
                | LowDensity _ p | OverLinking _ p => p + acc
                | _ => acc
                end) 0 (scoreBreakdown r).

(** [calculateLinkDiversity]. *)
Definition calculateLinkDiversity (linkData : LinkData) : option string :=
  if contextual linkData =? 0 then Some "N/A"
  else
    match NumberToString
            (Math_round (Z2F (Z.of_nat (size (uniqueContextual linkData)))
                           / Z2F (contextual linkData) * 100)%float) with
    | Some n => Some (n +:+ "%")
    | None => None
    end.

(** ** The link walk of [analyzeLinksAdvanced] *)

(** [s.startsWith(p)] and [s.includes(t)]. *)
Fixpoint startsWith (s p : string) {struct p} : bool :=
  match p, s with
  | EmptyString, _ => true
  | String c p', String d s' => Ascii.eqb c d && startsWith s' p'
  | String _ _, EmptyString => false
  end.

Fixpoint includes (s t : string) : bool :=
  startsWith s t ||
  match s with
  | EmptyString => false
  | String _ s' => includes s' t
  end.

(** The test of lines 49-51; [domain] is [window.location.hostname]. *)
Definition isInternal (domain href : string) : bool :=
  startsWith href "/" || startsWith href "?" ||
  (startsWith href "http" && includes href domain).

Inductive LinkContext := ctxContextual | ctxNavigation | ctxFooter.

(** An anchor element as the walk sees it: its [href] and [rel] attributes
    ([None] when the attribute is absent) and the answer of [getLinkContext],
    which depends on the ancestors of the element only. *)
Record Link := {
  href : option string;
  rel : option string;
  linkContext : LinkContext
}.

Definition emptyLinkData : LinkData :=
  {| contextual := 0; template := 0; navigation := 0; footer := 0;
     external := 0; nofollow := 0;
     uniqueContextual := ∅; uniqueTemplate := ∅ |}.

(** The body of the [forEach] callback, as a step on the accumulated
    [linkAnalysis]. *)
Definition analyzeLink (domain : string) (la : LinkData) (link : Link) : LinkData :=
  match href link with
  | None => la
  | Some href =>
      if String.eqb href "#" || String.eqb href "" then la
      else if isInternal domain href then
        match linkContext link with
        | ctxContextual =>
            {| contextual := contextual la + 1;
               template := template la;
               navigation := navigation la;
               footer := footer la;
               external := external la;
               nofollow := if includes (default "" (rel link)) "nofollow"
                           then nofollow la + 1 else nofollow la;
               uniqueContextual := {[ href ]} ∪ uniqueContextual la;
               uniqueTemplate := uniqueTemplate la |}
        | ctx =>
            {| contextual := contextual la;
               template := template la + 1;
               navigation := if ctx is ctxNavigation
                             then navigation la + 1 else navigation la;
               footer := if ctx is ctxFooter then footer la + 1 else footer la;
               external := external la;
               nofollow := nofollow la;
               uniqueContextual := uniqueContextual la;
               uniqueTemplate := {[ href ]} ∪ uniqueTemplate la |}
        end
      else if startsWith href "http" then
        {| contextual := contextual la;
           template := template la;
           navigation := navigation la;
           footer := footer la;
           external := external la + 1;
           nofollow := nofollow la;
           uniqueContextual := uniqueContextual la;
           uniqueTemplate := uniqueTemplate la |}
      else la
  end.

Definition analyzeLinksAdvanced (domain : string) (allLinks : list Link) : LinkData :=
  fold_left (analyzeLink domain) allLinks emptyLinkData.

(** The reading the specification gives of "internal", for comparison: the
    host of an absolute http(s) URL is what stands between [://] and the
    first [/], [?], [#] or [:]. *)
Fixpoint hostPart (s : string) : string :=
  match s with
  | EmptyString => EmptyString
  | String c s' =>
      if Ascii.eqb c "/"%char || Ascii.eqb c "?"%char ||
         Ascii.eqb c "#"%char || Ascii.eqb c ":"%char
      then EmptyString else String c (hostPart s')
  end.

Definition dropChars (n : nat) (s : string) : string :=
  String.substring n (String.length s - n)%nat s.

Definition urlHost (href : string) : option string :=
  if startsWith href "http://" then Some (hostPart (dropChars 7 href))
  else if startsWith href "https://" then Some (hostPart (dropChars 8 href))
  else None.

Definition internalBySpec (domain href : string) : bool :=
  startsWith href "/" || startsWith href "?" ||
  match urlHost href with
  | Some host => String.eqb host domain
  | None => false
  end.

(** [round(100 * u / c)] as the specification writes it: the integer nearest
    to the exact quotient, a half going up. *)
Definition roundedPercent (u c : Z) : Z := (200 * u + c) / (2 * c).

(** The comparison of the reported percentage with the exact one, for [u]
    unique targets among [c] links, and its exhaustive run over every
    [0 <= u <= c], [1 <= c <= bound]. *)
Definition diversityCheck (u c : Z) : bool :=
  let r := Math_round (Z2F u / Z2F c * 100)%float in
  match exactInteger r, NumberToString r with
  | Some n, Some str =>
      String.eqb str (pretty n) &&
      (2 * Z.abs (100 * u - n * c) <=? c) &&
      ((n =? roundedPercent u c) ||
       (((200 * u + c) mod (2 * c) =? 0) && (n =? roundedPercent u c - 1)))
  | _, _ => false
  end.

Definition diversityCheckUpTo (bound : nat) : bool :=
  forallb (fun c => forallb (fun u => diversityCheck (Z.of_nat u) (Z.of_nat c))
                            (seq 0 (S c)))
          (seq 1 bound).

(** ** Rounding of doubles

    What the proofs about [u / c * 100] need of the specification of the
    binary64 operations: the state of [binary_round_aux] after its right
    shifts. *)

(** The position of a remainder [rem] of a division by [D] with respect to
    the half of [D]. *)
Definition locationOf (D rem : Z) : location :=
  if rem =? 0 then loc_Exact else loc_Inexact (2 * rem ?= D).

(** What [k] right shifts leave of the quotient [N / D]: the quotient by
    [D * 2^k], the round bit and the sticky bit. *)
Definition shiftedBy (N D : Z) (k : nat) (mrs : shr_record) : Prop :=
  let Dk := D * 2 ^ Z.of_nat k in
  shr_m mrs = N / Dk /\
  shr_r mrs = (Dk <=? 2 * (N mod Dk)) /\
  shr_s mrs = negb (N mod Dk =? 0) && negb (2 * (N mod Dk) =? Dk).

(** Sample inputs: a link set with [c] contextual links pointing at the given
    targets, and a content object with [w] words. *)
Definition linksTo (c : Z) (targets : list string) : LinkData :=
  {| contextual := c; template := 0; navigation := 0; footer := 0;
     external := 0; nofollow := 0;
     uniqueContextual := list_to_set targets; uniqueTemplate := ∅ |}.

(** [n] distinct link targets. *)
Definition distinctTargets (n : nat) : list string :=
  map (fun i => "/page-" +:+ pretty i) (seq 0 n).

Definition contentOf (w h p : Z) : ContentData :=
  {| words := w; headings := h; paragraphs := p; lists := 0;
     quality := classifyQuality w h p |}.

(** * vector.js *)

(** ** Regular expressions *)

(** The fragment of JavaScript regular expressions the script uses: literal
    characters, the classes [\d], [\s] and [.], the anchors [^] and [$]
    (without the [m] flag), sequence, alternation and the greedy quantifiers
    [?] and [*]. *)
Inductive Regex :=
| REmpty
| RChar (c : ascii)
| RClass (p : ascii -> bool)
| RBol
| REol
| RSeq (r1 r2 : Regex)
| RAlt (r1 r2 : Regex)
| ROpt (r : Regex)
| RStar (r : Regex).

Fixpoint RLit (s : string) : Regex :=
  match s with
  | EmptyString => REmpty
  | String c EmptyString => RChar c
  | String c s' => RSeq (RChar c) (RLit s')
  end.

Definition RPlus (r : Regex) : Regex := RSeq r (RStar r).

Fixpoint RSeqs (rs : list Regex) : Regex :=
  match rs with
  | [] => REmpty
  | [r] => r
  | r :: rs' => RSeq r (RSeqs rs')
  end.

Definition charCode (c : ascii) : Z := Z.of_nat (nat_of_ascii c).

(** [\d]. *)
Definition isDigit (c : ascii) : bool := (48 <=? charCode c) && (charCode c <=? 57).

(** [\s], and what [trim] strips: the WhiteSpace and LineTerminator code
    points below 256. *)
Definition isWhiteSpace (c : ascii) : bool :=
  ((9 <=? charCode c) && (charCode c <=? 13)) ||
  (charCode c =? 32) || (charCode c =? 160).

(** [.]: anything but a line terminator. *)
Definition isDot (c : ascii) : bool :=
  negb ((charCode c =? 10) || (charCode c =? 13)).

(** The loop of the greedy [*]: try one more iteration of the body [step],
    which must consume something, and fall back to the continuation [k]. [n]
    bounds the number of iterations by the length of the input. *)
Fixpoint starLoop (step : string -> (string -> option string) -> option string)
    (k : string -> option string) (n : nat) (s : string) {struct n} : option string :=
  match step s (fun s' =>
                  match n with
                  | O => None
                  | S n' =>
                      if Nat.ltb (String.length s') (String.length s)
                      then starLoop step k n' s' else None
                  end) with
  | Some rest => Some rest
  | None => k s
  end.

(** The backtracking matcher. [rmatch r total s k] matches [r] at the front
    of [s], the rest of an input of [total] characters, and hands what is
    left to the continuation [k]; alternatives are tried in the order the
    language prescribes (left branch first, one more iteration first). *)
Fixpoint rmatch (r : Regex) (total : nat) (s : string)
    (k : string -> option string) {struct r} : option string :=
  match r with
  | REmpty => k s
  | RChar c =>
      match s with
      | String d s' => if Ascii.eqb c d then k s' else None
      | EmptyString => None
      end
  | RClass p =>
      match s with
      | String d s' => if p d then k s' else None
      | EmptyString => None
      end
  | RBol => if Nat.eqb (String.length s) total then k s else None
  | REol => match s with EmptyString => k s | String _ _ => None end
  | RSeq r1 r2 => rmatch r1 total s (fun s' => rmatch r2 total s' k)
  | RAlt r1 r2 =>
      match rmatch r1 total s k with
      | Some rest => Some rest
      | None => rmatch r2 total s k
      end
  | ROpt r1 =>
      match rmatch r1 total s k with
      | Some rest => Some rest
      | None => k s
      end
  | RStar r1 => starLoop (rmatch r1 total) k (String.length s) s
  end.

(** [regex.test(s)]: is there a position at which the expression matches. *)
Fixpoint testFrom (r : Regex) (total : nat) (s : string) : bool :=
  match rmatch r total s Some with
  | Some _ => true
  | None =>
      match s with
      | EmptyString => false
      | String _ s' => testFrom r total s'
      end
  end.

Definition test (r : Regex) (s : string) : bool := testFrom r (String.length s) s.

(** [s.replace(regex, '')] with the [g] flag: every match, found from left to
    right, is removed; after an empty match the search moves on by one
    character. *)
Fixpoint removeAllFrom (r : Regex) (total fuel : nat) (s : string) : string :=
  match fuel with
  | O => s
  | S fuel' =>
      let skip :=
        match s with
        | EmptyString => EmptyString
        | String c s' => String c (removeAllFrom r total fuel' s')
        end in
      match rmatch r total s Some with
      | Some rest =>
          if Nat.ltb (String.length rest) (String.length s)
          then removeAllFrom r total fuel' rest
          else skip
      | None => skip
      end
  end.

Definition removeAll (r : Regex) (s : string) : string :=
  removeAllFrom r (String.length s) (S (String.length s)) s.

(** [s.trim()]. *)
Fixpoint trimStart (s : string) : string :=
  match s with
  | EmptyString => EmptyString
  | String c s' => if isWhiteSpace c then trimStart s' else s
  end.

Fixpoint trimEnd (s : string) : string :=
  match s with
  | EmptyString => EmptyString
  | String c s' =>
      match trimEnd s' with
      | EmptyString => if isWhiteSpace c then EmptyString else String c EmptyString
      | t => String c t
      end
  end.

Definition trim (s : string) : string := trimEnd (trimStart s).

(** ** The expressions of [cleanupMalformedData] and [cleanupExistingData] *)

Definition dquote : ascii := ascii_of_nat 34.

(** The quotation mark is written [\x22] in the comments below. *)

(** The text [\x22embedding\x22:]. *)
Definition embeddingKey : string := String dquote ("embedding" +:+ String dquote ":").

(** [/^\[?\{?\x22embedding\x22:\s*\x22\[?\{?\x22embedding\x22:\s*\x22/g] *)
Definition nestedPrefix : Regex :=
  RSeqs [ RBol;
          ROpt (RChar "["); ROpt (RChar "{"); RLit embeddingKey;
          RStar (RClass isWhiteSpace); RChar dquote;
          ROpt (RChar "["); ROpt (RChar "{"); RLit embeddingKey;
          RStar (RClass isWhiteSpace); RChar dquote ].

(** [/\x22,?\x22method\x22.*$/g] *)
Definition methodSuffix : Regex :=
  RSeqs [ RChar dquote; ROpt (RChar ","); RChar dquote; RLit "method"; RChar dquote;
          RStar (RClass isDot); REol ].

(** [/^\[|\]$/g] *)
Definition arrayBrackets : Regex :=
  RAlt (RSeq RBol (RChar "[")) (RSeq (RChar "]") REol).

(** [/^\x22|\x22$/g] *)
Definition outerQuotes : Regex :=
  RAlt (RSeq RBol (RChar dquote)) (RSeq (RChar dquote) REol).

(** [-?\d+(\.\d+)?] *)
Definition signedDecimal : Regex :=
  RSeqs [ ROpt (RChar "-"); RPlus (RClass isDigit);
          ROpt (RSeq (RChar ".") (RPlus (RClass isDigit))) ].

(** [-?\d+(\.\d+)?(,-?\d+(\.\d+)?)*] *)
Definition decimalList : Regex :=
  RSeq signedDecimal (RStar (RSeq (RChar ",") signedDecimal)).

(** [/^-?\d+(\.\d+)?(,-?\d+(\.\d+)?)*$/] *)
Definition embeddingGrammar : Regex := RSeq RBol (RSeq decimalList REol).

(** [cleanupMalformedData], on a string argument (any other value is
    returned as it is). *)
Definition cleanupMalformedData (rawData : string) : string :=
  let cleaned :=
    trim (removeAll outerQuotes
            (removeAll arrayBrackets
               (removeAll methodSuffix
                  (removeAll nestedPrefix rawData)))) in
  cleaned.

(** The text [{\x22embedding\x22:]. *)
Definition embeddingWrapper : string := "{" +:+ embeddingKey.

(** [cleanupExistingData], on a string argument; [None] is [null], which is
    also the answer to an argument that is not a string. None of the string
    operations in the [try] block throws, so the [catch] branch is dead. *)
Definition cleanupExistingData (embeddingValue : string) : option string :=
  if includes embeddingValue embeddingWrapper then
    let cleanValue := cleanupMalformedData embeddingValue in
    if negb (String.eqb cleanValue "") && test embeddingGrammar cleanValue
    then Some cleanValue
    else None
  else Some embeddingValue.

(** The malformed sample of the specification:
    [[{\x22embedding\x22:\x22[{\x22embedding\x22:\x220.1,0.2,0.3\x22,\x22method\x22:\x22x\x22}]. *)
Definition malformedSample : string :=
  "[{" +:+ embeddingKey +:+ String dquote ("[{" +:+ embeddingKey +:+
  String dquote ("0.1,0.2,0.3" +:+ String dquote ("," +:+ String dquote
  ("method" +:+ String dquote (":" +:+ String dquote ("x" +:+ String dquote "}")))))).

(** ** The language of an expression *)

(** The language of an expression without anchors: the strings it matches
    as a whole, whatever the order in which a matcher tries its
    alternatives. *)
Inductive Matches : Regex -> string -> Prop :=
| MEmpty : Matches REmpty ""
| MChar c : Matches (RChar c) (String c "")
| MClass (p : ascii -> bool) c : p c = true -> Matches (RClass p) (String c "")
| MSeq r1 r2 s1 s2 :
    Matches r1 s1 -> Matches r2 s2 -> Matches (RSeq r1 r2) (s1 +:+ s2)
| MAltL r1 r2 s : Matches r1 s -> Matches (RAlt r1 r2) s
| MAltR r1 r2 s : Matches r2 s -> Matches (RAlt r1 r2) s
| MOptNone r : Matches (ROpt r) ""
| MOptSome r s : Matches r s -> Matches (ROpt r) s
| MStarNil r : Matches (RStar r) ""
| MStarCons r s1 s2 :
    Matches r s1 -> s1 <> "" -> Matches (RStar r) s2 -> Matches (RStar r) (s1 +:+ s2).

Fixpoint anchorFree (r : Regex) : bool :=
  match r with
  | RBol | REol => false
  | RSeq r1 r2 | RAlt r1 r2 => anchorFree r1 && anchorFree r2
  | ROpt r1 | RStar r1 => anchorFree r1
  | _ => true
  end.

(** ** Static facts about an expression, used to reason about the matcher *)

(** Does every match of [r] consume at least one character. *)
Fixpoint mustConsume (r : Regex) : bool :=
  match r with
  | RChar _ | RClass _ => true
  | RSeq r1 r2 => mustConsume r1 || mustConsume r2
  | RAlt r1 r2 => mustConsume r1 && mustConsume r2
  | _ => false
  end.

(** The characters a match of [r] can start with. *)
Fixpoint firstChars (r : Regex) (c : ascii) : bool :=
  match r with
  | RChar d => Ascii.eqb d c
  | RClass p => p c
  | RSeq r1 r2 => firstChars r1 c || (negb (mustConsume r1) && firstChars r2 c)
  | RAlt r1 r2 => firstChars r1 c || firstChars r2 c
  | ROpt r1 | RStar r1 => firstChars r1 c
  | _ => false
  end.

(** The characters a match of [r] can contain. *)
Fixpoint alphabet (r : Regex) (c : ascii) : bool :=
  match r with
  | RChar d => Ascii.eqb d c
  | RClass p => p c
  | RSeq r1 r2 | RAlt r1 r2 => alphabet r1 c || alphabet r2 c
  | ROpt r1 | RStar r1 => alphabet r1 c
  | _ => false
  end.

Fixpoint allChars (p : ascii -> bool) (s : string) : bool :=
  match s with
  | EmptyString => true
  | String c s' => p c && allChars p s'
  end.

(** [s] cannot start a consuming match of [r]. *)
Definition blocked (r : Regex) (s : string) : Prop :=
  match s with
  | EmptyString => True
  | String c _ => firstChars r c = false
  end.

(** The characters of a clean embedding string. *)
Definition isNumChar (c : ascii) : bool :=
  isDigit c || Ascii.eqb c "." || Ascii.eqb c "," || Ascii.eqb c "-".

(** ** The fallback embedding *)

(** [String.prototype.toLowerCase] on code units below 256: the letters A-Z
    and the upper-case letters of the Latin-1 supplement (U+00C0 to U+00DE
    without the multiplication sign U+00D7) move up by 32. *)
Definition toLowerCaseChar (c : ascii) : ascii :=
  let n := charCode c in
  if ((65 <=? n) && (n <=? 90)) || ((192 <=? n) && (n <=? 222) && negb (n =? 215))
  then ascii_of_nat (Z.to_nat (n + 32))
  else c.

Fixpoint toLowerCase (s : string) : string :=
  match s with
  | EmptyString => EmptyString
  | String c s' => String (toLowerCaseChar c) (toLowerCase s')
  end.

(** [ToInt32], applied to an integer. *)
Definition toInt32 (z : Z) : Z := (z + 2 ^ 31) mod 2 ^ 32 - 2 ^ 31.

(** The body of the inner loop: [hash = ((hash << 5) - hash) + char;
    hash = hash & hash]. *)
Definition hashStep (hash : Z) (c : ascii) : Z :=
  let char := charCode c in
  let hash := toInt32 (hash * 2 ^ 5) - hash + char in
  toInt32 hash.

Fixpoint hashFrom (hash : Z) (seed : string) : Z :=
  match seed with
  | EmptyString => hash
  | String c seed' => hashFrom (hashStep hash c) seed'
  end.

(** [Math.sin]. The language fixes its value at NaN and the infinities (NaN)
    and at the two zeros (the argument itself); everywhere else the result is
    an implementation-approximated value. [Math_sin] is the part every
    implementation shares; the generator below takes the implementation as a
    parameter [sin], [None] standing for a value that is not known. *)
Definition Math_sin (x : float) : option float :=
  match Prim2SF x with
  | S754_zero _ => Some x
  | S754_nan | S754_infinity _ => Some nan
  | S754_finite _ _ _ => None
  end.

(** [k] written with six digits. *)
Definition sixDigits (k : Z) : string :=
  let d := pretty k in
  String.concat "" (repeat "0" (6 - String.length d)) +:+ d.

(** [x.toFixed(6)]: [n] is the integer nearest to [x * 10^6] (a half going
    up), computed exactly. From 10^21 on the method answers in exponent
    notation, which is outside the modelled fragment. *)
Definition toFixed6 (x : float) : option string :=
  match Prim2SF x with
  | S754_nan => Some "NaN"
  | S754_infinity s => Some (if s then "-Infinity" else "Infinity")
  | S754_zero _ => Some "0.000000"
  | S754_finite s m e =>
      let big := if 0 <=? e then 10 ^ 21 <=? Z.pos m * 2 ^ e
                 else 10 ^ 21 * 2 ^ (- e) <=? Z.pos m in
      if big then None
      else
        let n := if 0 <=? e then Z.pos m * 2 ^ e * 10 ^ 6
                 else (2 * Z.pos m * 10 ^ 6 + 2 ^ (- e)) / 2 ^ (- e + 1) in
        Some ((if s then "-" else "") +:+ pretty (n / 10 ^ 6) +:+ "." +:+
              sixDigits (n mod 10 ^ 6))
  end.

Section FallbackEmbedding.
Variable sin : float -> option float.

(** One component: [(Math.sin(hash / 1000000) * 0.5).toFixed(6)] for the
    hash of [normalized + i.toString()]. *)
Definition embeddingComponent (normalized : string) (i : nat) : option string :=
  let hash := 0 in
  let seed := normalized +:+ pretty i in
  let hash := hashFrom hash seed in
  match sin (Z2F hash / 1000000)%float with
  | Some y => toFixed6 (y * 0.5)%float
  | None => None
  end.

(** [generateSimpleEmbedding(text, dimensions)]: an array of strings. *)
Definition generateSimpleEmbedding (text : string) (dimensions : nat)
  : option (list string) :=
  let normalized := trim (toLowerCase text) in
  mapM (embeddingComponent normalized) (seq 0 dimensions).

End FallbackEmbedding.

(** * semantic.js *)

(** The value a decimal digit string stands for. *)
Fixpoint digitsValue (acc : Z) (s : string) : option Z :=
  match s with
  | EmptyString => Some acc
  | String c s' =>
      if isDigit c then digitsValue (10 * acc + (charCode c - 48)) s' else None
  end.

Fixpoint splitAtDot (s : string) : option (string * string) :=
  match s with
  | EmptyString => None
  | String c s' =>
      if Ascii.eqb c "." then Some (EmptyString, s')
      else match splitAtDot s' with
           | Some (a, b) => Some (String c a, b)
           | None => None
           end
  end.

(** [ToNumber] of a string, as the multiplication applies it to the entries
    of a fallback embedding. Modelled for the texts [toFixed] produces: NaN,
    the infinities, and an optional minus sign followed by digits, a dot and
    digits. The quotient of two integers that are exact doubles is the double
    nearest to the decimal; longer literals are outside the fragment. *)
Definition ToNumber (s : string) : option float :=
  if String.eqb s "NaN" then Some nan
  else if String.eqb s "Infinity" then Some infinity
  else if String.eqb s "-Infinity" then Some neg_infinity
  else
    let (negative, body) :=
      match s with
      | String "-" s' => (true, s')
      | _ => (false, s)
      end in
    match splitAtDot body with
    | Some (a, b) =>
        match a, b, digitsValue 0 (a +:+ b) with
        | String _ _, String _ _, Some n =>
            if (n <? 2 ^ 53) && (String.length b <=? 22)%nat then
              let x := (Z2F n / Z2F (10 ^ Z.of_nat (String.length b)))%float in
              Some (if negative then (- x)%float else x)
            else None
        | _, _, _ => None
        end
    | None => None
    end.

(** What a call either returns or throws. *)
Inductive Outcome :=
| Returned (x : float)
| Thrown (message : string).

Record Metrics := { similarityCalculations : Z }.

(** The three accumulators of the loop of [_cosineSimilarity]. *)
Record Sums := { dotProduct : float; normA : float; normB : float }.

Definition accumulate (acc : Sums) (ab : float * float) : Sums :=
  let (a, b) := ab in
  {| dotProduct := (dotProduct acc + a * b)%float;
     normA := (normA acc + a * a)%float;
     normB := (normB acc + b * b)%float |}.

(** [_cosineSimilarity(vecA, vecB)] on vectors of numbers, with the counter
    of the analyzer it increments. *)
Definition _cosineSimilarity (metrics : Metrics) (vecA vecB : list float)
  : Metrics * Outcome :=
  let metrics := {| similarityCalculations := similarityCalculations metrics + 1 |} in
  if negb (Nat.eqb (length vecA) (length vecB)) then
    (metrics, Thrown "Vector dimension mismatch")
  else
    let acc := fold_left accumulate (combine vecA vecB)
                 {| dotProduct := 0; normA := 0; normB := 0 |} in
    (metrics, Returned (dotProduct acc / (sqrt (normA acc) * sqrt (normB acc)))%float).

(** The numbers the entries of a fallback embedding stand for. *)
Definition embeddingNumbers (sin : float -> option float) (text : string)
    (dimensions : nat) : option (list float) :=
  match generateSimpleEmbedding sin text dimensions with
  | Some embedding => mapM ToNumber embedding
  | None => None
  end.

(** The self-similarity of the fallback embedding of a text: the entries are
    strings, which the products of the loop turn into numbers. *)
Definition fallbackSelfSimilarity (sin : float -> option float) (text : string)
    (dimensions : nat) : option Outcome :=
  match embeddingNumbers sin text dimensions with
  | Some v => Some (snd (_cosineSimilarity {| similarityCalculations := 0 |} v v))
  | None => None
  end.

(** The sum of squares as the loop accumulates it, from the left. *)
Definition sumOfSquares (v : list float) : float :=
  fold_left (fun s x => (s + x * x)%float) v 0%float.


(** * Further parts of linkgap.js *)

(** ** What the link walk counts *)

(** The links the walk looks at: those with an href other than '#' and the
    empty string. *)
Definition walkedHref (link : Link) : option string :=
  match href link with
  | Some h => if String.eqb h "#" || String.eqb h "" then None else Some h
  | None => None
  end.

(** An internal link that [getLinkContext] calls contextual. *)
Definition isContextualLink (domain : string) (link : Link) : bool :=
  match walkedHref link with
  | Some h => isInternal domain h &&
              match linkContext link with ctxContextual => true | _ => false end
  | None => false
  end.

(** An internal link in the given template context. *)
Definition isTemplateLinkIn (ctx : LinkContext) (domain : string) (link : Link) : bool :=
  match walkedHref link with
  | Some h =>
      isInternal domain h &&
      match linkContext link, ctx with
      | ctxNavigation, ctxNavigation | ctxFooter, ctxFooter => true
      | _, _ => false
      end
  | None => false
  end.

Definition isTemplateLink (domain : string) (link : Link) : bool :=
  isTemplateLinkIn ctxNavigation domain link || isTemplateLinkIn ctxFooter domain link.

(** A link that is not internal and whose href starts with http. *)
Definition isExternalLink (domain : string) (link : Link) : bool :=
  match walkedHref link with
  | Some h => negb (isInternal domain h) && startsWith h "http"
  | None => false
  end.

Definition isNofollowContextual (domain : string) (link : Link) : bool :=
  isContextualLink domain link && includes (default "" (rel link)) "nofollow".

Definition boolZ (b : bool) : Z := if b then 1 else 0.

Definition countLinks (p : Link -> bool) (links : list Link) : Z :=
  Z.of_nat (length (List.filter p links)).

(** The hrefs of the links that satisfy [p]. *)
Definition hrefsOf (p : Link -> bool) (links : list Link) : list string :=
  omap (fun link => if p link then walkedHref link else None) links.

(** ** Reading the score breakdown *)

(** The points an entry of the breakdown shows in parentheses. *)
Definition entryPoints (b : BreakdownEntry) : Z :=
  match b with
  | BrokenPage p | ThinContentPenalty p | ZeroContextualLinks p
  | LinkDeficit _ p | LowDensity _ p | OverLinking _ p
  | PageTypePriority _ p | DuplicateLinks _ p | DeepPage _ p => p
  end.

Definition breakdownTotal (bs : list BreakdownEntry) : Z :=
  fold_right (fun b acc => entryPoints b + acc) 0 bs.

(** ** [checkExternalLinkBalance] *)

(** The three texts the function can return, with the interpolated counts. *)
Inductive ExternalBalance :=
| HighExternalRatio (external contextual : Z)
| ExternalOnly (external : Z)
| Balanced.

Definition checkExternalLinkBalance (linkData : LinkData) : ExternalBalance :=
  let externalRatio :=
    (Z2F (external linkData) / Z2F (Z.max (contextual linkData) 1))%float in
  if (0 <? contextual linkData) && (CONFIG.EXTERNAL_WARNING_RATIO <? externalRatio)%float
  then HighExternalRatio (external linkData) (contextual linkData)
  else if (contextual linkData =? 0) && (10 <? external linkData)
  then ExternalOnly (external linkData)
  else Balanced.

(** ** The report of the main script *)

Inductive Priority := priorityHigh | priorityMedium | priorityLow.

(** 'Link Priority'. *)
Definition linkPriority (opportunityAnalysis : OpportunityAnalysis) : Priority :=
  if 50 <=? score opportunityAnalysis then priorityHigh
  else if 25 <=? score opportunityAnalysis then priorityMedium
  else priorityLow.

(** 'Link Gap': the number shown before MISSING, or [None] for NONE. *)
Definition linkGap (linkData : LinkData) (opportunityAnalysis : OpportunityAnalysis)
  : option Z :=
  if hasGap (gapAnalysis opportunityAnalysis)
  then Some (recommendedLinks (gapAnalysis opportunityAnalysis) - contextual linkData)
  else None.

(** ** [analyzeContentAdvanced] *)

(** The two variables of the search for the content area with most words. *)
Definition betterContent (best : option ContentData * Z) (analysis : ContentData)
  : option ContentData * Z :=
  let (bestContent, bestWordCount) := best in
  if bestWordCount <? words analysis then (Some analysis, words analysis)
  else (bestContent, bestWordCount).

(** [analyzeContentAdvanced], from the analyses of the elements the content
    selectors find, in the order they are visited, and the analysis of the
    body with the heavier filtering. The last alternative of the script, an
    object with no words, is never reached: the fallback is an object. *)
Definition analyzeContentAdvanced (analyses : list ContentData)
    (bodyAnalysis : ContentData) : ContentData :=
  let (bestContent, bestWordCount) := fold_left betterContent analyses (None, 0) in
  match bestContent with
  | Some best => if bestWordCount <? 50 then bodyAnalysis else best
  | None => bodyAnalysis
  end.

(** ** [generateContextualRecommendations] *)

(** [Math.ceil]: the least integer not below [x]; NaN, the infinities and
    the zeros are returned unchanged, and a negative [x] above -1 gives
    -0. *)
Definition Math_ceil (x : float) : float :=
  match Prim2SF x with
  | S754_finite s m e =>
      let v := if s then Z.neg m else Z.pos m in
      let n := if 0 <=? e then v * 2 ^ e else - ((- v) / 2 ^ (- e)) in
      if n =? 0 then (if s then PrimFloat.neg_zero else PrimFloat.zero) else Z2F n
  | _ => x
  end.

(** One recommendation, kept as the variant of its text with the values the
    template interpolates. *)
Inductive Recommendation :=
| RecBrokenPage (words : Z)
| RecBlogFailure (words : Z)
| RecLinkBalance (externalBalance : ExternalBalance)
| RecRemoveDuplicates (duplicates contextual targets : Z)
| RecReduceLinks (density excess : float)
| RecAddCritical (needed : Z)
| RecAddMore (needed current recommended : Z)
| RecOptimize (needed : Z)
| RecHomepageFocus
| RecHomepageContent (words : Z)
| RecSpecificIdeas (ideas : list string).

Definition contextualSuggestions : gmap string (list string) :=
  <["trading-pair" := ["Link to security/safety guides";
                       "Reference related trading pairs";
                       "Connect to educational content about this crypto"]]>
  (<["crypto-specific" := ["Link to current market data/charts";
                           "Reference trading pages for this crypto";
                           "Connect to news/updates about this coin"]]>
  (<["learn-hub" := ["Cross-reference prerequisite lessons";
                     "Link to practical examples/trading pages";
                     "Reference related educational content"]]>
  (<["blog-article" := ["Link to mentioned cryptocurrencies";
                        "Reference related news articles";
                        "Connect to relevant guides/tutorials"]]>
  (<["market-data" := ["Link to trading pages for displayed pairs";
                       "Reference analysis/news for featured cryptos"]]>
  (<["homepage" := ["Feature key trading pairs";
                    "Link to educational content for beginners";
                    "Highlight security/trust signals"]]>
   ∅))))).

Section Recommendations.
Variables (linkData : LinkData) (contentData : ContentData) (pageType : string)
          (gapAnalysis : GapAnalysis) (externalBalance : ExternalBalance).

(** External link imbalance warning: the balance text includes one of the
    two warnings. *)
Definition balanceRecommendation : list Recommendation :=
  match externalBalance with
  | Balanced => []
  | _ => [RecLinkBalance externalBalance]
  end.

(** Over-linking and duplicate link issues. *)
Definition duplicateRecommendation : list Recommendation :=
  if (5 <? contextual linkData) && (uniqueRatio linkData <? 0.7)%float then
    let duplicates := contextual linkData - Z.of_nat (size (uniqueContextual linkData)) in
    [RecRemoveDuplicates duplicates (contextual linkData)
       (Z.of_nat (size (uniqueContextual linkData)))]
  else [].

(** High density issues. *)
Definition densityRecommendation : list Recommendation :=
  if (3.0 <? contextualDensity linkData contentData)%float then
    let excess :=
      (Z2F (contextual linkData) - Math_ceil (Z2F (words contentData) * 0.025))%float in
    [RecReduceLinks (contextualDensity linkData contentData) excess]
  else [].

(** Primary gap recommendations. *)
Definition gapRecommendation : list Recommendation :=
  if hasGap gapAnalysis then
    let needed := recommendedLinks gapAnalysis - currentLinks gapAnalysis in
    match severity gapAnalysis with
    | critical => [RecAddCritical needed]
    | sevHigh =>
        [RecAddMore needed (currentLinks gapAnalysis) (recommendedLinks gapAnalysis)]
    | _ => [RecOptimize needed]
    end
  else [].

(** Homepage-specific recommendations. *)
Definition homepageRecommendations : list Recommendation :=
  if String.eqb pageType "homepage" then
    (if (10 <? contextual linkData) && (uniqueRatio linkData <? 0.8)%float
     then [RecHomepageFocus] else []) ++
    (match quality contentData with
     | thin => [RecHomepageContent (words contentData)]
     | _ => []
     end)
  else [].

(** Page-specific contextual recommendations (only if not over-linked). *)
Definition specificRecommendation : list Recommendation :=
  if (contextualDensity linkData contentData <=? 3.0)%float
     && (0.7 <=? uniqueRatio linkData)%float then
    match contextualSuggestions !! pageType with
    | Some suggestions =>
        if hasGap gapAnalysis then [RecSpecificIdeas (firstn 2 suggestions)] else []
    | None => []
    end
  else [].

Definition generateContextualRecommendations : list Recommendation :=
  let recommendations := [] in
  if words contentData <? 10 then
    recommendations ++ [RecBrokenPage (words contentData)]
  else if (words contentData <? 50) && includes pageType "blog" then
    recommendations ++ [RecBlogFailure (words contentData)]
  else
    let recommendations := recommendations ++ balanceRecommendation in
    let recommendations := recommendations ++ duplicateRecommendation in
    let recommendations := recommendations ++ densityRecommendation in
    let recommendations := recommendations ++ gapRecommendation in
    let recommendations := recommendations ++ homepageRecommendations in
    let recommendations := recommendations ++ specificRecommendation in
    firstn 3 recommendations.

End Recommendations.

(** The recommendations as the main script computes them. *)
Definition recommendationsOf (linkData : LinkData) (contentData : ContentData)
    (pageType : string) (urlDepth : Z) : list Recommendation :=
  let opportunityAnalysis :=
    calculateContextualOpportunity linkData contentData pageType urlDepth in
  let externalBalance := checkExternalLinkBalance linkData in
  generateContextualRecommendations linkData contentData pageType
    (gapAnalysis opportunityAnalysis) externalBalance.

(** What a recommendation of the script can say, given the page. *)
Definition recommendationSound (linkData : LinkData) (contentData : ContentData)
    (rec : Recommendation) : Prop :=
  match rec with
  | RecBrokenPage w => w = words contentData /\ w < 10
  | RecBlogFailure w => w = words contentData /\ 10 <= w < 50
  | RecLinkBalance b => b = checkExternalLinkBalance linkData /\ b <> Balanced
  | RecRemoveDuplicates d c t =>
      c = contextual linkData /\ t = Z.of_nat (size (uniqueContextual linkData)) /\
      d = c - t /\ 5 < c
  | RecAddCritical n =>
      50 <= words contentData /\ contextual linkData = 0 /\ n = idealLinks contentData
  | RecAddMore n c r =>
      50 <= words contentData /\ c = contextual linkData /\ r = idealLinks contentData /\
      n = r - c /\ 3 <= n /\ c <> 0
  | RecOptimize n =>
      if words contentData <? 50 then n = - contextual linkData
      else n = idealLinks contentData - contextual linkData /\ 1 <= n <= 2
  | RecHomepageContent w => w = words contentData /\ quality contentData = thin
  | RecSpecificIdeas ideas => (1 <= length ideas <= 2)%nat
  | _ => True
  end.

(** ** The depth of the URL *)

(** [(s.match(regex) || []).length] with the [g] flag: the number of
    matches, found from left to right; an empty match counts and the search
    moves on by one character. *)
Fixpoint countMatchesFrom (r : Regex) (total fuel : nat) (s : string) : nat :=
  match fuel with
  | O => O
  | S fuel' =>
      let skip :=
        match s with
        | EmptyString => O
        | String _ s' => countMatchesFrom r total fuel' s'
        end in
      match rmatch r total s Some with
      | Some rest =>
          if Nat.ltb (String.length rest) (String.length s)
          then S (countMatchesFrom r total fuel' rest)
          else S skip
      | None => skip
      end
  end.

Definition countMatches (r : Regex) (s : string) : nat :=
  countMatchesFrom r (String.length s) (S (String.length s)) s.

(** [const urlDepth = (currentUrl.match(/\//g) || []).length - 2]. *)
Definition urlDepthOf (currentUrl : string) : Z :=
  Z.of_nat (countMatches (RChar "/") currentUrl) - 2.

(** The number of slashes of a string. *)
Fixpoint slashCount (s : string) : Z :=
  match s with
  | EmptyString => 0
  | String c s' => (if Ascii.eqb c "/" then 1 else 0) + slashCount s'
  end.

Definition isDeepPage (b : BreakdownEntry) : bool :=
  match b with DeepPage _ _ => true | _ => false end.

Definition isSpecificIdeas (rec : Recommendation) : bool :=
  match rec with RecSpecificIdeas _ => true | _ => false end.

(** * Further parts of vector.js *)

(** The polynomial the inner loop of [generateSimpleEmbedding] evaluates,
    without the wrap-around to 32 bits: each character multiplies what was
    read so far by 31. *)
Fixpoint polyHash (h : Z) (seed : string) : Z :=
  match seed with
  | EmptyString => h
  | String c seed' => polyHash (31 * h + charCode c) seed'
  end.

(** The three texts [toFixed] gives for a value that is not finite. *)
Definition isNonFiniteText (s : string) : bool :=
  String.eqb s "NaN" || String.eqb s "Infinity" || String.eqb s "-Infinity".

(** [simpleEmbedding.join(',')], the string [generateEmbeddingWithFallback]
    hands to the crawler when the API call failed. *)
Definition join (sep : string) (parts : list string) : string := String.concat sep parts.

Definition fallbackEmbeddingString (sin : float -> option float) (content : string)
    (dimensions : nat) : option string :=
  match generateSimpleEmbedding sin content dimensions with
  | Some simpleEmbedding => Some (join "," simpleEmbedding)
  | None => None
  end.

(** ** The dispatch at the end of the script *)

Definition failedFetch : string := "TypeError: Failed to fetch".

(** What the script returns: the result of [generateEmbeddingWithFallback()],
    or [seoSpider.data(cleaned)]. *)
Inductive Dispatch :=
| Regenerate
| ReturnData (cleaned : string).

(** A string is truthy when it is not empty. *)
Definition truthy (s : string) : bool := negb (String.eqb s "").

(** [currentEmbedding] is [window.currentEmbeddingValue]: a string, or
    undefined ([None]). *)
Definition dispatch (currentEmbedding : option string) : Dispatch :=
  match currentEmbedding with
  | None => Regenerate
  | Some v =>
      if truthy v && includes v failedFetch then Regenerate
      else if truthy v && includes v embeddingWrapper then
        match cleanupExistingData v with
        | Some cleaned => if truthy cleaned then ReturnData cleaned else Regenerate
        | None => Regenerate
        end
      else Regenerate
  end.

(** ** The shape of a [toFixed(6)] text *)

(** An optional minus sign, at least one digit, a dot and six digits. *)
Definition isFixed6 (s : string) : Prop :=
  exists sign int frac,
    s = sign +:+ int +:+ "." +:+ frac /\
    (sign = "" \/ sign = "-") /\
    int <> "" /\ allChars isDigit int = true /\
    allChars isDigit frac = true /\ String.length frac = 6%nat.

(** Is the double a number (neither NaN nor an infinity). *)
Definition isFiniteNumber (x : float) : bool :=
  match Prim2SF x with
  | S754_zero _ | S754_finite _ _ _ => true
  | _ => false
  end.

(** ** The cleaning of the extracted content *)

(** [s.replace(regex, replacement)] with the [g] flag, for a replacement
    text without [$] patterns: every match, found from left to right, gives
    way to the replacement; after an empty match the next character is
    copied and the search moves on. *)
Fixpoint replaceAllFrom (r : Regex) (replacement : string) (total fuel : nat)
    (s : string) : string :=
  match fuel with
  | O => s
  | S fuel' =>
      let skip :=
        match s with
        | EmptyString => EmptyString
        | String c s' => String c (replaceAllFrom r replacement total fuel' s')
        end in
      match rmatch r total s Some with
      | Some rest =>
          if Nat.ltb (String.length rest) (String.length s)
          then replacement +:+ replaceAllFrom r replacement total fuel' rest
          else replacement +:+ skip
      | None => skip
      end
  end.

Definition replaceAll (r : Regex) (replacement : string) (s : string) : string :=
  replaceAllFrom r replacement (String.length s) (S (String.length s)) s.

(** A letter of an expression with the [i] flag: the text may have it in
    either case. The expressions of the script have ASCII letters only, for
    which the two cases are the only characters that fold together. *)
Definition RCharCI (c : ascii) : Regex :=
  RClass (fun d => Ascii.eqb (toLowerCaseChar d) (toLowerCaseChar c)).

Fixpoint RLitCI (s : string) : Regex :=
  match s with
  | EmptyString => REmpty
  | String c EmptyString => RCharCI c
  | String c s' => RSeq (RCharCI c) (RLitCI s')
  end.

Fixpoint RAlts (rs : list Regex) : Regex :=
  match rs with
  | [] => REmpty
  | [r] => r
  | r :: rs' => RAlt r (RAlts rs')
  end.

Definition newline : ascii := ascii_of_nat 10.
Definition tab : ascii := ascii_of_nat 9.
Definition space : ascii := ascii_of_nat 32.

(** [/\s+/g], [/\n+/g] and [/\t+/g]. *)
Definition whiteSpaceRun : Regex := RPlus (RClass isWhiteSpace).
Definition newlineRun : Regex := RPlus (RChar newline).
Definition tabRun : Regex := RPlus (RChar tab).

(** [/Cookie|Privacy|Terms|Subscribe|Follow|Share/gi] *)
Definition boilerplateWords : Regex :=
  RAlts (map RLitCI ["Cookie"; "Privacy"; "Terms"; "Subscribe"; "Follow"; "Share"]).

(** The cleaning at the end of [extractBlogContent]. *)
Definition cleanContent (content : string) : string :=
  trim (removeAll boilerplateWords
          (replaceAll tabRun " "
             (replaceAll newlineRun " "
                (replaceAll whiteSpaceRun " " content)))).

(** What is left of [s] after its longest prefix of characters of [p]. *)
Fixpoint skipClass (p : ascii -> bool) (s : string) : string :=
  match s with
  | EmptyString => EmptyString
  | String c s' => if p c then skipClass p s' else s
  end.

(** A character that is not white space, or the space itself. *)
Definition isInkOrSpace (c : ascii) : bool := negb (isWhiteSpace c) || Ascii.eqb c space.

(** No two spaces in a row. *)
Fixpoint noAdjacentSpaces (s : string) : bool :=
  match s with
  | String c ((String d _) as s') =>
      negb (Ascii.eqb c space && Ascii.eqb d space) && noAdjacentSpaces s'
  | _ => true
  end.

(** * Parts of linkgap.js that use regular expressions *)

(** ** [getLinkContext] *)

(** The [className] property of an element: a string on an HTML element, an
    [SVGAnimatedString] object on an SVG element. The selector [a[href]]
    of the walk also selects the anchors of an inline SVG, and an HTML link
    inside a [foreignObject] has SVG elements among its ancestors. *)
Inductive ClassName :=
| classString (value : string)
| classAnimated.

(** What the function reads of an element: its tag name, its [className],
    its id (empty when absent), its role attribute, and whether it is
    [document.body]. *)
Record Element := {
  tagName : string;
  className : ClassName;
  id : string;
  role : option string;
  isBody : bool
}.

(** A call either completes or throws the [TypeError] of calling
    [toLowerCase], which an [SVGAnimatedString] does not have. *)
Inductive Completion (A : Type) :=
| Normal (value : A)
| TypeError.
Arguments Normal {A} value.
Arguments TypeError {A}.

(** A letter, in either case: [[A-Z]] with the [i] flag. *)
Definition isLetter (c : ascii) : bool :=
  ((65 <=? charCode c) && (charCode c <=? 90)) || ((97 <=? charCode c) && (charCode c <=? 122)).

(** [[A-Z]]. *)
Definition isUpper (c : ascii) : bool := (65 <=? charCode c) && (charCode c <=? 90).

(** [/\/trade\/|\/tradeview\/|\/market\/|\/price\//i] *)
Definition tradingPath : Regex :=
  RAlts (map RLitCI ["/trade/"; "/tradeview/"; "/market/"; "/price/"]).

(** [/\/[A-Z]+-[A-Z]+/i] *)
Definition pairPath : Regex :=
  RSeqs [RChar "/"; RPlus (RClass isLetter); RChar "-"; RPlus (RClass isLetter)].

(** [r{2,5}]: two, and up to three more. *)
Definition RTwoToFive (r : Regex) : Regex :=
  RSeqs [r; r; ROpt (RSeq r (ROpt (RSeq r (ROpt r))))].

(** [/^[A-Z]{2,5}-[A-Z]{2,5}$/] *)
Definition pairText : Regex :=
  RSeqs [RBol; RTwoToFive (RClass isUpper); RChar "-"; RTwoToFive (RClass isUpper); REol].

Definition includesAny (s : string) (needles : list string) : bool :=
  existsb (includes s) needles.

Definition equalsAny (s : string) (values : list string) : bool :=
  existsb (String.eqb s) values.

(** [(element.className || '').toLowerCase()]: the object is truthy, so
    the call is made on it and throws. *)
Definition classNameLower (element : Element) : Completion string :=
  match className element with
  | classString value => Normal (toLowerCase value)
  | classAnimated => TypeError
  end.

(** The tests of one round, on an element and the lower-case class name
    the round has computed for it. *)
Section LinkContext.
Variable element : Element.
Variable className : string.

Definition tagNameLower : string := toLowerCase (tagName element).
Definition idLower : string := toLowerCase (id element).

(** Data/interface containers (treat as template). *)
Definition isDataContainer : bool :=
  includesAny className
    ["table"; "list"; "grid"; "market"; "trading"; "pairs"; "ticker"; "price"]
  || equalsAny tagNameLower ["table"; "tbody"; "tr"; "td"].

(** Template link indicators (navigation). *)
Definition isNavigationContainer : bool :=
  String.eqb tagNameLower "nav"
  || includesAny className ["nav"; "menu"; "breadcrumb"; "header"; "sidebar"; "widget"]
  || includesAny idLower ["nav"; "menu"; "header"].

(** Template link indicators (footer). *)
Definition isFooterContainer : bool :=
  String.eqb tagNameLower "footer" || includes className "footer"
  || includes idLower "footer".

(** Common template containers. *)
Definition isTemplateContainer : bool :=
  includesAny className ["template"; "global"; "sitewide"]
  || match role element with Some r => String.eqb r "navigation" | None => false end.

(** The verdict of one round of the first loop, if it returns. *)
Definition templateVerdict : option LinkContext :=
  if isDataContainer then Some ctxNavigation
  else if isNavigationContainer then Some ctxNavigation
  else if isFooterContainer then Some ctxFooter
  else if isTemplateContainer then Some ctxNavigation
  else None.

(** Strong indicators of actual written content. *)
Definition isWrittenContent : bool :=
  String.eqb tagNameLower "p"
  || (String.eqb tagNameLower "article" && includes className "content")
  || (String.eqb tagNameLower "div" && includes className "post")
  || includesAny className ["article-body"; "post-content"; "entry-content"].

End LinkContext.

(** The first loop: up to [rounds] elements of the chain that starts at the
    link and follows [parentElement], stopping at [document.body]. A round
    reads the class name before it tests anything. *)
Fixpoint templateLoop (rounds : nat) (chain : list Element)
    : Completion (option LinkContext) :=
  match rounds, chain with
  | S rounds', element :: parents =>
      if isBody element then Normal None
      else match classNameLower element with
           | TypeError => TypeError
           | Normal className =>
               match templateVerdict element className with
               | Some context => Normal (Some context)
               | None => templateLoop rounds' parents
               end
           end
  | _, _ => Normal None
  end.

(** The second loop, which does not stop at [document.body]. *)
Fixpoint contentLoop (rounds : nat) (chain : list Element) : Completion bool :=
  match rounds, chain with
  | S rounds', element :: parents =>
      match classNameLower element with
      | TypeError => TypeError
      | Normal className =>
          if isWrittenContent element className then Normal true
          else contentLoop rounds' parents
      end
  | _, _ => Normal false
  end.

(** [getLinkContext(link)], from the href of the link (empty when absent),
    its trimmed text, and the chain of elements from the link upwards. The
    two pattern tests come before any class name is read. *)
Definition getLinkContext (href linkText : string) (chain : list Element)
    : Completion LinkContext :=
  if test tradingPath href && test pairPath href then Normal ctxNavigation
  else if test pairText linkText then Normal ctxNavigation
  else match templateLoop 5 chain with
       | TypeError => TypeError
       | Normal (Some context) => Normal context
       | Normal None =>
           match contentLoop 3 chain with
           | TypeError => TypeError
           | Normal true => Normal ctxContextual
           | Normal false => Normal ctxNavigation
           end
       end.

(** The elements the first loop visits. *)
Fixpoint belowBody (chain : list Element) : list Element :=
  match chain with
  | [] => []
  | element :: parents => if isBody element then [] else element :: belowBody parents
  end.

(** An element the first loop passes over: its class name is a string and
    no template marker is found. *)
Definition passesTemplate (element : Element) : Prop :=
  exists className, classNameLower element = Normal className /\
                    templateVerdict element className = None.

(** An element the second loop passes over. *)
Definition passesContent (element : Element) : Prop :=
  exists className, classNameLower element = Normal className /\
                    isWrittenContent element className = false.

(** An element at which a round throws. *)
Definition throwsAt (element : Element) : Prop :=
  classNameLower element = TypeError.

(** [element] is the first of [visited] that does not satisfy [passes]. *)
Definition firstAfter (passes : Element -> Prop) (visited : list Element)
    (element : Element) : Prop :=
  exists before after, visited = before ++ element :: after /\ Forall passes before.


(** ** [categorizePageType] *)

(** [[^\/]]. *)
Definition notSlash (c : ascii) : bool := negb (Ascii.eqb c "/").

(** [/\/(w1|w2|...)\//i] *)
Definition pathSegment (names : list string) : Regex :=
  RSeqs [RChar "/"; RAlts (map RLitCI names); RChar "/"].

(** The homepage pattern between its anchors: http, an optional s, [:\/\/],
    a host [[^\/]+], an optional slash and an optional query, a question
    mark followed by anything. *)
Definition homepageBody : Regex :=
  RSeqs [RLit "http"; ROpt (RChar "s"); RLit "://"; RPlus (RClass notSlash);
         ROpt (RChar "/"); ROpt (RSeq (RChar "?") (RStar (RClass isDot)))].

(** [/\/(trade|trading)\/[A-Z]+-[A-Z]+/i] *)
Definition tradingPairPattern : Regex :=
  RSeqs [RChar "/"; RAlts (map RLitCI ["trade"; "trading"]); RChar "/";
         RPlus (RClass isLetter); RChar "-"; RPlus (RClass isLetter)].

Definition tradingGeneralPattern : Regex :=
  pathSegment ["trade"; "trading"; "exchange"; "buy"; "sell"].

(** The table of patterns, in the order the object lists them. *)
Definition patterns : list (string * Regex) :=
  [ ("homepage", RSeq RBol (RSeq homepageBody REol));
    ("trading-pair", tradingPairPattern);
    ("trading-general", tradingGeneralPattern);
    ("crypto-specific",
       pathSegment ["crypto"; "coin"; "bitcoin"; "ethereum"; "btc"; "eth"; "ada"; "sol"]);
    ("market-data", pathSegment ["market"; "price"; "chart"; "rates"; "ticker"]);
    ("portfolio", pathSegment ["portfolio"; "wallet"; "balance"; "holdings"]);
    ("learn-hub",
       pathSegment ["learn"; "education"; "academy"; "guide"; "tutorial"; "how-to"]);
    ("blog-article", pathSegment ["blog"; "news"; "article"; "post"; "insights"]);
    ("security-page", pathSegment ["security"; "safety"; "2fa"; "kyc"; "verification"]);
    ("fees-pricing", pathSegment ["fees"; "pricing"; "charges"; "cost"; "commission"]);
    ("api-developer", pathSegment ["api"; "developer"; "docs"; "documentation"]);
    ("support-help", pathSegment ["support"; "help"; "faq"; "contact"; "tickets"]);
    ("legal-compliance", pathSegment ["legal"; "terms"; "privacy"; "policy"; "compliance"]);
    ("about-company", pathSegment ["about"; "company"; "team"; "careers"]) ].

Fixpoint firstCategory (entries : list (string * Regex)) (urlLower titleLower : string)
  : string :=
  match entries with
  | [] => "other"
  | (category, pattern) :: entries' =>
      if test pattern urlLower || test pattern titleLower then category
      else firstCategory entries' urlLower titleLower
  end.

Definition categorizePageType (url title : string) : string :=
  let urlLower := toLowerCase url in
  let titleLower := toLowerCase title in
  firstCategory patterns urlLower titleLower.

(** The categories the function can answer. *)
Definition categories : list string := map fst patterns ++ ["other"].

(** ** Counting words *)

(** [s.split(regex)]: the pieces of [s] between the matches of the
    expression, found from left to right; [cur] is the piece being read. A
    match that is empty where the piece starts is passed over. *)
Fixpoint splitFrom (r : Regex) (total fuel : nat) (cur s : string) : list string :=
  match fuel with
  | O => [cur +:+ s]
  | S fuel' =>
      match s with
      | EmptyString => [cur]
      | String c s' =>
          let advance := splitFrom r total fuel' (cur +:+ String c EmptyString) s' in
          match rmatch r total s Some with
          | Some rest =>
              if Nat.eqb (String.length rest) (String.length s)
              then match cur with
                   | EmptyString => advance
                   | _ => cur :: splitFrom r total fuel' EmptyString s
                   end
              else cur :: splitFrom r total fuel' EmptyString rest
          | None => advance
          end
      end
  end.

Definition split (r : Regex) (s : string) : list string :=
  splitFrom r (String.length s) (2 * String.length s + 1) EmptyString s.

(** [\w]. *)
Definition isWordChar (c : ascii) : bool :=
  isDigit c || ((65 <=? charCode c) && (charCode c <=? 90))
  || ((97 <=? charCode c) && (charCode c <=? 122)) || (charCode c =? 95).

(** [/^\d+$/] and [/^[^\w\s]+$/]. *)
Definition digitsOnly : Regex := RSeqs [RBol; RPlus (RClass isDigit); REol].

Definition punctuationOnly : Regex :=
  RSeqs [RBol; RPlus (RClass (fun c => negb (isWordChar c || isWhiteSpace c))); REol].

(** The filter of [analyzeContentElement]. *)
Definition isMeaningfulWord (word : string) : bool :=
  (2 <? String.length word)%nat && negb (test digitsOnly word)
  && negb (test punctuationOnly word).

(** The word count of [analyzeContentElement], from the text of the cleaned
    clone. *)
Definition countMeaningfulWords (text : string) : Z :=
  Z.of_nat (length (List.filter isMeaningfulWord (split whiteSpaceRun (trim text)))).

(** The characters of the pieces, one more for each piece. *)
Definition piecesWeight (pieces : list string) : nat :=
  fold_right (fun piece acc => (S (String.length piece) + acc)%nat) 0%nat pieces.

(** * Further parts of semantic.js *)

Module SEMANTIC_CONFIG.
Definition SIMILARITY_THRESHOLD : float := 0.85.
Definition MIN_CONTENT_WORDS : Z := 100.
End SEMANTIC_CONFIG.

(** ** Reading a similarity *)

Inductive Relationship := DUPLICATE | HIGHLY_RELATED | RELATED | LOOSELY_RELATED.

Definition _classifyRelationship (similarity : float) : Relationship :=
  if (0.95 <? similarity)%float then DUPLICATE
  else if (0.85 <? similarity)%float then HIGHLY_RELATED
  else if (0.75 <? similarity)%float then RELATED
  else LOOSELY_RELATED.

Inductive Level := HIGH | MEDIUM | LOW.

(** The page type, the second argument, is not read. *)
Definition _assessLinkPotential (similarity : float) : Level :=
  if (0.8 <? similarity)%float then HIGH
  else if (0.6 <? similarity)%float then MEDIUM else LOW.

Definition _classifyConsistency (score : float) : Level :=
  if (0.8 <? score)%float then HIGH
  else if (0.6 <? score)%float then MEDIUM
  else LOW.

Definition _generateThemeRecommendations (score : float) : list string :=
  if (score <? 0.7)%float then
    ["Focus on core crypto topics"; "Improve content relevance"; "Add missing keywords"]
  else ["Content theme is well-aligned"].

(** The test of the loop of [_findSimilarPages]:
    [similarity >= this.config.SIMILARITY_THRESHOLD]. *)
Definition isSimilar (similarity : float) : bool :=
  (SEMANTIC_CONFIG.SIMILARITY_THRESHOLD <=? similarity)%float.

(** A double that is a zero or NaN. *)
Definition isZeroOrNaN (x : float) : bool :=
  match Prim2SF x with
  | S754_zero _ | S754_nan => true
  | _ => false
  end.

(** ** The semantic score *)

(** [Math.min] of two numbers. *)
Definition Math_min (x y : float) : float :=
  match Prim2SF x, Prim2SF y with
  | S754_nan, _ | _, S754_nan => nan
  | _, _ =>
      if (x <? y)%float then x
      else if (y <? x)%float then y
      else match Prim2SF x with S754_zero true => x | _ => y end
  end.

Inductive Grade := gradeAplus | gradeA | gradeB | gradeC | gradeD.

Definition _getSemanticGrade (score : float) : Grade :=
  if (90 <=? score)%float then gradeAplus
  else if (80 <=? score)%float then gradeA
  else if (70 <=? score)%float then gradeB
  else if (60 <=? score)%float then gradeC
  else gradeD.

Record Factors := {
  contentLength : float;
  themeAlignment : float;
  topicCoverage : float;
  linkPotential : float
}.

Record SemanticScore := {
  overallScore : float;
  breakdown : Factors;
  grade : Grade
}.

(** [_calculateSemanticScore(embedding, pageContent)]; the embedding is not
    read, and of the page content only the word count. The sum runs over the
    factors in the order the object lists them, starting from 0. *)
Definition _calculateSemanticScore (words : Z) : SemanticScore :=
  let factors :=
    {| contentLength := (Math_min (Z2F words / 1000) 1 * 25)%float;
       themeAlignment := (0.85 * 25)%float;
       topicCoverage := (0.9 * 25)%float;
       linkPotential := (0.8 * 25)%float |} in
  let totalScore :=
    fold_left (fun sum score => (sum + score)%float)
      [contentLength factors; themeAlignment factors; topicCoverage factors;
       linkPotential factors] 0%float in
  {| overallScore := Math_round totalScore;
     breakdown := factors;
     grade := _getSemanticGrade totalScore |}.

(** [_determineActionPriority(results)], as a function of the three values
    it reads; [missingTopics] may be absent, and the optional chain then
    gives undefined, which is not greater than 2. *)
Definition _determineActionPriority (semanticScore : SemanticScore)
    (totalSuggestions : Z) (missingTopics : option Z) : Level :=
  if (overallScore semanticScore <? 60)%float then HIGH
  else if 3 <? totalSuggestions then MEDIUM
  else if match missingTopics with Some n => 2 <? n | None => false end then MEDIUM
  else LOW.

(** What the bounded check of the score verifies for one word count. *)
Definition semanticScoreCheck (words : Z) : bool :=
  let s := _calculateSemanticScore words in
  match grade s, (if words <? 250 then gradeC else if words <? 650 then gradeB else gradeA) with
  | gradeA, gradeA | gradeB, gradeB | gradeC, gradeC => true
  | _, _ => false
  end &&
  match exactInteger (overallScore s) with
  | Some n => (64 <=? n) && (n <=? 89) && ((words <? 100) || (66 <=? n))
  | None => false
  end &&
  negb (overallScore s <? 60)%float.

Fixpoint checkFrom (check : Z -> bool) (start : Z) (count : nat) : bool :=
  match count with
  | O => true
  | S count' => check start && checkFrom check (start + 1) count'
  end.

(** ** [_cleanTextContent] *)

(** [_cleanTextContent], from the text of the cleaned clone:
    the clean text and its word count. *)
Definition _cleanTextContent (text : string) : string * Z :=
  let cleanText := trim (replaceAll whiteSpaceRun " " text) in
  let words :=
    Z.of_nat (length (List.filter (fun word => (2 <? String.length word)%nat)
                        (split whiteSpaceRun cleanText))) in
  (cleanText, words).

(** ** Clusters *)

Record ClusterPage := { pageUrl : string; pageSimilarity : float }.

Record Cluster := { topic : string; pages : list ClusterPage }.

(** The clusters [_findSemanticClusters] answers, whatever the embedding. *)
Definition _findSemanticClusters : list Cluster :=
  [ {| topic := "CRYPTO_TRADING";
       pages := [ {| pageUrl := "/trade"; pageSimilarity := 0.9 |};
                  {| pageUrl := "/fees"; pageSimilarity := 0.8 |} ] |} ].

Definition _findPageCluster (url : string) (clusters : list Cluster) : option Cluster :=
  List.find (fun cluster => existsb (fun page => String.eqb (pageUrl page) url) (pages cluster))
            clusters.

(** The fields of the clustering report that depend on the cluster found. *)
Record Clustering := {
  currentCluster : option Cluster;
  clusterSize : Z;
  clusterTopic : string;
  relatedPages : list ClusterPage;
  clusterAuthority : string
}.

Definition _performSemanticClustering (currentUrl : string) (clusters : list Cluster)
  : Clustering :=
  let currentCluster := _findPageCluster currentUrl clusters in
  {| currentCluster := currentCluster;
     clusterSize := match currentCluster with
                    | Some cluster => Z.of_nat (length (pages cluster))
                    | None => 0
                    end;
     clusterTopic := match currentCluster with
                     | Some cluster => topic cluster
                     | None => "UNCLUSTERED"
                     end;
     relatedPages := match currentCluster with
                     | Some cluster =>
                         List.filter (fun p => negb (String.eqb (pageUrl p) currentUrl))
                                     (pages cluster)
                     | None => []
                     end;
     clusterAuthority := match currentCluster with Some _ => "MEDIUM" | None => "N/A" end |}.

(** * Properties *)

(** ** The opportunity scorer *)

Lemma pageTypeWeights_bounds (k : string) (w : PageWeight) :
  pageTypeWeights !! k = Some w -> 0 <= weight w <= 20 /\ 2 <= minLinks w <= 5.
Proof.
  unfold pageTypeWeights. intros H.
  repeat (apply lookup_insert_Some in H as [[_ <-]|[_ H]]; [simpl; lia|]).
  by rewrite lookup_empty in H.
Qed.

Section ScoringFacts.
Variables (linkData : LinkData) (contentData : ContentData)
          (pageType : string) (urlDepth : Z).

Lemma gapStep_score a :
  opportunityScore a <= opportunityScore (gapStep linkData contentData a).
Proof.
  unfold gapStep.
  destruct (contextual linkData =? 0); [simpl; lia|].
  destruct (contextual linkData <? idealLinks contentData) eqn:E; [|lia].
  apply Z.ltb_lt in E. simpl. lia.
Qed.

Lemma lowDensityStep_score a :
  opportunityScore a <= opportunityScore (lowDensityStep linkData contentData a).
Proof. unfold lowDensityStep. destruct (_ <? _)%float; simpl; lia. Qed.

Lemma overLinkStep_score a :
  opportunityScore a <= opportunityScore (overLinkStep linkData contentData a).
Proof. unfold overLinkStep. destruct (_ <? _)%float; simpl; lia. Qed.

Lemma pageTypeStep_score a :
  opportunityScore a <= opportunityScore (pageTypeStep linkData pageType a).
Proof.
  unfold pageTypeStep.
  destruct (pageTypeWeights !! pageType) as [w|] eqn:E; [|lia].
  apply pageTypeWeights_bounds in E.
  destruct (_ <? _); simpl; lia.
Qed.

Lemma duplicateStep_score a :
  opportunityScore a <= opportunityScore (duplicateStep linkData a).
Proof. unfold duplicateStep. destruct duplicateLinkIssue; simpl; lia. Qed.

Lemma depthStep_score a :
  opportunityScore a <= opportunityScore (depthStep urlDepth a).
Proof.
  unfold depthStep. destruct (3 <? urlDepth) eqn:E; [|lia].
  apply Z.ltb_lt in E. simpl. lia.
Qed.

End ScoringFacts.

(** C1. Whatever the link data, the content data, the page category and the
    URL depth are, the score returned by [calculateContextualOpportunity] lies
    between 0 and 100. *)
Theorem score_bounds (linkData : LinkData) (contentData : ContentData)
    (pageType : string) (urlDepth : Z) :
  0 <= score (calculateContextualOpportunity linkData contentData pageType urlDepth)
    <= 100.
Proof.
  unfold calculateContextualOpportunity.
  destruct (words contentData <? 10); [simpl; lia|].
  destruct (words contentData <? CONFIG.MIN_WORDS_FOR_LINKS); [simpl; lia|].
  cbv zeta. cbn [score].
  match goal with |- context [gapStep _ _ ?a0] => set (a := a0) end.
  pose proof (gapStep_score linkData contentData a) as H1.
  pose proof (lowDensityStep_score linkData contentData (gapStep linkData contentData a)) as H2.
  pose proof (overLinkStep_score linkData contentData
                (lowDensityStep linkData contentData (gapStep linkData contentData a))) as H3.
  pose proof (pageTypeStep_score linkData pageType
                (overLinkStep linkData contentData
                   (lowDensityStep linkData contentData (gapStep linkData contentData a)))) as H4.
  pose proof (duplicateStep_score linkData
                (pageTypeStep linkData pageType
                   (overLinkStep linkData contentData
                      (lowDensityStep linkData contentData (gapStep linkData contentData a))))) as H5.
  pose proof (depthStep_score urlDepth
                (duplicateStep linkData
                   (pageTypeStep linkData pageType
                      (overLinkStep linkData contentData
                         (lowDensityStep linkData contentData
                            (gapStep linkData contentData a)))))) as H6.
  change (opportunityScore a) with 0 in H1.
  lia.
Qed.

(** A double cannot be both below the minimum density and above the maximum
    density. *)
Lemma density_exclusive (d : float) :
  (d <? CONFIG.MIN_CONTEXTUAL_DENSITY)%float = true ->
  (CONFIG.MAX_CONTEXTUAL_DENSITY <? d)%float = false.
Proof.
  rewrite !ltb_spec.
  change (Prim2SF CONFIG.MIN_CONTEXTUAL_DENSITY)
    with (S754_finite false 7205759403792794 (-53)).
  change (Prim2SF CONFIG.MAX_CONTEXTUAL_DENSITY)
    with (S754_finite false 6755399441055744 (-51)).
  unfold SFltb, SFcompare.
  destruct (Prim2SF d) as [s|s| |s m e]; try destruct s; try discriminate; try reflexivity.
  destruct (Z.compare_spec e (-53)), (Z.compare_spec (-51) e);
    try discriminate; try reflexivity; try lia.
Qed.

(** C2. When the content has fewer than 10 words the result is the fixed
    score 90 with severity critical, whatever the link data, the category and
    the depth are. *)
Theorem broken_page_fixed_score (linkData : LinkData) (contentData : ContentData)
    (pageType : string) (urlDepth : Z) :
  words contentData < 10 ->
  let r := calculateContextualOpportunity linkData contentData pageType urlDepth in
  score r = 90 /\ severity (gapAnalysis r) = critical.
Proof.
  intros H. unfold calculateContextualOpportunity.
  apply Z.ltb_lt in H. rewrite H. split; reflexivity.
Qed.

Lemma broken_page_fixed_score_witness :
  words (contentOf 5 0 1) < 10 /\
  score (calculateContextualOpportunity
           (linksTo 7 ["/a"; "/b"]) (contentOf 5 0 1) "homepage" 6) = 90 /\
  severity (gapAnalysis (calculateContextualOpportunity
           (linksTo 7 ["/a"; "/b"]) (contentOf 5 0 1) "homepage" 6)) = critical.
Proof.
  split; [reflexivity|].
  apply (broken_page_fixed_score (linksTo 7 ["/a"; "/b"]) (contentOf 5 0 1) "homepage" 6).
  reflexivity.
Defined.

(** Case analysis on the tests of the factors other than density. *)
Ltac factor_cases linkData contentData pageType urlDepth :=
  let w := fresh "w" in
  destruct (contextual linkData =? 0),
    (contextual linkData <? idealLinks contentData),
    (pageTypeWeights !! pageType) as [w|],
    (duplicateLinkIssue linkData),
    (3 <? urlDepth);
  try destruct (contextual linkData <? minLinks w).

(** What the two density factors can contribute together: nothing, the low
    bonus alone, or the high bonus alone. *)
Lemma density_bonus_cases (linkData : LinkData) (contentData : ContentData)
    (pageType : string) (urlDepth : Z) :
  let r := calculateContextualOpportunity linkData contentData pageType urlDepth in
  (lowDensityBonus r = false /\ highDensityBonus r = false /\ densityPoints r = 0) \/
  (lowDensityBonus r = true /\ highDensityBonus r = false /\ densityPoints r = 15) \/
  (lowDensityBonus r = false /\ highDensityBonus r = true /\ densityPoints r = 20).
Proof.
  unfold calculateContextualOpportunity.
  destruct (words contentData <? 10); [left; repeat split|].
  destruct (words contentData <? CONFIG.MIN_WORDS_FOR_LINKS); [left; repeat split|].
  unfold lowDensityBonus, highDensityBonus, densityPoints.
  cbv zeta. cbn [scoreBreakdown].
  unfold depthStep, duplicateStep, pageTypeStep, overLinkStep, lowDensityStep, gapStep.
  destruct (contextualDensity linkData contentData <? CONFIG.MIN_CONTEXTUAL_DENSITY)%float eqn:L.
  - rewrite (density_exclusive _ L). right; left.
    factor_cases linkData contentData pageType urlDepth; repeat split.
  - destruct (CONFIG.MAX_CONTEXTUAL_DENSITY <? contextualDensity linkData contentData)%float;
      [right; right | left];
      factor_cases linkData contentData pageType urlDepth; repeat split.
Qed.

(** Each of the two bonuses does fire on its own: one link in 400 words is
    below 0.8%, twenty links in 100 words are above 3%. *)
Example low_density_fires :
  let r := calculateContextualOpportunity
             (linksTo 1 ["/a"]) (contentOf 400 3 5) "other" 1 in
  lowDensityBonus r = true /\ highDensityBonus r = false /\ score r = 39.
Proof. vm_compute. repeat split. Qed.

Example over_linking_fires :
  let r := calculateContextualOpportunity
             (linksTo 20 ["/a"; "/b"; "/c"]) (contentOf 100 3 5) "other" 1 in
  lowDensityBonus r = false /\ highDensityBonus r = true /\ score r = 35.
Proof. vm_compute. repeat split. Qed.

(** C3, as stated, fails: no input receives both the low-density and the
    high-density bonus. *)
Lemma both_density_bonuses_never_apply :
  ~ exists (linkData : LinkData) (contentData : ContentData)
           (pageType : string) (urlDepth : Z),
      lowDensityBonus
        (calculateContextualOpportunity linkData contentData pageType urlDepth) = true /\
      highDensityBonus
        (calculateContextualOpportunity linkData contentData pageType urlDepth) = true.
Proof.
  intros (linkData & contentData & pageType & urlDepth & Hlow & Hhigh).
  destruct (density_bonus_cases linkData contentData pageType urlDepth)
    as [(H & _) | [(_ & H & _) | (H & _)]]; congruence.
Qed.

(** C3, amended. In every score computation at most one of the two density
    bonuses is added: the density factors contribute 0, 15 or 20 points, never
    35. *)
Theorem density_bonuses_exclusive (linkData : LinkData) (contentData : ContentData)
    (pageType : string) (urlDepth : Z) :
  let r := calculateContextualOpportunity linkData contentData pageType urlDepth in
  (lowDensityBonus r && highDensityBonus r) = false /\
  (densityPoints r = 0 \/ densityPoints r = 15 \/ densityPoints r = 20).
Proof.
  intros r.
  destruct (density_bonus_cases linkData contentData pageType urlDepth)
    as [(H1 & H2 & H3) | [(H1 & H2 & H3) | (H1 & H2 & H3)]];
    fold r in H1, H2, H3; rewrite H1, H2, H3; auto.
Qed.

(** What [recommendedLinks] is on each of the three paths. *)
Lemma recommendedLinks_cases (linkData : LinkData) (contentData : ContentData)
    (pageType : string) (urlDepth : Z) :
  recommendedLinks
    (gapAnalysis (calculateContextualOpportunity linkData contentData pageType urlDepth))
  = if words contentData <? CONFIG.MIN_WORDS_FOR_LINKS then 0
    else idealLinks contentData.
Proof.
  unfold calculateContextualOpportunity.
  destruct (words contentData <? 10) eqn:E10.
  - apply Z.ltb_lt in E10.
    assert ((words contentData <? CONFIG.MIN_WORDS_FOR_LINKS) = true) as ->
      by (apply Z.ltb_lt; unfold CONFIG.MIN_WORDS_FOR_LINKS; lia).
    reflexivity.
  - destruct (words contentData <? CONFIG.MIN_WORDS_FOR_LINKS); [reflexivity|].
    cbv zeta. cbn [gapAnalysis].
    unfold depthStep, duplicateStep, pageTypeStep, overLinkStep, lowDensityStep, gapStep.
    destruct (_ <? CONFIG.MIN_CONTEXTUAL_DENSITY)%float,
      (CONFIG.MAX_CONTEXTUAL_DENSITY <? _)%float;
      factor_cases linkData contentData pageType urlDepth; reflexivity.
Qed.

(** C4, as stated, fails: on a page of 5 words, and on one of 30 words, the
    early exit returns the initial [recommendedLinks], which is 0. *)
Lemma recommendedLinks_zero_on_early_exit :
  recommendedLinks
    (gapAnalysis (calculateContextualOpportunity
                    (linksTo 0 []) (contentOf 5 0 1) "blog-article" 2)) = 0 /\
  ~ 1 <= recommendedLinks
           (gapAnalysis (calculateContextualOpportunity
                           (linksTo 0 []) (contentOf 5 0 1) "blog-article" 2)) /\
  recommendedLinks
    (gapAnalysis (calculateContextualOpportunity
                    (linksTo 2 ["/a"; "/b"]) (contentOf 30 1 2) "blog-article" 2)) = 0.
Proof.
  split; [reflexivity|]. split; [|reflexivity].
  change (~ 1 <= 0). lia.
Qed.

(** C4, amended. When the content has at least 50 words, [recommendedLinks]
    is [max(1, floor(words / 100))], an integer that is at least 1; on the two
    early exits (fewer than 50 words) it is 0. *)
Theorem recommendedLinks_value (linkData : LinkData) (contentData : ContentData)
    (pageType : string) (urlDepth : Z) :
  let r := calculateContextualOpportunity linkData contentData pageType urlDepth in
  (if words contentData <? 50
   then recommendedLinks (gapAnalysis r) = 0
   else recommendedLinks (gapAnalysis r) = Z.max 1 (words contentData / 100) /\
        1 <= recommendedLinks (gapAnalysis r)).
Proof.
  intros r. unfold r. rewrite recommendedLinks_cases.
  change CONFIG.MIN_WORDS_FOR_LINKS with 50.
  destruct (words contentData <? 50); [reflexivity|].
  unfold idealLinks. change CONFIG.CONTEXTUAL_LINK_TARGET with 100. lia.
Qed.

(** ** Content quality *)

(** C8. With the heading and paragraph counts fixed, the quality label is
    monotone in the word count, promotion and demotion rules included. *)
Theorem quality_monotone (w1 w2 headings paragraphs : Z) :
  w1 < w2 ->
  qualityRank (classifyQuality w1 headings paragraphs)
    <= qualityRank (classifyQuality w2 headings paragraphs).
Proof.
  intros H. unfold classifyQuality.
  change CONFIG.THIN_CONTENT_THRESHOLD with 300.
  change CONFIG.MEDIUM_CONTENT_THRESHOLD with 800.
  destruct (Z.ltb_spec w1 300), (Z.ltb_spec w2 300),
    (Z.ltb_spec w1 800), (Z.ltb_spec w2 800); try lia;
    destruct (3 <=? headings) eqn:Hh, (4 <=? paragraphs), (Z.ltb_spec headings 2);
    simpl; try lia;
    apply Z.leb_le in Hh; lia.
Qed.

Lemma quality_monotone_witness :
  799 < 800 /\
  qualityRank (classifyQuality 799 2 9) <= qualityRank (classifyQuality 800 2 9).
Proof.
  split; [reflexivity|].
  apply (quality_monotone 799 800 2 9). reflexivity.
Defined.

(** The promotion and the demotion rule, each on its own. *)
Example quality_promotion : classifyQuality 300 3 4 = high /\ classifyQuality 300 3 3 = medium.
Proof. split; reflexivity. Qed.

Example quality_demotion : classifyQuality 800 1 9 = medium /\ classifyQuality 800 2 9 = high.
Proof. split; reflexivity. Qed.

(** ** Link diversity *)

Lemma diversityCheck_200 : diversityCheckUpTo 200 = true.
Proof. vm_compute. reflexivity. Qed.

Lemma diversityCheck_holds (u c : Z) :
  1 <= c <= 200 -> 0 <= u <= c -> diversityCheck u c = true.
Proof.
  intros Hc Hu.
  pose proof diversityCheck_200 as H. unfold diversityCheckUpTo in H.
  rewrite forallb_forall in H.
  specialize (H (Z.to_nat c)).
  rewrite forallb_forall in H.
  specialize (H ltac:(apply in_seq; lia) (Z.to_nat u) ltac:(apply in_seq; lia)).
  by rewrite !Z2Nat.id in H by lia.
Qed.

(** ** Rounding of doubles *)

Lemma digits2_pos_size (p : positive) : digits2_pos p = Pos.size p.
Proof. induction p as [p IH|p IH|]; cbn; by rewrite ?IH. Qed.

Lemma Zdigits2_log2 (z : Z) : 0 < z -> Zdigits2 z = Z.log2 z + 1.
Proof.
  destruct z as [|p|p]; try lia. intros _. cbn [Zdigits2].
  rewrite digits2_pos_size. destruct p; cbn; lia.
Qed.

(** The number of binary digits of a positive integer. *)
Lemma Zdigits2_unique (z d : Z) :
  0 < d -> 2 ^ (d - 1) <= z < 2 ^ d -> Zdigits2 z = d.
Proof.
  intros Hd Hz.
  assert (0 < z) by (pose proof (Z.pow_pos_nonneg 2 (d - 1)); lia).
  rewrite Zdigits2_log2 by done.
  assert (Z.log2 z = d - 1) as ->; [|lia].
  apply Z.log2_unique; [lia|]. by replace (Z.succ (d - 1)) with d by lia.
Qed.

Lemma Zdigits2_bounds (z : Z) :
  0 < z -> 0 < Zdigits2 z /\ 2 ^ (Zdigits2 z - 1) <= z < 2 ^ Zdigits2 z.
Proof.
  intros Hz. rewrite Zdigits2_log2 by done.
  pose proof (Z.log2_nonneg z). pose proof (Z.log2_spec z Hz).
  replace (Z.log2 z + 1 - 1) with (Z.log2 z) by lia.
  replace (Z.log2 z + 1) with (Z.succ (Z.log2 z)) by lia. lia.
Qed.

(** One right shift of a non-negative mantissa. *)
Lemma shr_1_nonneg (m : Z) (r s : bool) :
  0 <= m ->
  shr_1 {| shr_m := m; shr_r := r; shr_s := s |}
  = {| shr_m := m / 2; shr_r := Z.odd m; shr_s := r || s |}.
Proof.
  intros Hm. destruct m as [|p|p]; [done| |lia].
  destruct p as [p|p|]; cbn [shr_1 Z.odd].
  - f_equal. rewrite Pos2Z.inj_xI. apply (Z.div_unique _ _ _ 1); lia.
  - f_equal. rewrite Pos2Z.inj_xO. apply (Z.div_unique _ _ _ 0); lia.
  - done.
Qed.

Lemma shiftedBy_start (N D : Z) :
  0 <= N -> 0 < D ->
  shiftedBy N D 0 (shr_record_of_loc (N / D) (locationOf D (N mod D))).
Proof.
  intros HN HD. unfold shiftedBy, locationOf.
  change (2 ^ Z.of_nat 0) with 1. rewrite Z.mul_1_r.
  pose proof (Z.mod_pos_bound N D HD) as Hr.
  destruct (Z.eqb_spec (N mod D) 0) as [E|E].
  - cbn. rewrite E. split; [done|]. split; [|done]. symmetry. apply Z.leb_gt. lia.
  - destruct (Z.compare_spec (2 * (N mod D)) D) as [C|C|C]; cbn.
    + split; [done|]. split; [symmetry; apply Z.leb_le; lia|].
      symmetry. rewrite C, Z.eqb_refl. done.
    + split; [done|]. split; [symmetry; apply Z.leb_gt; lia|].
      symmetry. apply negb_true_iff, Z.eqb_neq. lia.
    + split; [done|]. split; [symmetry; apply Z.leb_le; lia|].
      symmetry. apply negb_true_iff, Z.eqb_neq. lia.
Qed.

Lemma shiftedBy_step (N D : Z) (k : nat) (mrs : shr_record) :
  0 <= N -> 0 < D -> shiftedBy N D k mrs -> shiftedBy N D (S k) (shr_1 mrs).
Proof.
  intros HN HD. unfold shiftedBy. cbv zeta.
  rewrite Nat2Z.inj_succ, Z.pow_succ_r by lia.
  set (Dk := D * 2 ^ Z.of_nat k).
  assert (0 < Dk) as HDk by (pose proof (Z.pow_pos_nonneg 2 (Z.of_nat k)); nia).
  replace (D * (2 * 2 ^ Z.of_nat k)) with (Dk * 2) by (unfold Dk; lia).
  destruct mrs as [m r s]. cbn [shr_m shr_r shr_s]. intros (Hm & Hr & Hs).
  assert (0 <= m) as Hm0 by (rewrite Hm; apply Z.div_pos; lia).
  rewrite (shr_1_nonneg m r s Hm0). cbn [shr_m shr_r shr_s].
  pose proof (Z.mod_pos_bound N Dk HDk) as Hrem.
  assert (N mod (Dk * 2) = N mod Dk + Dk * (m mod 2)) as Hmod.
  { rewrite Z.rem_mul_r by lia. by rewrite Hm. }
  pose proof (Z.mod_pos_bound m 2 ltac:(lia)) as Hb.
  rewrite Hmod. split; [|split].
  - rewrite Hm. by rewrite Z.div_div by lia.
  - rewrite (Zmod_odd m). destruct (Z.odd m); symmetry.
    + apply Z.leb_le. lia.
    + apply Z.leb_gt. lia.
  - rewrite Hr, Hs.
    destruct (Z.eqb_spec (N mod Dk) 0) as [E0|E0].
    + rewrite E0. cbn [negb andb orb].
      replace (Dk <=? 2 * 0) with false by (symmetry; apply Z.leb_gt; lia).
      cbn [orb]. symmetry.
      assert (m mod 2 = 0 \/ m mod 2 = 1) as [->| ->] by lia.
      * by rewrite Z.mul_0_r.
      * replace (2 * (0 + Dk * 1)) with (Dk * 2) by lia. by rewrite Z.eqb_refl, andb_false_r.
    + cbn [negb andb].
      transitivity true.
      * destruct (Z.leb_spec Dk (2 * (N mod Dk))); [done|].
        cbn. apply negb_true_iff, Z.eqb_neq. lia.
      * symmetry.
        assert (m mod 2 = 0 \/ m mod 2 = 1) as [->| ->] by lia;
          apply andb_true_iff; split; apply negb_true_iff, Z.eqb_neq; lia.
Qed.

Lemma iter_pos_invariant {A : Type} (f : A -> A) (Inv : nat -> A -> Prop) :
  (forall k x, Inv k x -> Inv (S k) (f x)) ->
  forall p k x, Inv k x -> Inv (k + Pos.to_nat p)%nat (SpecFloat.iter_pos f p x).
Proof.
  intros Hstep. induction p as [p IH|p IH|]; intros k x Hx; cbn [SpecFloat.iter_pos].
  - replace (k + Pos.to_nat p~1)%nat with (S k + Pos.to_nat p + Pos.to_nat p)%nat by lia.
    by apply IH, IH, Hstep.
  - replace (k + Pos.to_nat p~0)%nat with (k + Pos.to_nat p + Pos.to_nat p)%nat by lia.
    by apply IH, IH.
  - replace (k + Pos.to_nat 1)%nat with (S k) by lia. by apply Hstep.
Qed.

(** [shr] by [n] bits. *)
Lemma shr_shiftedBy (N D e n : Z) :
  0 <= N -> 0 < D -> 0 <= n ->
  exists mrs, shr (shr_record_of_loc (N / D) (locationOf D (N mod D))) e n = (mrs, e + n) /\
              shiftedBy N D (Z.to_nat n) mrs.
Proof.
  intros HN HD Hn. pose proof (shiftedBy_start N D HN HD) as H0.
  destruct n as [|p|p]; [| |lia].
  - eexists. split; [cbn [shr]; by rewrite Z.add_0_r | exact H0].
  - eexists. split; [reflexivity|].
    change (Z.to_nat (Z.pos p)) with (0 + Pos.to_nat p)%nat.
    apply (iter_pos_invariant shr_1 (shiftedBy N D) ltac:(intros k x; by apply shiftedBy_step) p 0%nat _ H0).
Qed.

(** Rounding to nearest after the shifts: the mantissa is the quotient or
    the next integer, at most half a unit from the exact value. *)
Lemma round_nearest_even_shifted (N D : Z) (k : nat) (mrs : shr_record) :
  0 <= N -> 0 < D -> shiftedBy N D k mrs ->
  let Dk := D * 2 ^ Z.of_nat k in
  let m1 := round_nearest_even (shr_m mrs) (loc_of_shr_record mrs) in
  N / Dk <= m1 <= N / Dk + 1 /\ 2 * Z.abs (m1 * Dk - N) <= Dk.
Proof.
  intros HN HD. unfold shiftedBy. cbv zeta.
  set (Dk := D * 2 ^ Z.of_nat k).
  assert (0 < Dk) as HDk by (pose proof (Z.pow_pos_nonneg 2 (Z.of_nat k)); nia).
  pose proof (Z.mod_pos_bound N Dk HDk) as Hrem.
  pose proof (Z.div_mod N Dk ltac:(lia)) as Hdiv.
  destruct mrs as [m r s]. cbn [shr_m shr_r shr_s]. intros (Hm & Hr & Hs).
  rewrite <- Hm in *. clear Hm.
  set (rem := N mod Dk) in *.
  assert (m * Dk - N = - rem) as E0 by lia.
  assert ((m + 1) * Dk - N = Dk - rem) as E1 by lia.
  destruct r, s; cbn [loc_of_shr_record round_nearest_even].
  - symmetry in Hr. apply Z.leb_le in Hr. rewrite E1. lia.
  - symmetry in Hr, Hs. apply Z.leb_le in Hr.
    apply andb_false_iff in Hs as [Hs|Hs]; apply negb_false_iff, Z.eqb_eq in Hs;
      destruct (Z.even m); rewrite ?E0, ?E1; lia.
  - symmetry in Hr. apply Z.leb_gt in Hr. rewrite E0. lia.
  - symmetry in Hr, Hs. apply Z.leb_gt in Hr.
    apply andb_false_iff in Hs as [Hs|Hs]; apply negb_false_iff, Z.eqb_eq in Hs;
      rewrite E0; lia.
Qed.

Lemma fexp_normal (x : Z) : -1021 <= x -> fexp prec emax x = x - 53.
Proof. unfold fexp, emin, prec, emax. lia. Qed.

(** [binary_round_aux] on a quotient [N / D] of at least 53 bits, with the
    location of its remainder: the result is a normal number whose mantissa
    is at most half a unit from the exact value, at the exponent it has. *)
Lemma binary_round_aux_quotient (N D e0 : Z) :
  0 < D -> 2 ^ 52 * D <= N -> -1074 <= e0 -> e0 + Zdigits2 (N / D) <= 1023 ->
  exists (M : positive) (j : Z),
    binary_round_aux prec emax false (N / D) e0 (locationOf D (N mod D))
    = S754_finite false M (e0 + j) /\
    0 <= j <= Zdigits2 (N / D) - 52 /\ 2 ^ 52 <= Z.pos M < 2 ^ 53 /\
    2 * Z.abs (Z.pos M * (D * 2 ^ j) - N) <= D * 2 ^ j.
Proof.
  intros HD HN He0 Hemax.
  assert (0 <= N) as HN0 by nia.
  assert (2 ^ 52 <= N / D) as Hmx by (apply Z.div_le_lower_bound; lia).
  set (mx := N / D) in *. set (d := Zdigits2 mx) in *.
  destruct (Zdigits2_bounds mx ltac:(lia)) as [Hd0 Hd]. fold d in Hd0, Hd.
  assert (53 <= d) as Hd53.
  { destruct (Z.le_gt_cases 53 d) as [|Hlt]; [done|]. exfalso.
    assert (2 ^ d <= 2 ^ 52) by (apply Z.pow_le_mono_r; lia). lia. }
  set (n := d - 53).
  unfold binary_round_aux, shr_fexp. fold d.
  rewrite fexp_normal by lia.
  replace (d + e0 - 53 - e0) with n by (unfold n; lia).
  destruct (shr_shiftedBy N D e0 n HN0 HD ltac:(unfold n; lia)) as (mrs & Hshr & Hinv).
  fold mx in Hshr. rewrite Hshr. clear Hshr.
  pose proof (round_nearest_even_shifted N D _ mrs HN0 HD Hinv) as Hround.
  cbv zeta in Hround. rewrite Z2Nat.id in Hround by (unfold n; lia).
  set (m1 := round_nearest_even (shr_m mrs) (loc_of_shr_record mrs)) in *.
  assert (0 < 2 ^ n) as Hpn by (apply Z.pow_pos_nonneg; unfold n; lia).
  assert (2 ^ (d - 1) = 2 ^ 52 * 2 ^ n) as Hlow
    by (rewrite <- Z.pow_add_r by (unfold n; lia); f_equal; unfold n; lia).
  assert (2 ^ d = 2 ^ 53 * 2 ^ n) as Hhigh
    by (rewrite <- Z.pow_add_r by (unfold n; lia); f_equal; unfold n; lia).
  assert (2 ^ 52 <= N / (D * 2 ^ n) < 2 ^ 53) as Hm'.
  { rewrite <- Z.div_div by lia. fold mx. split.
    - apply Z.div_le_lower_bound; lia.
    - apply Z.div_lt_upper_bound; lia. }
  destruct Hround as [Hm1 Herr].
  destruct (Z.eq_dec m1 (2 ^ 53)) as [Hc|Hc].
  - (* the rounding carries into a 54th bit *)
    rewrite Hc. rewrite (Zdigits2_unique (2 ^ 53) 54) by lia.
    rewrite fexp_normal by (unfold n; lia).
    replace (54 + (e0 + n) - 53 - (e0 + n)) with 1 by lia.
    cbn [shr SpecFloat.iter_pos shr_record_of_loc].
    rewrite shr_1_nonneg by lia. cbn [shr_m].
    change (2 ^ 53 / 2) with (Z.pos (2 ^ 52)%positive).
    replace (e0 + n + 1 <=? emax - prec) with true
      by (symmetry; apply Z.leb_le; unfold emax, prec, n; lia).
    exists (2 ^ 52)%positive, (n + 1). split; [by rewrite Z.add_assoc|].
    split; [unfold n; lia|]. split; [lia|].
    rewrite Z.pow_add_r by (unfold n; lia). change (2 ^ 1) with 2.
    change (Z.pos (2 ^ 52)) with (2 ^ 52). rewrite Hc in Herr.
    replace (2 ^ 52 * (D * (2 ^ n * 2)) - N) with (2 ^ 53 * (D * 2 ^ n) - N) by lia.
    nia.
  - rewrite (Zdigits2_unique m1 53) by lia.
    rewrite fexp_normal by (unfold n; lia).
    replace (53 + (e0 + n) - 53 - (e0 + n)) with 0 by lia.
    cbn [shr shr_record_of_loc shr_m].
    destruct m1 as [|M|M] eqn:EM; [lia| |lia].
    replace (e0 + n <=? emax - prec) with true
      by (symmetry; apply Z.leb_le; unfold emax, prec, n; lia).
    exists M, n. split; [done|]. split; [unfold n; lia|]. split; [lia|]. exact Herr.
Qed.

Lemma binary_round_aux_exact (m : positive) (e : Z) :
  2 ^ 52 <= Z.pos m < 2 ^ 53 -> -1074 <= e <= 971 ->
  binary_round_aux prec emax false (Z.pos m) e loc_Exact = S754_finite false m e.
Proof.
  intros Hm He. unfold binary_round_aux, shr_fexp.
  rewrite (Zdigits2_unique (Z.pos m) 53) by lia.
  rewrite fexp_normal by lia.
  replace (53 + e - 53 - e) with 0 by lia.
  cbn [shr shr_record_of_loc shr_m loc_of_shr_record round_nearest_even].
  rewrite (Zdigits2_unique (Z.pos m) 53) by lia.
  rewrite fexp_normal by lia.
  replace (53 + e - 53 - e) with 0 by lia.
  cbn [shr shr_record_of_loc shr_m].
  by replace (e <=? emax - prec) with true
    by (symmetry; apply Z.leb_le; unfold emax, prec; lia).
Qed.

Lemma iter_xO (p d : positive) : Z.pos (Pos.iter xO p d) = Z.pos p * 2 ^ Z.pos d.
Proof.
  induction d as [|d IH] using Pos.peano_ind.
  - cbn [Pos.iter]. lia.
  - rewrite Pos.iter_succ, Pos2Z.inj_xO, IH, Pos2Z.inj_succ, Z.pow_succ_r by lia. lia.
Qed.

Lemma normal_valid (m : positive) (e : Z) :
  2 ^ 52 <= Z.pos m < 2 ^ 53 -> -1074 <= e <= 971 ->
  valid_binary (S754_finite false m e) = true.
Proof.
  intros Hm He. cbn. unfold bounded, canonical_mantissa.
  change (Z.pos (digits2_pos m)) with (Zdigits2 (Z.pos m)).
  rewrite (Zdigits2_unique (Z.pos m) 53) by lia.
  rewrite fexp_normal by lia. apply andb_true_iff. split.
  - apply Z.eqb_eq. lia.
  - apply Z.leb_le. unfold emax, prec. lia.
Qed.

(** A positive count below 2^53 is a double, exactly: a mantissa of 53 bits
    and the exponent that scales it back. *)
Lemma Z2F_exact (z : Z) :
  0 < z < 2 ^ 53 ->
  exists (m : positive) (s : Z),
    Prim2SF (Z2F z) = S754_finite false m (- s) /\
    0 <= s <= 52 /\ Z.pos m = z * 2 ^ s /\ 2 ^ 52 <= Z.pos m < 2 ^ 53.
Proof.
  intros Hz. destruct z as [|p|p]; [lia| |lia].
  destruct (Zdigits2_bounds (Z.pos p) ltac:(lia)) as [Hd0 Hd].
  set (d := Zdigits2 (Z.pos p)) in *.
  assert (d <= 53) as Hd53.
  { destruct (Z.le_gt_cases d 53) as [|Hlt]; [done|]. exfalso.
    assert (2 ^ 53 <= 2 ^ (d - 1)) by (apply Z.pow_le_mono_r; lia). lia. }
  set (s := 53 - d).
  assert (2 ^ 52 <= Z.pos p * 2 ^ s < 2 ^ 53) as Hm.
  { assert (2 ^ 52 = 2 ^ (d - 1) * 2 ^ s) as ->
      by (rewrite <- Z.pow_add_r by (unfold s; lia); f_equal; unfold s; lia).
    assert (2 ^ 53 = 2 ^ d * 2 ^ s) as ->
      by (rewrite <- Z.pow_add_r by (unfold s; lia); f_equal; unfold s; lia).
    assert (0 < 2 ^ s) by (apply Z.pow_pos_nonneg; unfold s; lia). nia. }
  assert (exists m, binary_normalize prec emax (Z.pos p) 0 false = S754_finite false m (- s) /\
                    Z.pos m = Z.pos p * 2 ^ s) as (m & E & Em).
  { cbn [binary_normalize]. unfold binary_round.
    change (Z.pos (digits2_pos p)) with d. rewrite Z.add_0_r.
    rewrite fexp_normal by lia. unfold shl_align. rewrite Z.sub_0_r.
    destruct (d - 53) as [|q|q] eqn:Ed; [|lia|].
    - exists p. assert (s = 0) as Es by (unfold s; lia). rewrite Es in *.
      change (2 ^ 0) with 1 in *. rewrite Z.mul_1_r in *.
      split; [|done]. by apply binary_round_aux_exact.
    - assert (s = Z.pos q) as Es by (unfold s; lia).
      assert (Z.pos (Pos.iter xO p q) = Z.pos p * 2 ^ s) as Ei by (by rewrite iter_xO, Es).
      exists (Pos.iter xO p q). split; [|done].
      replace (Z.neg q) with (- s) by lia.
      apply binary_round_aux_exact; [by rewrite Ei | unfold s; lia]. }
  exists m, s. unfold Z2F. rewrite E.
  rewrite Prim2SF_SF2Prim by (apply normal_valid; [lia | unfold s; lia]).
  split; [done|]. split; [unfold s; lia|]. split; [done | lia].
Qed.

Lemma new_location_locationOf (D rem : Z) :
  0 <= rem < D -> new_location D rem = locationOf D rem.
Proof.
  intros H. unfold new_location, new_location_even, new_location_odd, locationOf.
  destruct (Z.even D) eqn:Ev; [done|].
  destruct (rem =? 0); [done|]. f_equal.
  assert (2 * rem <> D).
  { intros <-. by rewrite Z.even_mul in Ev. }
  destruct (Z.compare_spec (2 * rem + 1) D), (Z.compare_spec (2 * rem) D); done || lia.
Qed.

(** The quotient of two positive counts below 2^53, as the division of
    doubles computes it: a normal number [M * 2^(a - b)] with
    [|M * 2^(a-b) - u/c| <= 2^(a-b) / 2]. *)
Lemma div_counts (u c : Z) :
  0 < u < 2 ^ 53 -> 0 < c < 2 ^ 53 ->
  exists (M : positive) (a b : Z),
    Prim2SF (Z2F u / Z2F c) = S754_finite false M (a - b) /\
    0 <= a <= 54 /\ 53 <= b <= 105 /\ 2 ^ 52 <= Z.pos M < 2 ^ 53 /\
    2 * Z.abs (Z.pos M * (c * 2 ^ a) - u * 2 ^ b) <= c * 2 ^ a.
Proof.
  intros Hu Hc.
  destruct (Z2F_exact u Hu) as (mu & su & Eu & Hsu & Emu & Hmu).
  destruct (Z2F_exact c Hc) as (mc & sc & Ec & Hsc & Emc & Hmc).
  rewrite div_spec, Eu, Ec. cbn [SF64div SFdiv xorb]. unfold SFdiv_core_binary.
  rewrite (Zdigits2_unique (Z.pos mu) 53), (Zdigits2_unique (Z.pos mc) 53) by lia.
  replace (53 + - su - (53 + - sc)) with (sc - su) by lia.
  rewrite fexp_normal by lia.
  replace (Z.min (sc - su - 53) (- su - - sc)) with (sc - su - 53) by lia.
  replace (- su - - sc - (sc - su - 53)) with 53 by lia.
  rewrite Z.shiftl_mul_pow2 by lia.
  set (N := Z.pos mu * 2 ^ 53). set (D := Z.pos mc).
  assert (Z.div_eucl N D = (N / D, N mod D)) as ->.
  { unfold Z.div, Z.modulo. by destruct (Z.div_eucl N D). }
  rewrite new_location_locationOf by (apply Z.mod_pos_bound; lia).
  assert (N / D < 2 ^ 54) as Hq by (apply Z.div_lt_upper_bound; unfold N, D; lia).
  assert (2 ^ 52 <= N / D) as Hq' by (apply Z.div_le_lower_bound; unfold N, D; lia).
  assert (Zdigits2 (N / D) <= 54) as Hdig.
  { destruct (Zdigits2_bounds (N / D) ltac:(lia)) as [Hd0 Hd].
    destruct (Z.le_gt_cases (Zdigits2 (N / D)) 54) as [|Hlt]; [done|]. exfalso.
    assert (2 ^ 54 <= 2 ^ (Zdigits2 (N / D) - 1)) by (apply Z.pow_le_mono_r; lia). lia. }
  destruct (binary_round_aux_quotient N D (sc - su - 53))
    as (M & j & E & Hj & HM & Herr); [unfold D; lia | unfold N, D; lia | lia | lia |].
  rewrite E. exists M, (sc + j), (su + 53).
  split; [f_equal; lia|]. split; [lia|]. split; [lia|]. split; [done|].
  unfold N, D in Herr. rewrite Emu, Emc in Herr.
  rewrite !Z.pow_add_r by lia.
  replace (Z.pos M * (c * (2 ^ sc * 2 ^ j)) - u * (2 ^ su * 2 ^ 53))
    with (Z.pos M * (c * 2 ^ sc * 2 ^ j) - u * 2 ^ su * 2 ^ 53) by lia.
  by replace (c * (2 ^ sc * 2 ^ j)) with (c * 2 ^ sc * 2 ^ j) by lia.
Qed.

(** The product of a normal number by 100. *)
Lemma mul_100 (x : float) (M : positive) (E : Z) :
  Prim2SF x = S754_finite false M E -> 2 ^ 52 <= Z.pos M < 2 ^ 53 -> -200 <= E <= 200 ->
  exists (Mx : positive) (g : Z),
    Prim2SF (x * 100) = S754_finite false Mx (E - 46 + g) /\
    0 <= g <= 54 /\ 2 ^ 52 <= Z.pos Mx < 2 ^ 53 /\
    2 * Z.abs (Z.pos Mx * 2 ^ g - Z.pos M * (100 * 2 ^ 46)) <= 2 ^ g.
Proof.
  intros Ex HM HE. rewrite mul_spec, Ex.
  change (Prim2SF 100) with (S754_finite false 7036874417766400 (-46)).
  cbn [SF64mul SFmul xorb].
  set (N := Z.pos (M * 7036874417766400)).
  assert (N = Z.pos M * (100 * 2 ^ 46)) as EN by (unfold N; lia).
  assert (2 ^ 104 <= N < 2 ^ 106) as HN by lia.
  assert (Zdigits2 N <= 106) as Hdig.
  { destruct (Zdigits2_bounds N ltac:(lia)) as [Hd0 Hd].
    destruct (Z.le_gt_cases (Zdigits2 N) 106) as [|Hlt]; [done|]. exfalso.
    assert (2 ^ 106 <= 2 ^ (Zdigits2 N - 1)) by (apply Z.pow_le_mono_r; lia). lia. }
  destruct (binary_round_aux_quotient N 1 (E + -46))
    as (Mx & g & Er & Hg & HMx & Herr); [lia | lia | lia | rewrite Z.div_1_r; lia |].
  rewrite Z.div_1_r, Z.mod_1_r in Er. change (locationOf 1 0) with loc_Exact in Er.
  rewrite Er. rewrite Z.div_1_r in Hg. exists Mx, g.
  split; [f_equal; lia|]. split; [lia|]. split; [done|].
  rewrite Z.mul_1_l, EN in Herr. exact Herr.
Qed.

Lemma exactInteger_Z2F (n : Z) : 0 < n < 2 ^ 53 -> exactInteger (Z2F n) = Some n.
Proof.
  intros Hn. destruct (Z2F_exact n Hn) as (m & s & E & Hs & Em & Hm).
  unfold exactInteger. rewrite E, Em.
  destruct (Z.leb_spec 0 (- s)) as [H|H].
  - assert (s = 0) as -> by lia. change (- 0) with 0. change (2 ^ 0) with 1.
    f_equal. lia.
  - replace (- - s) with s by lia.
    assert (0 < 2 ^ s) by (apply Z.pow_pos_nonneg; lia).
    rewrite Z.mod_mul by lia. cbn [Z.eqb]. by rewrite Z.div_mul by lia.
Qed.

Lemma NumberToString_Z2F (n : Z) :
  0 < n < 2 ^ 53 -> NumberToString (Z2F n) = Some (pretty n).
Proof.
  intros Hn. unfold NumberToString. rewrite (exactInteger_Z2F n Hn).
  destruct (Z2F_exact n Hn) as (m & s & -> & _).
  by replace (Z.abs n <? 10 ^ 21) with true by (symmetry; apply Z.ltb_lt; lia).
Qed.

(** The two roundings together: relative errors of 2^-53 each leave the
    product within half a unit of the common scale. *)
Lemma two_roundings (Y Z1 T P : Z) :
  0 < P -> 0 <= T <= 100 * 2 ^ 44 * P ->
  2 ^ 53 * Z.abs (Y - Z1) <= Y -> 2 ^ 53 * Z.abs (Z1 - T) <= Z1 ->
  2 * Z.abs (Y - T) < P.
Proof. lia. Qed.

(** The integer [floor (x + 1/2)] for an [x] within [1 / (2 c)] of
    [100 u / c]. *)
Lemma round_near_percent (u c S Mx n : Z) :
  0 < c -> 0 <= u -> 0 < S ->
  Z.abs (2 * Mx * c - 200 * u * S) < S ->
  2 * S * n <= 2 * Mx + S < 2 * S * (n + 1) ->
  2 * Z.abs (100 * u - n * c) <= c /\
  (n = roundedPercent u c \/
   ((200 * u + c) mod (2 * c) = 0 /\ n = roundedPercent u c - 1)).
Proof.
  intros Hc Hu HS Herr Hn. unfold roundedPercent.
  pose proof (Z.div_mod (200 * u + c) (2 * c) ltac:(lia)) as Hdiv.
  pose proof (Z.mod_pos_bound (200 * u + c) (2 * c) ltac:(lia)) as Hrem.
  set (k0 := (200 * u + c) / (2 * c)) in *.
  set (rho := (200 * u + c) mod (2 * c)) in *.
  set (Ee := 2 * Mx * c - 200 * u * S) in *.
  set (Q := S * c).
  assert (0 < Q) as HQ by (unfold Q; nia).
  assert (S <= Q) as HSQ by (unfold Q; nia).
  assert ((2 * Mx + S) * c = Ee + 2 * Q * k0 + S * rho) as Hmid by (unfold Ee, Q; nia).
  assert (2 * Q * n <= Ee + 2 * Q * k0 + S * rho) as Hlo by (rewrite <- Hmid; unfold Q; nia).
  assert (Ee + 2 * Q * k0 + S * rho < 2 * Q * n + 2 * Q) as Hhi
    by (rewrite <- Hmid; unfold Q; nia).
  assert (0 <= S * rho <= 2 * Q - S) as Hsr by (unfold Q; nia).
  assert (n <= k0) as Hle by nia.
  assert (k0 - 1 <= n) as Hge by nia.
  destruct (Z.eq_dec n k0) as [->|Hne].
  - split; [|by left]. lia.
  - assert (n = k0 - 1) as -> by lia.
    assert (rho = 0) as Hr0 by nia.
    split; [|by right]. lia.
Qed.

(** [Math.round] of a positive double with a negative exponent. *)
Lemma Math_round_normal (x : float) (Mx : positive) (k : Z) :
  Prim2SF x = S754_finite false Mx (- k) -> 0 < k -> 2 ^ 52 <= Z.pos Mx < 2 ^ 53 ->
  exists n : Z,
    NumberToString (Math_round x) = Some (pretty n) /\
    2 * 2 ^ k * n <= 2 * Z.pos Mx + 2 ^ k < 2 * 2 ^ k * (n + 1).
Proof.
  intros Ex Hk HMx. unfold Math_round. rewrite Ex.
  replace (0 <=? - k) with false by (symmetry; apply Z.leb_gt; lia).
  replace (- - k + 1) with (Z.succ k) by lia. replace (- - k) with k by lia.
  rewrite Z.pow_succ_r by lia.
  set (S := 2 ^ k). assert (2 <= S) as HS.
  { unfold S. replace k with (Z.succ (k - 1)) by lia. rewrite Z.pow_succ_r by lia.
    pose proof (Z.pow_pos_nonneg 2 (k - 1)). lia. }
  set (n := (2 * Z.pos Mx + S) / (2 * S)).
  pose proof (Z.div_mod (2 * Z.pos Mx + S) (2 * S) ltac:(lia)) as Hdiv.
  pose proof (Z.mod_pos_bound (2 * Z.pos Mx + S) (2 * S) ltac:(lia)) as Hrem.
  fold n in Hdiv. exists n.
  assert (0 <= n) as Hn0 by (apply Z.div_pos; lia).
  assert (n < 2 ^ 53) as Hn53 by (apply Z.div_lt_upper_bound; lia).
  split; [|nia].
  destruct (Z.eqb_spec n 0) as [->|Hne]; [done|].
  apply NumberToString_Z2F. lia.
Qed.

(** Half a unit of a mantissa of 53 bits is at most 2^-53 of the value. *)
Lemma half_unit_relative (V G W Mx : Z) :
  0 <= W -> 0 <= G -> 2 ^ 52 <= Mx -> 2 * V <= G ->
  2 ^ 53 * (V * W) <= Mx * G * W.
Proof.
  intros HW HG HMx HV.
  assert (2 * V * W <= G * W) by (apply Z.mul_le_mono_nonneg_r; lia).
  assert (2 ^ 52 * (G * W) <= Mx * (G * W)) by (apply Z.mul_le_mono_nonneg_r; nia).
  lia.
Qed.

Lemma mul_lt_cancel (x S W : Z) : 0 < W -> Z.abs x * W < S * W -> Z.abs x < S.
Proof. intros HW H. nia. Qed.

(** The percentage [calculateLinkDiversity] computes for [u] unique targets
    among [c] links. *)
Lemma percent_rounding (u c : Z) :
  0 < c < 2 ^ 53 -> 0 <= u <= 2 ^ 44 ->
  exists n : Z,
    NumberToString (Math_round (Z2F u / Z2F c * 100)) = Some (pretty n) /\
    2 * Z.abs (100 * u - n * c) <= c /\
    (n = roundedPercent u c \/
     ((200 * u + c) mod (2 * c) = 0 /\ n = roundedPercent u c - 1)).
Proof.
  intros Hc Hu.
  destruct (Z.eq_dec u 0) as [->|Hu0].
  - (* no unique target: the quotient and the product are zero *)
    exists 0.
    destruct (Z2F_exact c Hc) as (mc & sc & Ec & _).
    assert (Prim2SF (Z2F 0 / Z2F c * 100) = S754_zero false) as E0.
    { rewrite mul_spec, div_spec, Ec. reflexivity. }
    split.
    + unfold Math_round. rewrite E0. unfold NumberToString, exactInteger. by rewrite E0.
    + unfold roundedPercent. rewrite Z.mul_0_r, Z.add_0_l.
      rewrite (Z.div_small c (2 * c)) by lia. split; [lia | by left].
  - destruct (div_counts u c ltac:(lia) Hc) as (M & a & b & Eq & Ha & Hb & HM & Herr1).
    destruct (mul_100 _ M (a - b) Eq HM ltac:(lia)) as (Mx & g & Ex & Hg & HMx & Herr2).
    set (A := 2 ^ a) in *. set (B := 2 ^ b) in *. set (G := 2 ^ g) in *.
    assert (0 < A) as HA by (apply Z.pow_pos_nonneg; lia).
    assert (0 < B) as HB by (apply Z.pow_pos_nonneg; lia).
    assert (0 < G) as HG by (apply Z.pow_pos_nonneg; lia).
    set (P := 2 ^ 46 * B).
    set (Y := Z.pos Mx * G * (c * A)).
    set (Z1 := Z.pos M * (100 * 2 ^ 46) * (c * A)).
    set (T := 100 * u * P).
    assert (0 < c * A) as HcA by (apply Z.mul_pos_pos; lia).
    assert (2 ^ 53 * Z.abs (Y - Z1) <= Y) as H1.
    { assert (Y - Z1 = (Z.pos Mx * G - Z.pos M * (100 * 2 ^ 46)) * (c * A)) as ->
        by (unfold Y, Z1; ring).
      rewrite Z.abs_mul, (Z.abs_eq (c * A)) by lia. unfold Y.
      apply half_unit_relative; lia. }
    assert (2 ^ 53 * Z.abs (Z1 - T) <= Z1) as H2.
    { assert (Z1 - T = (Z.pos M * (c * A) - u * B) * (100 * 2 ^ 46)) as ->
        by (unfold Z1, T, P; ring).
      rewrite Z.abs_mul, (Z.abs_eq (100 * 2 ^ 46)) by lia. unfold Z1.
      replace (Z.pos M * (100 * 2 ^ 46) * (c * A))
        with (Z.pos M * (c * A) * (100 * 2 ^ 46)) by ring.
      apply half_unit_relative; lia. }
    assert (0 < P) as HP by (unfold P; lia).
    assert (0 <= T <= 100 * 2 ^ 44 * P) as HT.
    { unfold T. split; [apply Z.mul_nonneg_nonneg; lia|].
      apply Z.mul_le_mono_nonneg_r; lia. }
    pose proof (two_roundings Y Z1 T P HP HT H1 H2) as Hsum.
    (* the product is below 2^52, so its exponent is negative *)
    set (k := b + 46 - a - g).
    assert (0 < k) as Hk.
    { destruct (Z.lt_ge_cases 0 k) as [|Hneg]; [done|]. exfalso.
      assert (P <= A * G) as HPAG.
      { unfold P, A, B, G. rewrite <- !Z.pow_add_r by lia.
        apply Z.pow_le_mono_r; unfold k in Hneg; lia. }
      assert (2 ^ 52 * P <= Y).
      { unfold Y. replace (Z.pos Mx * G * (c * A)) with (Z.pos Mx * c * (A * G)) by ring.
        apply Z.mul_le_mono_nonneg; [lia| |lia|done].
        replace (2 ^ 52) with (2 ^ 52 * 1) by lia. apply Z.mul_le_mono_nonneg; lia. }
      lia. }
    replace (a - b - 46 + g) with (- k) in Ex by (unfold k; lia).
    destruct (Math_round_normal _ Mx k Ex Hk HMx) as (n & En & Hn).
    exists n. split; [exact En|].
    set (S := 2 ^ k) in *.
    assert (0 < S) as HS by (apply Z.pow_pos_nonneg; lia).
    assert (S * (A * G) = P) as HSAG.
    { unfold S, P, A, B, G. rewrite <- !Z.pow_add_r by lia. f_equal. unfold k. lia. }
    apply (round_near_percent u c S (Z.pos Mx) n); [lia | lia | done | | done].
    assert (0 < A * G) as HAG by (apply Z.mul_pos_pos; lia).
    assert (2 * (Y - T) = (2 * Z.pos Mx * c - 200 * u * S) * (A * G)) as Hscale
      by (unfold Y, T; rewrite <- HSAG; ring).
    assert (Z.abs (2 * (Y - T)) < S * (A * G)) as Hlt by (rewrite HSAG; lia).
    rewrite Hscale, Z.abs_mul, (Z.abs_eq (A * G)) in Hlt by lia.
    by apply (mul_lt_cancel _ S (A * G)).
Qed.

(** ** Link diversity, in general *)

Example link_diversity_half : calculateLinkDiversity (linksTo 8 (distinctTargets 4)) = Some "50%".
Proof. vm_compute. reflexivity. Qed.

(** C10, as stated, fails: with 23 unique targets among 40 contextual links
    the exact percentage is 57.5, which rounds to 58, but the double
    [23/40*100] lies just below 57.5 and the function returns 57%. *)
Lemma link_diversity_differs_from_exact_rounding :
  contextual (linksTo 40 (distinctTargets 23)) = 40 /\
  size (uniqueContextual (linksTo 40 (distinctTargets 23))) = 23%nat /\
  roundedPercent 23 40 = 58 /\
  (Z2F 23 / Z2F 40 * 100 <? 57.5)%float = true /\
  calculateLinkDiversity (linksTo 40 (distinctTargets 23)) = Some "57%" /\
  calculateLinkDiversity (linksTo 40 (distinctTargets 23))
    <> Some (pretty (roundedPercent 23 40) +:+ "%").
Proof.
  assert (calculateLinkDiversity (linksTo 40 (distinctTargets 23)) = Some "57%") as E
    by (vm_compute; reflexivity).
  repeat split; try (vm_compute; reflexivity); try exact E.
  rewrite E. vm_compute. discriminate.
Qed.

(** The bound on the unique targets is that of the precision of a double:
    with 30744387292325 targets (between 2^44 and 2^45) among 44882317215073
    links the exact percentage lies [1/(2c)] below 68.5, so it is no half and
    rounds to 68, and the function returns 69%. *)
Example link_diversity_precision_limit :
  let u := 30744387292325 in
  let c := 44882317215073 in
  2 ^ 44 < u /\ u <= c /\ c < 2 ^ 53 /\
  NumberToString (Math_round (Z2F u / Z2F c * 100)) = Some "69" /\
  roundedPercent u c = 68 /\ (200 * u + c) mod (2 * c) <> 0.
Proof. cbv zeta. repeat split; vm_compute; done. Qed.

(** C10, amended. No division by zero takes place: with no contextual link
    the result is 'N/A'. With [c] contextual links, [0 < c < 2^53], and [u]
    unique targets, [u <= 2^44], the result is [n] followed by '%', where
    [n], [Math.round] of the double [u/c*100], is an integer nearest to the
    exact percentage [100*u/c]; it is the exactly rounded percentage except
    possibly when that percentage is a half, where it may be the integer
    below. *)
Theorem link_diversity_value (linkData : LinkData) :
  let u := Z.of_nat (size (uniqueContextual linkData)) in
  let c := contextual linkData in
  if c =? 0 then calculateLinkDiversity linkData = Some "N/A"
  else
    0 < c < 2 ^ 53 -> u <= 2 ^ 44 ->
    exists n : Z,
      calculateLinkDiversity linkData = Some (pretty n +:+ "%") /\
      2 * Z.abs (100 * u - n * c) <= c /\
      (n = roundedPercent u c \/
       ((200 * u + c) mod (2 * c) = 0 /\ n = roundedPercent u c - 1)).
Proof.
  intros u c. unfold calculateLinkDiversity. fold u c.
  destruct (Z.eqb_spec c 0) as [|Hne]; [reflexivity|].
  intros Hc Hu.
  destruct (percent_rounding u c Hc ltac:(lia)) as (n & En & Hn).
  exists n. by rewrite En.
Qed.

Lemma link_diversity_value_witness :
  0 < contextual (linksTo 8 (distinctTargets 4)) < 2 ^ 53 /\
  Z.of_nat (size (uniqueContextual (linksTo 8 (distinctTargets 4)))) <= 2 ^ 44 /\
  exists n : Z,
    calculateLinkDiversity (linksTo 8 (distinctTargets 4)) = Some (pretty n +:+ "%") /\
    2 * Z.abs (100 * 4 - n * 8) <= 8 /\
    (n = roundedPercent 4 8 \/
     ((200 * 4 + 8) mod (2 * 8) = 0 /\ n = roundedPercent 4 8 - 1)).
Proof.
  assert (0 < contextual (linksTo 8 (distinctTargets 4)) < 2 ^ 53) as Hc
    by (vm_compute; split; reflexivity).
  assert (Z.of_nat (size (uniqueContextual (linksTo 8 (distinctTargets 4)))) <= 2 ^ 44) as Hu
    by (vm_compute; discriminate).
  split; [exact Hc|]. split; [exact Hu|].
  pose proof (link_diversity_value (linksTo 8 (distinctTargets 4))) as H.
  cbv zeta in H.
  change (contextual (linksTo 8 (distinctTargets 4)) =? 0) with false in H.
  specialize (H Hc Hu).
  vm_compute in H. vm_compute. exact H.
Defined.

(** With no contextual link the answer is 'N/A' whatever the set holds. *)
Example link_diversity_na :
  calculateLinkDiversity (linksTo 0 []) = Some "N/A" /\
  calculateLinkDiversity (linksTo 0 ["/a"]) = Some "N/A".
Proof. split; reflexivity. Qed.

(** ** Internal links *)

Lemma append_assoc (s1 s2 s3 : string) :
  (s1 +:+ s2) +:+ s3 = s1 +:+ s2 +:+ s3.
Proof.
  induction s1 as [|c s1 IH]; [reflexivity|].
  change (String c ((s1 +:+ s2) +:+ s3) = String c (s1 +:+ s2 +:+ s3)).
  by rewrite IH.
Qed.

Lemma startsWith_spec (s p : string) :
  startsWith s p = true <-> exists r, s = p +:+ r.
Proof.
  revert s. induction p as [|c p IH]; intros s; simpl.
  - split; [intros _; by exists s | done].
  - destruct s as [|d s]; simpl.
    + split; [done | intros [r Hr]; discriminate].
    + rewrite andb_true_iff, IH, Ascii.eqb_eq. split.
      * intros [-> [r ->]]. by exists r.
      * intros [r Hr]. injection Hr as -> ->. split; [done | by exists r].
Qed.

Lemma includes_spec (s t : string) :
  includes s t = true <-> exists a b, s = a +:+ t +:+ b.
Proof.
  induction s as [|d s IH]; simpl.
  - rewrite orb_false_r, startsWith_spec. split.
    + intros [r Hr]. by exists "", r.
    + intros [[|c a] [b Hb]]; [by exists b | discriminate].
  - rewrite orb_true_iff, IH, startsWith_spec. split.
    + intros [[r Hr] | (a & b & ->)].
      * by exists "", r.
      * by exists (String d a), b.
    + intros [[|c a] [b Hb]].
      * left. by exists b.
      * right. injection Hb as -> ->. by exists a, b.
Qed.

(** C9. An absolute URL on a different host is never to be counted as
    internal. The test of lines 49-51 looks for the host name anywhere in the
    href, not in its host part: an absolute URL whose host is another site,
    but whose query string mentions the current host name, is taken as
    internal and counted among the template links, not the external ones. *)
Lemma foreign_url_counted_internal :
  urlHost "https://evil.test/?ref=example.com" = Some "evil.test" /\
  internalBySpec "example.com" "https://evil.test/?ref=example.com" = false /\
  isInternal "example.com" "https://evil.test/?ref=example.com" = true /\
  (let la := analyzeLinksAdvanced "example.com"
               [ {| href := Some "https://evil.test/?ref=example.com";
                    rel := None; linkContext := ctxNavigation |} ] in
   template la = 1 /\ external la = 0).
Proof. repeat split. Qed.

(** What the test of lines 49-51 accepts: an href that starts with '/',
    starts with '?', or starts with 'http' and contains the current host
    name somewhere. An http(s) URL that spells the current host name as
    [window.location.hostname] does is among them. *)
Theorem isInternal_characterisation (domain href : string) :
  (isInternal domain href = true <->
     (exists r, href = "/" +:+ r) \/ (exists r, href = "?" +:+ r) \/
     ((exists r, href = "http" +:+ r) /\ exists a b, href = a +:+ domain +:+ b)) /\
  (forall rest, isInternal domain ("http://" +:+ domain +:+ rest) = true) /\
  (forall rest, isInternal domain ("https://" +:+ domain +:+ rest) = true).
Proof.
  assert (isInternal domain href = true <->
          (exists r, href = "/" +:+ r) \/ (exists r, href = "?" +:+ r) \/
          ((exists r, href = "http" +:+ r) /\ exists a b, href = a +:+ domain +:+ b)) as H.
  { unfold isInternal.
    rewrite !orb_true_iff, andb_true_iff, !startsWith_spec, includes_spec. tauto. }
  split; [exact H|].
  assert (forall scheme rest, startsWith scheme "http" = true ->
            isInternal domain (scheme +:+ domain +:+ rest) = true) as G.
  { intros scheme rest Hs. unfold isInternal.
    apply orb_true_iff. right. apply andb_true_iff. split.
    - apply startsWith_spec in Hs as [r ->]. apply startsWith_spec.
      exists (r +:+ domain +:+ rest). by rewrite append_assoc.
    - apply includes_spec. by exists scheme, rest. }
  split; intros rest.
  - by apply (G "http://").
  - by apply (G "https://").
Qed.

(** ** The regular-expression matcher *)

Lemma allChars_app (p : ascii -> bool) (s1 s2 : string) :
  allChars p (s1 +:+ s2) = allChars p s1 && allChars p s2.
Proof.
  induction s1 as [|c s1 IH]; [reflexivity|].
  change (p c && allChars p (s1 +:+ s2) = p c && allChars p s1 && allChars p s2).
  rewrite IH. by rewrite andb_assoc.
Qed.

Lemma allChars_mono (p q : ascii -> bool) (s : string) :
  (forall c, p c = true -> q c = true) -> allChars p s = true -> allChars q s = true.
Proof.
  intros Hpq. induction s as [|c s IH]; [done|]. simpl.
  rewrite !andb_true_iff. intros [Hc Hs]. auto.
Qed.

(** A string of the language is made of characters of the expression. *)
Lemma Matches_alphabet (r : Regex) (s : string) :
  Matches r s -> allChars (alphabet r) s = true.
Proof.
  induction 1 as [|c|p c Hp|r1 r2 s1 s2 _ IH1 _ IH2|r1 r2 s _ IH|r1 r2 s _ IH
                  |r|r s _ IH|r|r s1 s2 _ IH1 Hne _ IH2]; simpl; try done.
  - by rewrite Ascii.eqb_refl.
  - by rewrite Hp.
  - rewrite allChars_app. apply andb_true_iff. split.
    + eapply allChars_mono; [|exact IH1]. intros c ->. done.
    + eapply allChars_mono; [|exact IH2]. intros c ->. by rewrite orb_true_r.
  - eapply allChars_mono; [|exact IH]. intros c ->. done.
  - eapply allChars_mono; [|exact IH]. intros c ->. by rewrite orb_true_r.
  - change (allChars (alphabet (RStar r)) (s1 +:+ s2) = true).
    rewrite allChars_app, IH2, andb_true_r.
    eapply allChars_mono; [|exact IH1]. intros c Hc. exact Hc.
Qed.

Lemma append_empty_r (s : string) : s +:+ "" = s.
Proof.
  induction s as [|c s IH]; [reflexivity|].
  change (String c (s +:+ "") = String c s). by rewrite IH.
Qed.

Lemma length_append (s1 s2 : string) :
  String.length (s1 +:+ s2) = (String.length s1 + String.length s2)%nat.
Proof.
  induction s1 as [|c s1 IH]; [reflexivity|].
  change (S (String.length (s1 +:+ s2)) = S (String.length s1 + String.length s2)).
  by rewrite IH.
Qed.

(** Soundness: what the matcher consumes belongs to the language. *)
Lemma starLoop_sound (r : Regex) (step : string -> (string -> option string) -> option string)
    (k : string -> option string) :
  (forall s k' x, step s k' = Some x ->
     exists s1 s2, s = s1 +:+ s2 /\ Matches r s1 /\ k' s2 = Some x) ->
  forall n s x, starLoop step k n s = Some x ->
     exists s1 s2, s = s1 +:+ s2 /\ Matches (RStar r) s1 /\ k s2 = Some x.
Proof.
  intros Hstep. induction n as [|n IH]; intros s x; simpl.
  - destruct (step s _) as [y|] eqn:E.
    + apply Hstep in E as (s1 & s2 & _ & _ & E). discriminate.
    + intros Hk. exists "", s. split; [done|]. split; [constructor | done].
  - destruct (step s _) as [y|] eqn:E.
    + intros [= ->]. apply Hstep in E as (s1 & s2 & -> & H1 & E).
      destruct (Nat.ltb_spec (String.length s2) (String.length (s1 +:+ s2))) as [Hlt|];
        [|discriminate].
      apply IH in E as (s3 & s4 & -> & H3 & E).
      exists (s1 +:+ s3), s4. rewrite append_assoc. split; [done|]. split; [|done].
      constructor; [done| |done].
      intros ->.
      change (String.length (s3 +:+ s4) < String.length (s3 +:+ s4))%nat in Hlt. lia.
    + intros Hk. exists "", s. split; [done|]. split; [constructor | done].
Qed.

Lemma rmatch_sound (r : Regex) (total : nat) :
  anchorFree r = true ->
  forall s k x, rmatch r total s k = Some x ->
    exists s1 s2, s = s1 +:+ s2 /\ Matches r s1 /\ k s2 = Some x.
Proof.
  induction r as [|c|p| | |r1 IH1 r2 IH2|r1 IH1 r2 IH2|r1 IH1|r1 IH1];
    intros Ha s k x; simpl in *; try discriminate.
  - intros H. exists "", s. split; [done|]. split; [constructor | done].
  - destruct s as [|d s]; [done|]. destruct (Ascii.eqb_spec c d) as [<-|]; [|done].
    intros H. exists (String c ""), s. split; [done|]. split; [constructor | done].
  - destruct s as [|d s]; [done|]. destruct (p d) eqn:E; [|done].
    intros H. exists (String d ""), s. split; [done|]. split; [by constructor | done].
  - apply andb_true_iff in Ha as [Ha1 Ha2].
    intros H. apply (IH1 Ha1) in H as (s1 & s2 & -> & H1 & H).
    apply (IH2 Ha2) in H as (s3 & s4 & -> & H3 & H).
    exists (s1 +:+ s3), s4. rewrite append_assoc. split; [done|]. split; [by constructor | done].
  - apply andb_true_iff in Ha as [Ha1 Ha2].
    destruct (rmatch r1 total s k) as [y|] eqn:E.
    + intros [= ->]. apply (IH1 Ha1) in E as (s1 & s2 & -> & H1 & H).
      exists s1, s2. split; [done|]. split; [by apply MAltL | done].
    + intros H. apply (IH2 Ha2) in H as (s1 & s2 & -> & H1 & H).
      exists s1, s2. split; [done|]. split; [by apply MAltR | done].
  - destruct (rmatch r1 total s k) as [y|] eqn:E.
    + intros [= ->]. apply (IH1 Ha) in E as (s1 & s2 & -> & H1 & H).
      exists s1, s2. split; [done|]. split; [by apply MOptSome | done].
    + intros H. exists "", s. split; [done|]. split; [constructor | done].
  - apply starLoop_sound. exact (IH1 Ha).
Qed.

(** Completeness: if some way of matching lets the continuation succeed, the
    matcher succeeds. For [*] this holds for any bound on the iterations
    that is at least the length of the input. *)
Lemma rmatch_complete (r : Regex) (s1 : string) :
  Matches r s1 ->
  forall total s2 k, is_Some (k s2) ->
    is_Some (rmatch r total (s1 +:+ s2) k) /\
    match r with
    | RStar r' =>
        forall n, (String.length (s1 +:+ s2) <= n)%nat ->
          is_Some (starLoop (rmatch r' total) k n (s1 +:+ s2))
    | _ => True
    end.
Proof.
  induction 1 as [|c|p c Hp|r1 r2 s1 s2 _ IH1 _ IH2|r1 r2 s _ IH|r1 r2 s _ IH
                  |r|r s _ IH|r|r s1 s2 _ IH1 Hne _ IH2];
    intros total s3 k Hk.
  - by split.
  - split; [|done]. change (is_Some (rmatch (RChar c) total (String c s3) k)).
    simpl. by rewrite Ascii.eqb_refl.
  - split; [|done]. change (is_Some (rmatch (RClass p) total (String c s3) k)).
    simpl. by rewrite Hp.
  - split; [|done]. rewrite append_assoc. simpl.
    apply IH1. by apply IH2.
  - split; [|done]. simpl.
    destruct (IH total s3 k Hk) as [[y ->] _]. done.
  - split; [|done]. simpl.
    destruct (rmatch r1 total (s +:+ s3) k); [done|]. by apply IH.
  - split; [|done]. simpl.
    change ("" +:+ s3) with s3. by destruct (rmatch r total s3 k).
  - split; [|done]. simpl.
    destruct (IH total s3 k Hk) as [[y ->] _]. done.
  - assert (forall n, is_Some (starLoop (rmatch r total) k n ("" +:+ s3))) as G.
    { intros n. change ("" +:+ s3) with s3. destruct n; simpl.
      - by destruct (rmatch r total s3 _).
      - by destruct (rmatch r total s3 _). }
    split; [apply G | intros n _; apply G].
  - assert (forall n, (String.length ((s1 +:+ s2) +:+ s3) <= n)%nat ->
                is_Some (starLoop (rmatch r total) k n ((s1 +:+ s2) +:+ s3))) as G.
    { intros n Hn. rewrite append_assoc in *.
      assert (String.length (s2 +:+ s3) < String.length (s1 +:+ s2 +:+ s3))%nat as Hlt.
      { rewrite (length_append s1). destruct s1; [done|]. simpl. lia. }
      destruct n as [|n]; [lia|]. simpl.
      match goal with |- context [rmatch r total _ ?k'] =>
        destruct (IH1 total (s2 +:+ s3) k') as [[y ->] _]; [|done] end.
      apply Nat.ltb_lt in Hlt. rewrite Hlt.
      apply (IH2 total s3 k Hk). apply Nat.ltb_lt in Hlt. lia. }
    split; [apply G; lia | exact G].
Qed.

(** A string that cannot start a match either fails to match or, when the
    expression may match the empty string, is handed on unchanged. *)
Lemma rmatch_blocked (r : Regex) (total : nat) :
  forall s k, blocked r s ->
    rmatch r total s k = None \/ (mustConsume r = false /\ rmatch r total s k = k s).
Proof.
  induction r as [|c|p| | |r1 IH1 r2 IH2|r1 IH1 r2 IH2|r1 IH1|r1 IH1];
    intros s k Hb; simpl.
  - by right.
  - left. destruct s as [|d s]; [done|]. simpl in Hb. by rewrite Hb.
  - left. destruct s as [|d s]; [done|]. simpl in Hb. by rewrite Hb.
  - destruct (_ =? _)%nat; [by right | by left].
  - destruct s; [by right | by left].
  - assert (blocked r1 s) as Hb1.
    { destruct s as [|d s]; [done|]. simpl in *. by apply orb_false_iff in Hb as [? _]. }
    destruct (IH1 s (fun s' => rmatch r2 total s' k) Hb1) as [E|[Hm E]]; [by left|].
    rewrite E.
    assert (blocked r2 s) as Hb2.
    { destruct s as [|d s]; [done|]. simpl in *. rewrite Hm in Hb.
      by apply orb_false_iff in Hb as [_ ?]. }
    destruct (IH2 s k Hb2) as [E2|[Hm2 E2]]; [by left|].
    right. by rewrite Hm, Hm2.
  - assert (blocked r1 s /\ blocked r2 s) as [Hb1 Hb2].
    { destruct s as [|d s]; [done|]. simpl in *. by apply orb_false_iff in Hb. }
    destruct (IH1 s k Hb1) as [E|[Hm E]]; rewrite E.
    + destruct (IH2 s k Hb2) as [E2|[Hm2 E2]]; [by left|].
      right. by rewrite Hm2, andb_false_r.
    + destruct (k s) as [y|] eqn:Ek; [right; by rewrite Hm|].
      destruct (IH2 s k Hb2) as [E2|[Hm2 E2]]; [by left|].
      left. by rewrite E2.
  - right. split; [done|].
    assert (blocked r1 s) as Hb1 by (by destruct s).
    destruct (IH1 s k Hb1) as [E|[Hm E]]; rewrite E; [done|]. by destruct (k s).
  - right. split; [done|].
    assert (blocked r1 s) as Hb1 by (by destruct s).
    destruct (String.length s) as [|n]; simpl.
    + destruct (IH1 s (fun _ => None) Hb1) as [E|[Hm E]]; by rewrite E.
    + match goal with |- context [rmatch r1 total s ?k'] =>
        destruct (IH1 s k' Hb1) as [E|[Hm E]]; rewrite E end; [done|].
      by rewrite Nat.ltb_irrefl.
Qed.

Lemma rmatch_none (r : Regex) (total : nat) (s : string) (k : string -> option string) :
  mustConsume r = true -> blocked r s -> rmatch r total s k = None.
Proof.
  intros Hm Hb. destruct (rmatch_blocked r total s k Hb) as [E|[Hm' _]]; [done|].
  congruence.
Qed.

(** With nothing to match, the global replacement leaves the string alone. *)
Lemma removeAllFrom_no_match (r : Regex) (p : ascii -> bool) (total : nat) :
  (forall s, allChars p s = true -> rmatch r total s Some = None) ->
  forall fuel s, allChars p s = true -> removeAllFrom r total fuel s = s.
Proof.
  intros Hno. induction fuel as [|fuel IH]; intros s Hs; [done|]. simpl.
  rewrite (Hno s Hs). destruct s as [|c s]; [done|].
  simpl in Hs. apply andb_true_iff in Hs as [_ Hs]. by rewrite IH.
Qed.

Lemma removeAll_no_first (r : Regex) (p : ascii -> bool) (s : string) :
  mustConsume r = true ->
  (forall c, p c = true -> firstChars r c = false) ->
  allChars p s = true -> removeAll r s = s.
Proof.
  intros Hm Hf Hs. unfold removeAll.
  apply (removeAllFrom_no_match r p); [|done].
  intros s' Hs'. apply rmatch_none; [done|].
  destruct s' as [|c s']; [done|]. simpl in *.
  apply andb_true_iff in Hs' as [Hc _]. auto.
Qed.

(** An expression anchored at the start can only match at position 0. *)
Lemma testFrom_anchored (r : Regex) (total : nat) (s : string) :
  (String.length s < total)%nat -> testFrom (RSeq RBol r) total s = false.
Proof.
  induction s as [|c s IH]; intros Hlen; cbn [testFrom rmatch String.length] in *.
  - destruct (Nat.eqb_spec 0 total) as [E|_]; [lia | done].
  - destruct (Nat.eqb_spec (S (String.length s)) total) as [E|_]; [lia|].
    apply IH. lia.
Qed.

Lemma test_anchored (r : Regex) (s : string) :
  test (RSeq RBol r) s = true ->
  exists rest, rmatch r (String.length s) s Some = Some rest.
Proof.
  unfold test. destruct s as [|c s]; cbn [testFrom rmatch String.length].
  - destruct (rmatch r 0 "" Some) as [y|]; [by exists y | done].
  - rewrite Nat.eqb_refl.
    destruct (rmatch r _ _ Some) as [y|]; [by exists y|].
    rewrite testFrom_anchored; [done | lia].
Qed.

(** An expression of the form [^r$], [r] without anchors, tests exactly the
    membership in the language of [r]. *)
Lemma test_whole_string (r : Regex) (s : string) :
  anchorFree r = true ->
  test (RSeq RBol (RSeq r REol)) s = true <-> Matches r s.
Proof.
  intros Ha. split.
  - intros H. apply test_anchored in H as [rest H]. simpl in H.
    apply (rmatch_sound r _ Ha) in H as (s1 & s2 & -> & H1 & H).
    destruct s2; [|discriminate]. by rewrite append_empty_r.
  - intros H. unfold test.
    assert (is_Some (rmatch (RSeq RBol (RSeq r REol)) (String.length s) s Some)) as [y E].
    { simpl. rewrite Nat.eqb_refl. rewrite <- (append_empty_r s) at 2.
      by apply (rmatch_complete r s H). }
    destruct s; simpl in *; by rewrite E.
Qed.

(** The matcher on the expressions of the script. *)
Example removeAll_brackets :
  removeAll arrayBrackets "[1,2]" = "1,2" /\ removeAll arrayBrackets "[[1],2]]" = "[1],2]" /\
  removeAll arrayBrackets " [1,2] " = " [1,2] ".
Proof. repeat split. Qed.

Example removeAll_method :
  removeAll methodSuffix ("0.5" +:+ String dquote ("," +:+ String dquote
                          ("method" +:+ String dquote ":1}"))) = "0.5" /\
  removeAll methodSuffix ("0.5" +:+ String dquote (String dquote
                          ("method" +:+ String dquote ":1}"))) = "0.5" /\
  removeAll methodSuffix "0.5,method" = "0.5,method".
Proof. repeat split. Qed.

Example grammar_accepts :
  test embeddingGrammar "0.5" = true /\ test embeddingGrammar "-12,3.25,-0.000001" = true.
Proof. split; reflexivity. Qed.

Example grammar_rejects :
  test embeddingGrammar "" = false /\ test embeddingGrammar ".5" = false /\
  test embeddingGrammar "1." = false /\ test embeddingGrammar "1,,2" = false /\
  test embeddingGrammar "1, 2" = false /\ test embeddingGrammar "1e5" = false /\
  test embeddingGrammar "[1,2]" = false.
Proof. repeat split. Qed.

(** ** Embedding repair *)

(** A character of a clean embedding string starts none of the four
    expressions of [cleanupMalformedData], is not white space and is not an
    opening brace. *)
Lemma numChar_inert (c : ascii) :
  isNumChar c = true ->
  firstChars nestedPrefix c = false /\ firstChars methodSuffix c = false /\
  firstChars arrayBrackets c = false /\ firstChars outerQuotes c = false /\
  isWhiteSpace c = false /\ Ascii.eqb "{" c = false.
Proof.
  destruct c as [[] [] [] [] [] [] [] []]; vm_compute; intros H;
    try discriminate H; repeat split.
Qed.

Lemma grammar_alphabet (c : ascii) :
  alphabet decimalList c = true -> isNumChar c = true.
Proof.
  destruct c as [[] [] [] [] [] [] [] []]; vm_compute; intros H;
    try discriminate H; reflexivity.
Qed.

(** The test of [cleanupExistingData] accepts exactly the comma-separated
    lists of signed decimals. *)
Lemma grammar_test_correct (s : string) :
  test embeddingGrammar s = true <-> Matches decimalList s.
Proof. by apply test_whole_string. Qed.

(** A string accepted by the grammar is made of digits, dots, commas and
    minus signs. *)
Lemma grammar_chars (s : string) :
  test embeddingGrammar s = true -> allChars isNumChar s = true.
Proof.
  intros H. apply grammar_test_correct, Matches_alphabet in H.
  eapply allChars_mono; [|exact H]. exact grammar_alphabet.
Qed.

Lemma trim_id (s : string) :
  allChars (fun c => negb (isWhiteSpace c)) s = true -> trim s = s.
Proof.
  intros H. unfold trim.
  assert (trimStart s = s) as ->.
  { destruct s as [|c s]; [done|]. simpl in *.
    apply andb_true_iff in H as [Hc _]. by destruct (isWhiteSpace c). }
  induction s as [|c s IH]; [done|]. simpl in *.
  apply andb_true_iff in H as [Hc Hs]. rewrite (IH Hs).
  destruct s; [by destruct (isWhiteSpace c) | done].
Qed.

Lemma includes_first_absent (p : ascii -> bool) (c : ascii) (t s : string) :
  (forall d, p d = true -> Ascii.eqb c d = false) ->
  allChars p s = true -> includes s (String c t) = false.
Proof.
  intros Hp. induction s as [|d s IH]; [done|]. simpl.
  intros [Hd Hs]%andb_true_iff. by rewrite (Hp d Hd), IH.
Qed.

(** On a string of such characters [cleanupMalformedData] changes nothing. *)
Lemma cleanupMalformedData_inert (s : string) :
  allChars isNumChar s = true -> cleanupMalformedData s = s.
Proof.
  intros H. unfold cleanupMalformedData.
  rewrite (removeAll_no_first nestedPrefix isNumChar), (removeAll_no_first methodSuffix isNumChar),
    (removeAll_no_first arrayBrackets isNumChar), (removeAll_no_first outerQuotes isNumChar);
    try done; try (intros c Hc; by apply numChar_inert in Hc as (?&?&?&?&?&?)).
  apply trim_id. eapply allChars_mono; [|exact H].
  intros c Hc. apply numChar_inert in Hc as (_&_&_&_&->&_). done.
Qed.

Lemma clean_has_no_wrapper (s : string) :
  allChars isNumChar s = true -> includes s embeddingWrapper = false.
Proof.
  intros H. change embeddingWrapper with (String "{" embeddingKey).
  apply (includes_first_absent isNumChar); [|done].
  intros d Hd. by apply numChar_inert in Hd as (_&_&_&_&_&?).
Qed.

(** C5. A string accepted by the strict grammar is returned unchanged by the
    cleanup function and by the repair path (it cannot contain the wrapper),
    and the malformed sample
    [[{\x22embedding\x22:\x22[{\x22embedding\x22:\x220.1,0.2,0.3\x22,\x22method\x22:\x22x\x22}]
    is repaired to exactly [0.1,0.2,0.3]. *)
Theorem repair_roundtrip (clean : string) :
  test embeddingGrammar clean = true ->
  (includes clean embeddingWrapper = false /\
   cleanupMalformedData clean = clean /\ cleanupExistingData clean = Some clean) /\
  (cleanupMalformedData malformedSample = "0.1,0.2,0.3" /\
   cleanupExistingData malformedSample = Some "0.1,0.2,0.3").
Proof.
  intros H. apply grammar_chars in H. split.
  - split; [by apply clean_has_no_wrapper|].
    split; [by apply cleanupMalformedData_inert|].
    unfold cleanupExistingData. by rewrite clean_has_no_wrapper.
  - split; vm_compute; reflexivity.
Qed.

Lemma repair_roundtrip_witness :
  test embeddingGrammar "0.25,-3,17.5" = true /\
  (includes "0.25,-3,17.5" embeddingWrapper = false /\
   cleanupMalformedData "0.25,-3,17.5" = "0.25,-3,17.5" /\
   cleanupExistingData "0.25,-3,17.5" = Some "0.25,-3,17.5") /\
  (cleanupMalformedData malformedSample = "0.1,0.2,0.3" /\
   cleanupExistingData malformedSample = Some "0.1,0.2,0.3").
Proof.
  split; [vm_compute; reflexivity|].
  apply (repair_roundtrip "0.25,-3,17.5"). vm_compute; reflexivity.
Defined.

(** The two outcomes of the repair of a wrapped string. *)
Example repair_abandoned :
  cleanupExistingData ("[" +:+ embeddingWrapper +:+ String dquote "0.1;0.2") = None.
Proof. vm_compute. reflexivity. Qed.

(** C6, as stated, fails: a string without the wrapper is handed back as it
    is, whether or not it is a vector. *)
Lemma unwrapped_garbage_returned :
  cleanupExistingData "TypeError: Failed to fetch" = Some "TypeError: Failed to fetch" /\
  test embeddingGrammar "TypeError: Failed to fetch" = false.
Proof. split; vm_compute; reflexivity. Qed.

(** C6, amended. For a string that contains the wrapper, the repair path
    returns null or a non-empty string accepted by the strict grammar (the
    cleaned value); a string without the wrapper is returned unchanged and
    unchecked. *)
Theorem repair_result (embeddingValue : string) :
  if includes embeddingValue embeddingWrapper
  then cleanupExistingData embeddingValue = None \/
       exists cleanValue,
         cleanupExistingData embeddingValue = Some cleanValue /\
         cleanValue = cleanupMalformedData embeddingValue /\
         cleanValue <> "" /\
         test embeddingGrammar cleanValue = true /\
         allChars isNumChar cleanValue = true
  else cleanupExistingData embeddingValue = Some embeddingValue.
Proof.
  unfold cleanupExistingData.
  destruct (includes embeddingValue embeddingWrapper); [|reflexivity].
  cbv zeta.
  destruct (String.eqb_spec (cleanupMalformedData embeddingValue) "") as [E|E]; simpl;
    [by left|].
  destruct (test embeddingGrammar (cleanupMalformedData embeddingValue)) eqn:T; [|by left].
  right. exists (cleanupMalformedData embeddingValue).
  repeat split; try done. by apply grammar_chars.
Qed.

(** ** Self-similarity of the fallback embedding *)

Lemma is_zero_cases (x : float) :
  is_zero x = true -> x = 0%float \/ x = (-0)%float.
Proof.
  unfold is_zero. rewrite FloatAxioms.eqb_spec.
  change (Prim2SF PrimFloat.zero) with (S754_zero false).
  destruct (Prim2SF x) as [s|s| |s m e] eqn:E.
  - intros _. apply (f_equal SF2Prim) in E. rewrite SF2Prim_Prim2SF in E.
    subst x. destruct s; auto.
  - destruct s; discriminate.
  - discriminate.
  - destruct s; discriminate.
Qed.

(** On a vector compared with itself the three accumulators of the loop
    coincide. *)
Lemma accumulate_self (v : list float) (s0 : float) :
  fold_left accumulate (combine v v) {| dotProduct := s0; normA := s0; normB := s0 |}
  = let s := fold_left (fun s x => (s + x * x)%float) v s0 in
    {| dotProduct := s; normA := s; normB := s |}.
Proof.
  revert s0. induction v as [|x v IH]; intros s0; [reflexivity|].
  simpl. by rewrite IH.
Qed.

Lemma sumOfSquares_zero (v : list float) :
  forallb is_zero v = true -> sumOfSquares v = 0%float.
Proof.
  unfold sumOfSquares. induction v as [|x v IH]; [reflexivity|]. simpl.
  intros [Hx Hv]%andb_true_iff.
  destruct (is_zero_cases x Hx) as [-> | ->]; exact (IH Hv).
Qed.

(** The seed of 'idjftna' at index 0 hashes to 0, the sine of 0 is 0, and
    the only component of the embedding is the text 0.000000. *)
Example zero_hash : hashFrom 0 ("idjftna" +:+ pretty 0%nat) = 0.
Proof. vm_compute. reflexivity. Qed.

(** Two equal non-zero components: the quotient is one unit in the last
    place below 1. *)
Example self_similarity_rounding :
  mapM ToNumber ["0.000024"; "0.000024"] = Some [0.000024; 0.000024]%float /\
  snd (_cosineSimilarity {| similarityCalculations := 0 |}
         [0.000024; 0.000024]%float [0.000024; 0.000024]%float)
  = Returned 0.99999999999999978%float.
Proof. split; vm_compute; reflexivity. Qed.

(** C7. The self-similarity of a fallback embedding is to be 1.0, and the
    unit test of the technical documentation asserts it with [===]. The
    fallback embedding of 'idjftna' with one dimension is the zero vector,
    and [_cosineSimilarity], which divides by the product of the norms
    without a test for zero, returns 0/0, NaN, on it. Only the sine of 0 is
    needed, which is 0 in every implementation. *)
Lemma zero_embedding_self_similarity_nan :
  generateSimpleEmbedding Math_sin "idjftna" 1 = Some ["0.000000"] /\
  fallbackSelfSimilarity Math_sin "idjftna" 1 = Some (Returned nan) /\
  fallbackSelfSimilarity Math_sin "idjftna" 1 <> Some (Returned 1%float).
Proof.
  assert (fallbackSelfSimilarity Math_sin "idjftna" 1 = Some (Returned nan)) as E
    by (vm_compute; reflexivity).
  split; [vm_compute; reflexivity|]. split; [exact E|].
  rewrite E. discriminate.
Qed.

(** The value in general. Whatever the implementation of the sine, the text
    and the dimension are, the cosine similarity of the fallback embedding
    with itself is [s / (sqrt s * sqrt s)], [s] being the sum of the squared
    components as the loop accumulates it: on a vector compared with itself
    the numerator and both norms coincide and the call does not throw. The
    value is NaN when every component is zero. *)
Theorem self_similarity_value (sin : float -> option float) (text : string)
    (dimensions : nat) (metrics : Metrics) (v : list float) :
  let s := sumOfSquares v in
  snd (_cosineSimilarity metrics v v) = Returned (s / (sqrt s * sqrt s))%float /\
  (if forallb is_zero v
   then snd (_cosineSimilarity metrics v v) = Returned nan
   else True) /\
  fallbackSelfSimilarity sin text dimensions
  = match embeddingNumbers sin text dimensions with
    | Some w =>
        let s := sumOfSquares w in Some (Returned (s / (sqrt s * sqrt s))%float)
    | None => None
    end.
Proof.
  intros s.
  assert (forall m w, snd (_cosineSimilarity m w w)
                      = Returned (sumOfSquares w
                                  / (sqrt (sumOfSquares w) * sqrt (sumOfSquares w)))%float) as E.
  { intros m w. unfold _cosineSimilarity. rewrite Nat.eqb_refl. cbn [negb snd].
    by rewrite accumulate_self. }
  split; [apply E|]. split.
  - destruct (forallb is_zero v) eqn:Z; [|done].
    rewrite E. by rewrite (sumOfSquares_zero v Z).
  - unfold fallbackSelfSimilarity.
    destruct (embeddingNumbers sin text dimensions) as [w|]; [|done].
    by rewrite E.
Qed.

(** * Further properties of linkgap.js *)

(** ** The link walk *)

Local Opaque startsWith includes isInternal.

Lemma analyzeLink_cases (domain : string) (la : LinkData) (link : Link) :
  let la' := analyzeLink domain la link in
  contextual la' = contextual la + boolZ (isContextualLink domain link) /\
  template la' = template la + boolZ (isTemplateLink domain link) /\
  navigation la' = navigation la + boolZ (isTemplateLinkIn ctxNavigation domain link) /\
  footer la' = footer la + boolZ (isTemplateLinkIn ctxFooter domain link) /\
  external la' = external la + boolZ (isExternalLink domain link) /\
  nofollow la' = nofollow la + boolZ (isNofollowContextual domain link) /\
  uniqueContextual la'
    = list_to_set (hrefsOf (isContextualLink domain) [link]) ∪ uniqueContextual la /\
  uniqueTemplate la'
    = list_to_set (hrefsOf (isTemplateLink domain) [link]) ∪ uniqueTemplate la.
Proof.
  cbv zeta.
  unfold analyzeLink, isNofollowContextual, isTemplateLink, isContextualLink,
    isTemplateLinkIn, isExternalLink, hrefsOf, walkedHref, boolZ.
  simpl. destruct (href link) as [h|]; simpl.
  2: { rewrite !(left_id_L ∅ (∪)). repeat split; lia. }
  destruct (String.eqb h "#" || String.eqb h ""); simpl.
  { rewrite !(left_id_L ∅ (∪)). repeat split; lia. }
  destruct (isInternal domain h); simpl.
  - destruct (linkContext link); simpl;
      try destruct (includes (default "" (rel link)) "nofollow");
      simpl; rewrite ?(right_id_L ∅ (∪)), ?(left_id_L ∅ (∪)); repeat split; lia.
  - destruct (startsWith h "http"); simpl;
      rewrite !(left_id_L ∅ (∪)); repeat split; lia.
Qed.

Local Transparent startsWith includes isInternal.

Lemma countLinks_cons (p : Link -> bool) (link : Link) (links : list Link) :
  countLinks p (link :: links) = boolZ (p link) + countLinks p links.
Proof. unfold countLinks, boolZ. simpl. destruct (p link); simpl; lia. Qed.

Lemma hrefsOf_cons (p : Link -> bool) (link : Link) (links : list Link) :
  hrefsOf p (link :: links) = hrefsOf p [link] ++ hrefsOf p links.
Proof. unfold hrefsOf. simpl. by destruct (if p link then _ else _). Qed.

Lemma analyzeLinks_from (domain : string) (links : list Link) (la : LinkData) :
  let la' := fold_left (analyzeLink domain) links la in
  contextual la' = contextual la + countLinks (isContextualLink domain) links /\
  template la' = template la + countLinks (isTemplateLink domain) links /\
  navigation la' = navigation la + countLinks (isTemplateLinkIn ctxNavigation domain) links /\
  footer la' = footer la + countLinks (isTemplateLinkIn ctxFooter domain) links /\
  external la' = external la + countLinks (isExternalLink domain) links /\
  nofollow la' = nofollow la + countLinks (isNofollowContextual domain) links /\
  uniqueContextual la'
    = list_to_set (hrefsOf (isContextualLink domain) links) ∪ uniqueContextual la /\
  uniqueTemplate la'
    = list_to_set (hrefsOf (isTemplateLink domain) links) ∪ uniqueTemplate la.
Proof.
  cbv zeta. revert la. induction links as [|link links IH]; intros la.
  - unfold countLinks, hrefsOf. simpl.
    rewrite !(left_id_L ∅ (∪)). repeat split; lia.
  - cbn [fold_left].
    destruct (analyzeLink_cases domain la link) as (H1&H2&H3&H4&H5&H6&H7&H8).
    destruct (IH (analyzeLink domain la link)) as (I1&I2&I3&I4&I5&I6&I7&I8).
    rewrite !countLinks_cons, (hrefsOf_cons (isContextualLink domain)),
      (hrefsOf_cons (isTemplateLink domain)), !list_to_set_app_L.
    rewrite I1, I2, I3, I4, I5, I6, I7, I8, H1, H2, H3, H4, H5, H6, H7, H8.
    repeat split; try lia.
    + rewrite (assoc_L (∪)). f_equal. apply (comm_L (∪)).
    + rewrite (assoc_L (∪)). f_equal. apply (comm_L (∪)).
Qed.

(** The counters of the walk are the numbers of links of each kind, and the
    two sets hold exactly the hrefs of the contextual and of the template
    links. *)
Lemma analyzeLinksAdvanced_counts (domain : string) (allLinks : list Link) :
  let la := analyzeLinksAdvanced domain allLinks in
  contextual la = countLinks (isContextualLink domain) allLinks /\
  template la = countLinks (isTemplateLink domain) allLinks /\
  navigation la = countLinks (isTemplateLinkIn ctxNavigation domain) allLinks /\
  footer la = countLinks (isTemplateLinkIn ctxFooter domain) allLinks /\
  external la = countLinks (isExternalLink domain) allLinks /\
  nofollow la = countLinks (isNofollowContextual domain) allLinks /\
  uniqueContextual la = list_to_set (hrefsOf (isContextualLink domain) allLinks) /\
  uniqueTemplate la = list_to_set (hrefsOf (isTemplateLink domain) allLinks).
Proof.
  destruct (analyzeLinks_from domain allLinks emptyLinkData) as (H1&H2&H3&H4&H5&H6&H7&H8).
  unfold analyzeLinksAdvanced. cbv zeta.
  rewrite H1, H2, H3, H4, H5, H6, H7, H8. cbn [emptyLinkData contextual template navigation
    footer external nofollow uniqueContextual uniqueTemplate].
  rewrite !(right_id_L ∅ (∪)). repeat split; lia.
Qed.

Lemma countLinks_nonneg (p : Link -> bool) (links : list Link) : 0 <= countLinks p links.
Proof. unfold countLinks. lia. Qed.

Lemma countLinks_le (p q : Link -> bool) (links : list Link) :
  (forall l, p l = true -> q l = true) -> countLinks p links <= countLinks q links.
Proof.
  intros Hpq. induction links as [|l links IH]; [done|].
  rewrite !countLinks_cons. unfold boolZ.
  destruct (p l) eqn:E; [rewrite (Hpq l E); lia|]. destruct (q l); lia.
Qed.

Lemma countLinks_length (p : Link -> bool) (links : list Link) :
  countLinks p links <= Z.of_nat (length links).
Proof. unfold countLinks. pose proof (List.filter_length_le p links). lia. Qed.

Lemma countLinks_sum3 (p q r : Link -> bool) (links : list Link) :
  (forall l, boolZ (p l) + boolZ (q l) + boolZ (r l) <= 1) ->
  countLinks p links + countLinks q links + countLinks r links
    <= Z.of_nat (length links).
Proof.
  intros H. induction links as [|l links IH]; [done|].
  rewrite !countLinks_cons. specialize (H l). simpl length. lia.
Qed.

Lemma size_list_to_set_le (l : list string) :
  (size (list_to_set l : gset string) <= length l)%nat.
Proof.
  induction l as [|x l IH]; [by rewrite list_to_set_nil, size_empty|].
  rewrite list_to_set_cons, size_union_alt, size_singleton. cbn [length].
  pose proof (subseteq_size (list_to_set l ∖ {[x]}) (list_to_set l : gset string)
                ltac:(by apply subseteq_difference_l)). lia.
Qed.

Lemma hrefsOf_length (p : Link -> bool) (links : list Link) :
  Z.of_nat (length (hrefsOf p links)) <= countLinks p links.
Proof.
  induction links as [|l links IH]; [done|].
  rewrite hrefsOf_cons, countLinks_cons, length_app. unfold hrefsOf at 1, boolZ. simpl.
  destruct (p l); [destruct (walkedHref l)|]; simpl; lia.
Qed.

(** X1. The invariants of the link data built by the walk: the counters are
    non-negative, the template links are the navigation and the footer
    links, the nofollow and the unique counts never exceed the counts they
    refine, a page with a contextual link has a non-empty set of targets, and
    no link is counted twice. *)
Theorem analyzeLinksAdvanced_invariant (domain : string) (allLinks : list Link) :
  let la := analyzeLinksAdvanced domain allLinks in
  0 <= contextual la /\ 0 <= navigation la /\ 0 <= footer la /\ 0 <= external la /\
  template la = navigation la + footer la /\
  0 <= nofollow la <= contextual la /\
  Z.of_nat (size (uniqueContextual la)) <= contextual la /\
  Z.of_nat (size (uniqueTemplate la)) <= template la /\
  (contextual la = 0 <-> uniqueContextual la = ∅) /\
  contextual la + template la + external la <= Z.of_nat (length allLinks).
Proof.
  destruct (analyzeLinksAdvanced_counts domain allLinks) as (H1&H2&H3&H4&H5&H6&H7&H8).
  cbv zeta in *. rewrite H1, H2, H3, H4, H5, H6, H7, H8.
  repeat split; try apply countLinks_nonneg.
  - clear. induction allLinks as [|l links IH]; [done|]. rewrite !countLinks_cons, IH.
    unfold isTemplateLink, isTemplateLinkIn, boolZ.
    destruct (walkedHref l) as [h|]; [destruct (isInternal domain h)|];
      destruct (linkContext l); simpl; lia.
  - apply countLinks_le. unfold isNofollowContextual. intros l H.
    by apply andb_true_iff in H as [? _].
  - pose proof (size_list_to_set_le (hrefsOf (isContextualLink domain) allLinks)).
    pose proof (hrefsOf_length (isContextualLink domain) allLinks). lia.
  - pose proof (size_list_to_set_le (hrefsOf (isTemplateLink domain) allLinks)).
    pose proof (hrefsOf_length (isTemplateLink domain) allLinks). lia.
  - intros H0.
    pose proof (size_list_to_set_le (hrefsOf (isContextualLink domain) allLinks)).
    pose proof (hrefsOf_length (isContextualLink domain) allLinks).
    apply leibniz_equiv, size_empty_iff. lia.
  - intros H0. clear -H0.
    induction allLinks as [|l links IH]; [done|].
    rewrite hrefsOf_cons, list_to_set_app_L in H0. rewrite countLinks_cons.
    apply empty_union_L in H0 as [Ha Hb]. rewrite (IH Hb).
    unfold hrefsOf, isContextualLink, boolZ in *. simpl in Ha.
    destruct (walkedHref l) as [h|]; [|done].
    destruct (isInternal domain h && _); [|done].
    simpl in Ha. set_solver.
  - apply countLinks_sum3. intros l.
    unfold isContextualLink, isTemplateLink, isTemplateLinkIn, isExternalLink, boolZ.
    destruct (walkedHref l) as [h|]; [|simpl; lia].
    destruct (isInternal domain h), (linkContext l), (startsWith h "http"); simpl; lia.
Qed.

(** X2. A target is in the set of unique contextual targets exactly when it
    is the href of a link of the page that was walked, is internal and was
    classified contextual. *)
Theorem uniqueContextual_membership (domain : string) (allLinks : list Link) (h : string) :
  h ∈ uniqueContextual (analyzeLinksAdvanced domain allLinks) <->
  exists link, link ∈ allLinks /\ href link = Some h /\ h <> "#" /\ h <> "" /\
               isInternal domain h = true /\ linkContext link = ctxContextual.
Proof.
  destruct (analyzeLinksAdvanced_counts domain allLinks) as (_&_&_&_&_&_&H7&_).
  cbv zeta in H7. rewrite H7, elem_of_list_to_set. unfold hrefsOf.
  rewrite list_elem_of_omap. unfold isContextualLink, walkedHref.
  split.
  - intros (link & Hin & H). exists link. split; [done|].
    destruct (href link) as [h'|]; [|done].
    destruct (String.eqb_spec h' "#"), (String.eqb_spec h' ""); simpl in H; try done.
    destruct (isInternal domain h') eqn:Ei; simpl in H; [|done].
    destruct (linkContext link); simpl in H; try done.
    injection H as ->. done.
  - intros (link & Hin & Hh & H1 & H2 & Hi & Hc). exists link. split; [done|].
    rewrite Hh.
    destruct (String.eqb_spec h "#"), (String.eqb_spec h ""); simpl; try done.
    by rewrite Hi, Hc.
Qed.

(** X3. For a page of at most 200 links the link diversity of the walked
    links is 'N/A' or a whole percentage between 0 and 100. *)
Theorem link_diversity_of_walk (domain : string) (allLinks : list Link) :
  (length allLinks <= 200)%nat ->
  let la := analyzeLinksAdvanced domain allLinks in
  calculateLinkDiversity la = Some "N/A" \/
  exists n : Z, 0 <= n <= 100 /\ calculateLinkDiversity la = Some (pretty n +:+ "%").
Proof.
  intros Hlen la.
  destruct (analyzeLinksAdvanced_counts domain allLinks) as (Hc&_&_&_&_&_&Hu&_).
  fold la in Hc, Hu.
  unfold calculateLinkDiversity.
  destruct (Z.eqb_spec (contextual la) 0) as [|Hne]; [by left|]. right.
  pose proof (countLinks_nonneg (isContextualLink domain) allLinks).
  pose proof (countLinks_length (isContextualLink domain) allLinks).
  pose proof (size_list_to_set_le (hrefsOf (isContextualLink domain) allLinks)).
  pose proof (hrefsOf_length (isContextualLink domain) allLinks).
  rewrite <- Hu, <- Hc in *. clearbody la.
  assert (1 <= contextual la <= 200) as Hrange by lia.
  assert (0 <= Z.of_nat (size (uniqueContextual la)) <= contextual la) as Hsize by lia.
  pose proof (diversityCheck_holds _ _ Hrange Hsize) as Hd.
  unfold diversityCheck in Hd. cbv zeta in Hd.
  destruct (exactInteger _) as [n|]; [|discriminate].
  destruct (NumberToString _) as [str|]; [|discriminate].
  apply andb_true_iff in Hd as [Hd _]. apply andb_true_iff in Hd as [Hd1 Hd2].
  apply String.eqb_eq in Hd1. apply Z.leb_le in Hd2. subst str.
  exists n. split; [|reflexivity]. nia.
Qed.

Lemma link_diversity_of_walk_witness :
  (length [ {| href := Some "/a"; rel := None; linkContext := ctxContextual |};
            {| href := Some "/a"; rel := None; linkContext := ctxContextual |};
            {| href := Some "/b"; rel := None; linkContext := ctxContextual |} ] <= 200)%nat /\
  (calculateLinkDiversity
     (analyzeLinksAdvanced "example.com"
        [ {| href := Some "/a"; rel := None; linkContext := ctxContextual |};
          {| href := Some "/a"; rel := None; linkContext := ctxContextual |};
          {| href := Some "/b"; rel := None; linkContext := ctxContextual |} ])
   = Some "N/A" \/
   exists n : Z, 0 <= n <= 100 /\
     calculateLinkDiversity
       (analyzeLinksAdvanced "example.com"
          [ {| href := Some "/a"; rel := None; linkContext := ctxContextual |};
            {| href := Some "/a"; rel := None; linkContext := ctxContextual |};
            {| href := Some "/b"; rel := None; linkContext := ctxContextual |} ])
     = Some (pretty n +:+ "%")).
Proof.
  assert (length [ {| href := Some "/a"; rel := None; linkContext := ctxContextual |};
            {| href := Some "/a"; rel := None; linkContext := ctxContextual |};
            {| href := Some "/b"; rel := None; linkContext := ctxContextual |} ] <= 200)%nat
    as H by (simpl; lia).
  split; [exact H|].
  exact (link_diversity_of_walk "example.com" _ H).
Defined.

Example link_diversity_of_walk_value :
  calculateLinkDiversity
    (analyzeLinksAdvanced "example.com"
       [ {| href := Some "/a"; rel := None; linkContext := ctxContextual |};
         {| href := Some "/a"; rel := None; linkContext := ctxContextual |};
         {| href := Some "/b"; rel := None; linkContext := ctxContextual |} ])
  = Some "67%".
Proof. vm_compute. reflexivity. Qed.

(** ** More on the scorer *)

Lemma breakdownTotal_app (bs : list BreakdownEntry) (b : BreakdownEntry) :
  breakdownTotal (bs ++ [b]) = breakdownTotal bs + entryPoints b.
Proof. induction bs as [|x bs IH]; simpl; [lia|]. rewrite IH. lia. Qed.

(** X4. The clamp to 100 never takes effect: the score is the sum of the
    points listed in the breakdown, and it is at most 90. *)
Theorem score_is_breakdown_total (linkData : LinkData) (contentData : ContentData)
    (pageType : string) (urlDepth : Z) :
  let r := calculateContextualOpportunity linkData contentData pageType urlDepth in
  score r = breakdownTotal (scoreBreakdown r) /\ score r <= 90.
Proof.
  unfold calculateContextualOpportunity.
  destruct (words contentData <? 10); [split; [reflexivity | simpl; lia]|].
  destruct (words contentData <? CONFIG.MIN_WORDS_FOR_LINKS);
    [split; [reflexivity | simpl; lia]|].
  cbv zeta. cbn [score scoreBreakdown].
  unfold depthStep, duplicateStep, pageTypeStep, overLinkStep, lowDensityStep, gapStep,
    duplicateLinkIssue.
  pose proof (pageTypeWeights_bounds pageType) as Hw.
  destruct (contextualDensity linkData contentData <? CONFIG.MIN_CONTEXTUAL_DENSITY)%float eqn:L;
    [rewrite (density_exclusive _ L)
    |destruct (CONFIG.MAX_CONTEXTUAL_DENSITY <? contextualDensity linkData contentData)%float];
    destruct (Z.eqb_spec (contextual linkData) 0) as [E0|E0];
    destruct (pageTypeWeights !! pageType) as [w|];
    try (specialize (Hw w eq_refl));
    try destruct (Z.ltb_spec 0 (minLinks w));
    try destruct (Z.ltb_spec (contextual linkData) (minLinks w));
    destruct (Z.ltb_spec (contextual linkData) (idealLinks contentData));
    destruct (Z.ltb_spec 5 (contextual linkData));
    destruct (uniqueRatio linkData <? 0.7)%float;
    destruct (Z.ltb_spec 3 urlDepth);
    cbn [andb setGap addPoints opportunityScore accBreakdown app breakdownTotal fold_right
         entryPoints];
    try lia.
Qed.

Section GapFacts.
Variables (linkData : LinkData) (contentData : ContentData)
          (pageType : string) (urlDepth : Z).

Lemma lowDensityStep_gap a : accGap (lowDensityStep linkData contentData a) = accGap a.
Proof. unfold lowDensityStep. by destruct (_ <? _)%float. Qed.

Lemma overLinkStep_gap a : accGap (overLinkStep linkData contentData a) = accGap a.
Proof. unfold overLinkStep. by destruct (_ <? _)%float. Qed.

Lemma pageTypeStep_gap a : accGap (pageTypeStep linkData pageType a) = accGap a.
Proof.
  unfold pageTypeStep. destruct (pageTypeWeights !! pageType); [|done].
  by destruct (_ <? _).
Qed.

Lemma duplicateStep_gap a : accGap (duplicateStep linkData a) = accGap a.
Proof. unfold duplicateStep. by destruct duplicateLinkIssue. Qed.

Lemma depthStep_gap a : accGap (depthStep urlDepth a) = accGap a.
Proof. unfold depthStep. by destruct (_ <? _). Qed.

End GapFacts.

(** X5. The gap analysis is consistent: currentLinks is the contextual count;
    a gap is reported exactly when the severity is not none; there is no gap
    exactly when the page has at least 50 words and its contextual links, not
    zero, reach the ideal number; the severity is critical exactly for a page
    below 10 words or a page of at least 50 words without contextual link,
    and high exactly when at least 3 links are missing on such a page. *)
Theorem gap_analysis_consistent (linkData : LinkData) (contentData : ContentData)
    (pageType : string) (urlDepth : Z) :
  let g := gapAnalysis (calculateContextualOpportunity linkData contentData pageType urlDepth) in
  currentLinks g = contextual linkData /\
  (hasGap g = true <-> severity g <> none) /\
  (hasGap g = false <->
     50 <= words contentData /\ contextual linkData <> 0 /\
     idealLinks contentData <= contextual linkData) /\
  (severity g = critical <->
     words contentData < 10 \/ (50 <= words contentData /\ contextual linkData = 0)) /\
  (severity g = sevHigh <->
     50 <= words contentData /\ contextual linkData <> 0 /\
     3 <= idealLinks contentData - contextual linkData).
Proof.
  unfold calculateContextualOpportunity.
  change CONFIG.MIN_WORDS_FOR_LINKS with 50.
  destruct (Z.ltb_spec (words contentData) 10);
    [cbn; repeat split; intros; try done; try lia; auto|].
  destruct (Z.ltb_spec (words contentData) 50);
    [cbn; repeat split; intros; try done; try lia; intuition (try done; try lia)|].
  cbv zeta. cbn [gapAnalysis].
  rewrite depthStep_gap, duplicateStep_gap, pageTypeStep_gap, overLinkStep_gap,
    lowDensityStep_gap.
  unfold gapStep.
  destruct (Z.eqb_spec (contextual linkData) 0);
    [|destruct (Z.ltb_spec (contextual linkData) (idealLinks contentData));
      [destruct (Z.leb_spec 3 (idealLinks contentData - contextual linkData))|]];
    cbn; repeat split; intros; try done; try lia; intuition (try done; try lia).
Qed.

Lemma pageTypeWeights_weight_min (k : string) (w : PageWeight) :
  pageTypeWeights !! k = Some w -> 10 <= weight w.
Proof.
  unfold pageTypeWeights. intros H.
  repeat (apply lookup_insert_Some in H as [[_ <-]|[_ H]]; [simpl; lia|]).
  by rewrite lookup_empty in H.
Qed.

(** X6. Every entry of the breakdown carries at least 3 points and there are
    at most 4 entries; the opportunities are as many as the entries, cut at 3;
    the list of opportunities is empty (the report then shows 'No significant
    issues') exactly when the score is 0. *)
Theorem opportunities_match_breakdown (linkData : LinkData) (contentData : ContentData)
    (pageType : string) (urlDepth : Z) :
  let r := calculateContextualOpportunity linkData contentData pageType urlDepth in
  Forall (fun b => 3 <= entryPoints b) (scoreBreakdown r) /\
  (length (scoreBreakdown r) <= 4)%nat /\
  length (opportunities r) = Nat.min 3 (length (scoreBreakdown r)) /\
  (opportunities r = [] <-> score r = 0).
Proof.
  unfold calculateContextualOpportunity.
  destruct (words contentData <? 10).
  { cbn. split; [apply List.Forall_cons; [cbn; lia | apply List.Forall_nil]|]. repeat split; try done; lia. }
  destruct (words contentData <? CONFIG.MIN_WORDS_FOR_LINKS).
  { cbn. split; [apply List.Forall_cons; [cbn; lia | apply List.Forall_nil]|]. repeat split; try done; lia. }
  cbv zeta. cbn [score scoreBreakdown opportunities].
  unfold depthStep, duplicateStep, pageTypeStep, overLinkStep, lowDensityStep, gapStep,
    duplicateLinkIssue.
  pose proof (pageTypeWeights_bounds pageType) as Hw.
  pose proof (pageTypeWeights_weight_min pageType) as Hm.
  destruct (contextualDensity linkData contentData <? CONFIG.MIN_CONTEXTUAL_DENSITY)%float eqn:L;
    [rewrite (density_exclusive _ L)
    |destruct (CONFIG.MAX_CONTEXTUAL_DENSITY <? contextualDensity linkData contentData)%float];
    destruct (Z.eqb_spec (contextual linkData) 0) as [E0|E0];
    destruct (pageTypeWeights !! pageType) as [w|];
    try (specialize (Hw w eq_refl); specialize (Hm w eq_refl));
    try destruct (Z.ltb_spec (contextual linkData) (minLinks w));
    destruct (Z.ltb_spec (contextual linkData) (idealLinks contentData));
    destruct (Z.ltb_spec 5 (contextual linkData));
    destruct (uniqueRatio linkData <? 0.7)%float;
    destruct (Z.ltb_spec 3 urlDepth);
    cbn [andb setGap addPoints opportunityScore accBreakdown accOpportunities app
         firstn length Nat.min];
    try lia;
    (split; [repeat (apply List.Forall_cons; [cbn [entryPoints]; lia|]); apply List.Forall_nil|]);
    (split; [lia|]); (split; [reflexivity|]);
    (split; [intros; try discriminate; lia | intros; try reflexivity; lia]).
Qed.

(** ** External links and the report *)

(** Zero divided by any double is a zero or NaN, never above the warning
    ratio. *)
Lemma zero_ratio_not_above (y : float) :
  (CONFIG.EXTERNAL_WARNING_RATIO <? Z2F 0 / y)%float = false.
Proof.
  rewrite ltb_spec, div_spec.
  change (Prim2SF (Z2F 0)) with (S754_zero false).
  change (Prim2SF CONFIG.EXTERNAL_WARNING_RATIO) with (S754_finite false 4503599627370496 (-51)).
  by destruct (Prim2SF y) as [s|s| |s m e]; try destruct s.
Qed.

(** X7. What [checkExternalLinkBalance] reports: a high ratio only for a page
    with contextual links and at least one external link, external-only
    exactly for a page without contextual links and more than 10 external
    ones; the counts shown are those of the link data. *)
Theorem external_balance_cases (linkData : LinkData) :
  match checkExternalLinkBalance linkData with
  | HighExternalRatio e c =>
      e = external linkData /\ c = contextual linkData /\ 0 < c /\ e <> 0
  | ExternalOnly e =>
      e = external linkData /\ contextual linkData = 0 /\ 10 < e
  | Balanced =>
      ~ (contextual linkData = 0 /\ 10 < external linkData)
  end.
Proof.
  unfold checkExternalLinkBalance. cbv zeta.
  destruct (Z.ltb_spec 0 (contextual linkData)) as [Hc|Hc]; cbn [andb].
  - destruct (_ <? _)%float eqn:E.
    + repeat split; [done|]. intros E0. rewrite E0, zero_ratio_not_above in E. discriminate.
    + destruct (Z.eqb_spec (contextual linkData) 0); [lia|]. cbn [andb]. lia.
  - destruct (Z.eqb_spec (contextual linkData) 0), (Z.ltb_spec 10 (external linkData));
      cbn [andb]; lia.
Qed.

Example external_balance_above : 
  checkExternalLinkBalance
    {| contextual := 2; template := 0; navigation := 0; footer := 0; external := 5;
       nofollow := 0; uniqueContextual := ∅; uniqueTemplate := ∅ |}
  = HighExternalRatio 5 2.
Proof. vm_compute. reflexivity. Qed.

Example external_balance_at_ratio : 
  checkExternalLinkBalance
    {| contextual := 2; template := 0; navigation := 0; footer := 0; external := 4;
       nofollow := 0; uniqueContextual := ∅; uniqueTemplate := ∅ |}
  = Balanced.
Proof. vm_compute. reflexivity. Qed.

(** X8. The report of a page below 50 words has priority HIGH and shows as
    link gap the negated contextual count, since no recommendation was
    computed; from 50 words on the link gap is either absent, when the
    contextual links, not zero, reach the ideal number, or the positive
    difference between the ideal number and the contextual count. *)
Theorem report_link_gap (linkData : LinkData) (contentData : ContentData)
    (pageType : string) (urlDepth : Z) :
  let r := calculateContextualOpportunity linkData contentData pageType urlDepth in
  if words contentData <? 50
  then linkPriority r = priorityHigh /\ linkGap linkData r = Some (- contextual linkData)
  else (linkGap linkData r = None /\
        contextual linkData <> 0 /\ idealLinks contentData <= contextual linkData) \/
       (linkGap linkData r = Some (idealLinks contentData - contextual linkData) /\
        1 <= idealLinks contentData - contextual linkData).
Proof.
  unfold linkGap, linkPriority, calculateContextualOpportunity.
  change CONFIG.MIN_WORDS_FOR_LINKS with 50.
  destruct (Z.ltb_spec (words contentData) 10) as [H10|H10].
  { destruct (Z.ltb_spec (words contentData) 50); [|lia]. cbn. split; [done|]. f_equal. }
  destruct (Z.ltb_spec (words contentData) 50) as [H50|H50].
  { cbn. split; [done|]. f_equal. }
  cbv zeta. cbn [gapAnalysis score].
  rewrite depthStep_gap, duplicateStep_gap, pageTypeStep_gap, overLinkStep_gap,
    lowDensityStep_gap.
  unfold gapStep, idealLinks.
  destruct (Z.eqb_spec (contextual linkData) 0) as [E0|E0].
  - right. cbn. rewrite E0. split; [done|]. lia.
  - destruct (Z.ltb_spec (contextual linkData)
                (Z.max 1 (words contentData / CONFIG.CONTEXTUAL_LINK_TARGET))).
    + right. cbn. split; [done|]. lia.
    + left. cbn. split; [done|]. split; [done|]. lia.
Qed.

(** * The content area *)

Lemma betterContent_fold (analyses : list ContentData) :
  forall best count,
    (match best with Some b => count = words b | None => count = 0 end) ->
    let (bestContent, bestWordCount) := fold_left betterContent analyses (best, count) in
    count <= bestWordCount /\
    Forall (fun a => words a <= bestWordCount) analyses /\
    match bestContent with
    | Some b => bestWordCount = words b /\ (In b analyses \/ bestContent = best)
    | None => bestWordCount = 0 /\ best = None
    end.
Proof.
  induction analyses as [|a analyses IH]; intros best count Hb.
  - cbn. split; [lia|]. split; [apply List.Forall_nil|].
    destruct best; [split; [done | by right] | by split].
  - cbn [fold_left betterContent].
    destruct (Z.ltb_spec count (words a)) as [Hlt|Hge].
    + specialize (IH (Some a) (words a) eq_refl).
      destruct (fold_left betterContent analyses (Some a, words a)) as [bc bw].
      destruct IH as (H1 & H2 & H3). split; [lia|].
      split; [apply List.Forall_cons; [lia | exact H2]|].
      destruct bc as [b|]; [|by destruct H3].
      destruct H3 as [H3 [H4|H4]]; (split; [exact H3|]); left;
        [by right | left; by injection H4].
    + specialize (IH best count Hb).
      destruct (fold_left betterContent analyses (best, count)) as [bc bw].
      destruct IH as (H1 & H2 & H3). split; [lia|].
      split; [apply List.Forall_cons; [lia | exact H2]|].
      destruct bc as [b|]; [|exact H3].
      destruct H3 as [H3 [H4|H4]]; (split; [exact H3|]); [left; by right | by right].
Qed.

(** X9. [analyzeContentAdvanced] answers either the analysis of the body,
    and then no content area has 50 words, or a content area that has at
    least 50 words and at least as many as every other one. *)
Theorem analyzeContentAdvanced_cases (analyses : list ContentData)
    (bodyAnalysis : ContentData) :
  let r := analyzeContentAdvanced analyses bodyAnalysis in
  (r = bodyAnalysis /\ Forall (fun a => words a < 50) analyses) \/
  (In r analyses /\ 50 <= words r /\ Forall (fun a => words a <= words r) analyses).
Proof.
  cbv zeta. unfold analyzeContentAdvanced.
  pose proof (betterContent_fold analyses None 0 eq_refl) as H.
  destruct (fold_left betterContent analyses (None, 0)) as [bc bw].
  destruct H as (H1 & H2 & H3).
  destruct bc as [b|].
  - destruct H3 as [H3 [H4|H4]]; [|discriminate].
    destruct (Z.ltb_spec bw 50) as [Hlt|Hge].
    + left. split; [done|]. eapply List.Forall_impl; [|exact H2]. cbn. intros a Ha. lia.
    + right. subst bw. by repeat split.
  - destruct H3 as [-> _]. left. split; [done|].
    eapply List.Forall_impl; [|exact H2]. cbn. intros a Ha. lia.
Qed.

(** The body wins over a content area of 49 words, even with fewer words. *)
Example analyzeContentAdvanced_fallback :
  analyzeContentAdvanced [contentOf 49 2 3; contentOf 20 0 1] (contentOf 12 0 0)
    = contentOf 12 0 0 /\
  analyzeContentAdvanced [contentOf 49 2 3; contentOf 50 0 1; contentOf 50 5 5]
    (contentOf 900 9 9) = contentOf 50 0 1.
Proof. split; reflexivity. Qed.

(** * The recommendations of linkgap.js *)

Lemma contextualSuggestions_size (k : string) (suggestions : list string) :
  contextualSuggestions !! k = Some suggestions -> (2 <= length suggestions)%nat.
Proof.
  unfold contextualSuggestions. intros H.
  repeat (apply lookup_insert_Some in H as [[_ <-]|[_ H]]; [simpl; lia|]).
  by rewrite lookup_empty in H.
Qed.

Lemma Forall_firstn {A} (P : A -> Prop) (n : nat) (l : list A) :
  Forall P l -> Forall P (firstn n l).
Proof.
  intros H. revert n. induction H as [|x l Hx _ IH]; intros [|n]; cbn [firstn];
    try apply List.Forall_nil. apply List.Forall_cons; [exact Hx | apply IH].
Qed.

(** The five outcomes of the gap analysis. *)
Lemma gap_facts (linkData : LinkData) (contentData : ContentData)
    (pageType : string) (urlDepth : Z) :
  let g := gapAnalysis (calculateContextualOpportunity linkData contentData pageType urlDepth) in
  currentLinks g = contextual linkData /\
  ((words contentData < 10 /\ hasGap g = true /\ severity g = critical /\
    recommendedLinks g = 0) \/
   (10 <= words contentData < 50 /\ hasGap g = true /\ severity g = sevMedium /\
    recommendedLinks g = 0) \/
   (50 <= words contentData /\ contextual linkData = 0 /\ hasGap g = true /\
    severity g = critical /\ recommendedLinks g = idealLinks contentData) \/
   (50 <= words contentData /\ contextual linkData <> 0 /\
    contextual linkData < idealLinks contentData /\ hasGap g = true /\
    severity g = (if 3 <=? idealLinks contentData - contextual linkData
                  then sevHigh else sevMedium) /\
    recommendedLinks g = idealLinks contentData) \/
   (50 <= words contentData /\ contextual linkData <> 0 /\
    idealLinks contentData <= contextual linkData /\ hasGap g = false)).
Proof.
  unfold calculateContextualOpportunity.
  change CONFIG.MIN_WORDS_FOR_LINKS with 50.
  destruct (Z.ltb_spec (words contentData) 10); [cbn; split; [done|]; left; by repeat split|].
  destruct (Z.ltb_spec (words contentData) 50);
    [cbn; split; [done|]; right; left; by repeat split|].
  cbv zeta. cbn [gapAnalysis].
  rewrite depthStep_gap, duplicateStep_gap, pageTypeStep_gap, overLinkStep_gap,
    lowDensityStep_gap.
  unfold gapStep.
  destruct (Z.eqb_spec (contextual linkData) 0);
    [cbn; split; [done|]; right; right; left; by repeat split|].
  destruct (Z.ltb_spec (contextual linkData) (idealLinks contentData)).
  - cbn. split; [done|]. right; right; right; left. by repeat split.
  - cbn. split; [done|]. right; right; right; right. by repeat split.
Qed.

(** X10. The recommendations the script derives for a page are at most
    three, and not empty when the analysis reports a gap. What each says is
    true of the page: a broken-page or blog-failure entry quotes the word
    count of its range; a duplicate entry quotes the counts of the link data;
    the entry for a critical gap appears only for a page of at least 50 words
    without contextual link and asks for the ideal number; the entry for a
    high gap asks for at least 3 links; the optimise entry asks for 1 or 2
    links on a page of at least 50 words, and on a shorter page for the
    negated contextual count, since nothing was recommended there. *)
Theorem recommendations_sound (linkData : LinkData) (contentData : ContentData)
    (pageType : string) (urlDepth : Z) :
  let r := calculateContextualOpportunity linkData contentData pageType urlDepth in
  let recs := recommendationsOf linkData contentData pageType urlDepth in
  (length recs <= 3)%nat /\
  (if hasGap (gapAnalysis r) then recs <> [] else True) /\
  Forall (recommendationSound linkData contentData) recs.
Proof.
  cbv zeta. unfold recommendationsOf. cbv zeta.
  destruct (gap_facts linkData contentData pageType urlDepth) as (Hcur & Hcases).
  set (g := gapAnalysis (calculateContextualOpportunity linkData contentData pageType urlDepth))
    in *.
  unfold generateContextualRecommendations. cbv zeta.
  destruct (Z.ltb_spec (words contentData) 10) as [H10|H10].
  { destruct Hcases as [(_ & Hg & _)|[(? & _)|[(? & _)|[(? & _)|(? & _)]]]]; try lia.
    rewrite Hg. cbn. split; [lia|]. split; [done|].
    apply List.Forall_cons; [cbn; lia | apply List.Forall_nil]. }
  destruct ((words contentData <? 50) && includes pageType "blog") eqn:B.
  { apply andb_true_iff in B as [B _]. apply Z.ltb_lt in B.
    destruct Hcases as [(? & _)|[(_ & Hg & _)|[(? & _)|[(? & _)|(? & _)]]]]; try lia.
    rewrite Hg. cbn. split; [lia|]. split; [done|].
    apply List.Forall_cons; [cbn; lia | apply List.Forall_nil]. }
  clear B. split; [apply firstn_le_length|]. split.
  - destruct (hasGap g) eqn:Hg; [|done].
    assert (gapRecommendation g <> []) as Hne.
    { unfold gapRecommendation. rewrite Hg. by destruct (severity g). }
    cbn [app].
    destruct (balanceRecommendation (checkExternalLinkBalance linkData)) as [|b1 l1];
      [|by destruct l1 as [|? [|? ?]]].
    destruct (duplicateRecommendation linkData) as [|b2 l2];
      [|by destruct l2 as [|? [|? ?]]].
    destruct (densityRecommendation linkData contentData) as [|b3 l3];
      [|by destruct l3 as [|? [|? ?]]].
    destruct (gapRecommendation g) as [|b4 l4]; [done|].
    by destruct l4 as [|? [|? ?]].
  - apply Forall_firstn. cbn [app]. repeat apply Forall_app_2.
    + unfold balanceRecommendation.
      destruct (checkExternalLinkBalance linkData) eqn:E;
        try apply List.Forall_nil;
        (apply List.Forall_cons; [cbn; rewrite E; by split | apply List.Forall_nil]).
    + unfold duplicateRecommendation.
      destruct (Z.ltb_spec 5 (contextual linkData)); cbn [andb];
        [destruct (_ <? _)%float|]; try apply List.Forall_nil.
      apply List.Forall_cons; [by cbn | apply List.Forall_nil].
    + unfold densityRecommendation. destruct (_ <? _)%float; [|apply List.Forall_nil].
      apply List.Forall_cons; [by cbn | apply List.Forall_nil].
    + unfold gapRecommendation.
      destruct Hcases as [(? & _)|[(Hw & Hg & Hs & Hr)|[(Hw & Hc & Hg & Hs & Hr)
                         |[(Hw & Hc & Hd & Hg & Hs & Hr)|(Hw & Hc & Hd & Hg)]]]];
        try lia; rewrite Hg; [| | |apply List.Forall_nil].
      * rewrite Hs, Hr, Hcur.
        apply List.Forall_cons; [|apply List.Forall_nil]. cbn.
        destruct (Z.ltb_spec (words contentData) 50); lia.
      * rewrite Hs, Hr, Hcur.
        apply List.Forall_cons; [|apply List.Forall_nil]. cbn. lia.
      * rewrite Hr, Hcur. revert Hs.
        destruct (Z.leb_spec 3 (idealLinks contentData - contextual linkData)) as [H3|H3];
          intros ->; (apply List.Forall_cons; [|apply List.Forall_nil]); cbn.
        -- lia.
        -- destruct (Z.ltb_spec (words contentData) 50); lia.
    + unfold homepageRecommendations. destruct (String.eqb pageType "homepage");
        [|apply List.Forall_nil].
      apply Forall_app_2.
      * destruct (_ && _); [|apply List.Forall_nil].
        apply List.Forall_cons; [by cbn | apply List.Forall_nil].
      * destruct (quality contentData) eqn:Q; try apply List.Forall_nil.
        apply List.Forall_cons; [by cbn | apply List.Forall_nil].
    + unfold specificRecommendation. destruct (_ && _); [|apply List.Forall_nil].
      destruct (contextualSuggestions !! pageType) as [suggestions|] eqn:S;
        [|apply List.Forall_nil].
      destruct (hasGap g); [|apply List.Forall_nil].
      apply contextualSuggestions_size in S.
      apply List.Forall_cons; [|apply List.Forall_nil]. cbn.
      rewrite length_firstn. lia.
Qed.

(** * The depth of the URL *)

Lemma countMatchesFrom_slash (total fuel : nat) :
  forall s, (String.length s < fuel)%nat ->
    Z.of_nat (countMatchesFrom (RChar "/") total fuel s) = slashCount s.
Proof.
  induction fuel as [|fuel IH]; intros s Hlen; [lia|].
  destruct s as [|c s]; [reflexivity|].
  cbn [countMatchesFrom rmatch slashCount String.length] in *.
  rewrite (Ascii.eqb_sym c "/").
  destruct (Ascii.eqb "/" c).
  - destruct (Nat.ltb_spec (String.length s) (S (String.length s))); [|lia].
    rewrite Nat2Z.inj_succ, IH by lia. lia.
  - rewrite IH by lia. lia.
Qed.

Section DeepPage.
Variables (linkData : LinkData) (contentData : ContentData) (pageType : string).

Lemma gapStep_deep a :
  List.filter isDeepPage (accBreakdown (gapStep linkData contentData a))
  = List.filter isDeepPage (accBreakdown a).
Proof.
  unfold gapStep. destruct (_ =? _); [|destruct (_ <? _)]; cbn [accBreakdown setGap addPoints];
    rewrite ?List.filter_app; cbn; by rewrite ?app_nil_r.
Qed.

Lemma lowDensityStep_deep a :
  List.filter isDeepPage (accBreakdown (lowDensityStep linkData contentData a))
  = List.filter isDeepPage (accBreakdown a).
Proof.
  unfold lowDensityStep. destruct (_ <? _)%float; cbn [accBreakdown addPoints];
    rewrite ?List.filter_app; cbn; by rewrite ?app_nil_r.
Qed.

Lemma overLinkStep_deep a :
  List.filter isDeepPage (accBreakdown (overLinkStep linkData contentData a))
  = List.filter isDeepPage (accBreakdown a).
Proof.
  unfold overLinkStep. destruct (_ <? _)%float; cbn [accBreakdown addPoints];
    rewrite ?List.filter_app; cbn; by rewrite ?app_nil_r.
Qed.

Lemma pageTypeStep_deep a :
  List.filter isDeepPage (accBreakdown (pageTypeStep linkData pageType a))
  = List.filter isDeepPage (accBreakdown a).
Proof.
  unfold pageTypeStep. destruct (pageTypeWeights !! pageType); [destruct (_ <? _)|];
    cbn [accBreakdown addPoints]; rewrite ?List.filter_app; cbn; by rewrite ?app_nil_r.
Qed.

Lemma duplicateStep_deep a :
  List.filter isDeepPage (accBreakdown (duplicateStep linkData a))
  = List.filter isDeepPage (accBreakdown a).
Proof.
  unfold duplicateStep. destruct duplicateLinkIssue; cbn [accBreakdown addPoints];
    rewrite ?List.filter_app; cbn; by rewrite ?app_nil_r.
Qed.

End DeepPage.

(** X11. The depth the main script computes is the number of slashes of the
    URL less 2. On a page of at least 50 words the breakdown has a deep page
    entry exactly when the URL has 6 slashes or more; the entry shows that
    depth and 3 points for each slash from the sixth on, at most 10. *)
Theorem deep_page_from_url (currentUrl : string) (linkData : LinkData)
    (contentData : ContentData) (pageType : string) :
  let urlDepth := urlDepthOf currentUrl in
  let r := calculateContextualOpportunity linkData contentData pageType urlDepth in
  urlDepth = slashCount currentUrl - 2 /\
  (if words contentData <? 50
   then List.filter isDeepPage (scoreBreakdown r) = []
   else List.filter isDeepPage (scoreBreakdown r) =
        if 6 <=? slashCount currentUrl
        then [DeepPage (slashCount currentUrl - 2)
                (Z.min 10 ((slashCount currentUrl - 5) * 3))]
        else []).
Proof.
  cbv zeta.
  assert (urlDepthOf currentUrl = slashCount currentUrl - 2) as E.
  { unfold urlDepthOf, countMatches. rewrite countMatchesFrom_slash; [done | lia]. }
  split; [exact E|]. rewrite E. clear E.
  unfold calculateContextualOpportunity.
  change CONFIG.MIN_WORDS_FOR_LINKS with 50.
  destruct (Z.ltb_spec (words contentData) 10).
  { destruct (Z.ltb_spec (words contentData) 50); [reflexivity | lia]. }
  destruct (Z.ltb_spec (words contentData) 50); [reflexivity|].
  cbv zeta. cbn [scoreBreakdown]. unfold depthStep.
  destruct (Z.ltb_spec 3 (slashCount currentUrl - 2)), (Z.leb_spec 6 (slashCount currentUrl));
    try lia; cbn [accBreakdown addPoints]; rewrite ?List.filter_app;
    rewrite duplicateStep_deep, pageTypeStep_deep, overLinkStep_deep, lowDensityStep_deep,
      gapStep_deep; cbn [accBreakdown List.filter isDeepPage app]; [|reflexivity].
  do 2 f_equal. lia.
Qed.

Example urlDepth_samples :
  urlDepthOf "https://example.com" = 0 /\
  urlDepthOf "https://example.com/learn/guides/wallets/cold/" = 5 /\
  urlDepthOf "about:blank" = -2.
Proof. repeat split. Qed.

(** * Ideas for a page without links *)

Lemma countLinks_zero_hrefs (p : Link -> bool) (links : list Link) :
  countLinks p links = 0 -> hrefsOf p links = [].
Proof.
  intros H. pose proof (hrefsOf_length p links) as Hl.
  destruct (hrefsOf p links); [done | cbn [length] in Hl; lia].
Qed.

(** X12. A page on which the link walk finds no contextual link is never
    given the page-specific ideas: its ratio of unique targets is 0, below
    the 0.7 the ideas require. *)
Theorem no_ideas_without_links (domain : string) (allLinks : list Link)
    (contentData : ContentData) (pageType : string) (urlDepth : Z) :
  let linkData := analyzeLinksAdvanced domain allLinks in
  if contextual linkData =? 0
  then existsb isSpecificIdeas (recommendationsOf linkData contentData pageType urlDepth)
       = false
  else True.
Proof.
  cbv zeta. destruct (Z.eqb_spec (contextual (analyzeLinksAdvanced domain allLinks)) 0)
    as [E0|]; [|done].
  destruct (analyzeLinksAdvanced_counts domain allLinks) as (Hc&_&_&_&_&_&Hu&_).
  cbv zeta in Hc, Hu.
  set (linkData := analyzeLinksAdvanced domain allLinks) in *.
  assert (uniqueRatio linkData = 0%float) as Hr.
  { unfold uniqueRatio. rewrite Hu, E0.
    rewrite (countLinks_zero_hrefs _ allLinks) by (by rewrite <- Hc).
    rewrite list_to_set_nil, size_empty. reflexivity. }
  unfold recommendationsOf, generateContextualRecommendations. cbv zeta.
  destruct (words contentData <? 10); [reflexivity|].
  destruct ((words contentData <? 50) && includes pageType "blog"); [reflexivity|].
  assert (forall l, existsb isSpecificIdeas l = false ->
                    existsb isSpecificIdeas (firstn 3 l) = false) as Hfirst.
  { intros l. generalize 3%nat. induction l as [|x l IH]; intros [|n]; cbn; try done.
    intros [Hx Hl]%orb_false_iff. by rewrite Hx, IH. }
  apply Hfirst. cbn [app]. rewrite !existsb_app.
  unfold specificRecommendation. rewrite Hr.
  replace (0.7 <=? 0)%float with false by reflexivity. rewrite andb_false_r.
  unfold balanceRecommendation, duplicateRecommendation, densityRecommendation,
    gapRecommendation, homepageRecommendations.
  rewrite E0, Hr.
  set (g := gapAnalysis (calculateContextualOpportunity linkData contentData pageType urlDepth)).
  destruct (checkExternalLinkBalance linkData) as [e c|e|];
    destruct (3.0 <? contextualDensity linkData contentData)%float;
    destruct (hasGap g); destruct (severity g);
    destruct (String.eqb pageType "homepage"); destruct (quality contentData);
    reflexivity.
Qed.

Example recommendations_samples :
  recommendationsOf (linksTo 3 ["/a"; "/b"; "/c"]) (contentOf 30 0 1) "other" 1
    = [RecReduceLinks 10 2; RecOptimize (-3)] /\
  recommendationsOf (linksTo 0 []) (contentOf 30 0 1) "blog-article" 1
    = [RecBlogFailure 30] /\
  recommendationsOf (linksTo 1 ["/a"]) (contentOf 420 0 1) "homepage" 1
    = [RecAddMore 3 1 4;
       RecSpecificIdeas ["Feature key trading pairs";
                         "Link to educational content for beginners"]] /\
  recommendationsOf (linksTo 0 []) (contentOf 420 3 5) "learn-hub" 1 = [RecAddCritical 4].
Proof. repeat split; vm_compute; reflexivity. Qed.

Example Math_ceil_samples :
  Math_ceil 2.5 = 3%float /\ Math_ceil (-0.5) = (-0)%float /\ Math_ceil 7 = 7%float /\
  Math_ceil (-2.5) = (-2)%float /\ Math_ceil nan = nan.
Proof. repeat split; vm_compute; reflexivity. Qed.

(** * Further properties of vector.js *)

(** ** The hash *)

Lemma toInt32_range (z : Z) : - 2 ^ 31 <= toInt32 z < 2 ^ 31.
Proof. unfold toInt32. pose proof (Z.mod_pos_bound (z + 2 ^ 31) (2 ^ 32)). lia. Qed.

Lemma toInt32_congr (a b : Z) : (a - b) mod 2 ^ 32 = 0 -> toInt32 a = toInt32 b.
Proof.
  unfold toInt32. intros H. f_equal.
  apply Z.mod_divide in H; [|lia]. destruct H as [q H].
  replace (a + 2 ^ 31) with (b + 2 ^ 31 + q * 2 ^ 32) by lia.
  apply Z_mod_plus_full.
Qed.

Lemma toInt32_diff (z : Z) : (toInt32 z - z) mod 2 ^ 32 = 0.
Proof.
  unfold toInt32. rewrite (Z.mod_eq (z + 2 ^ 31) (2 ^ 32)) by lia.
  replace (z + 2 ^ 31 - 2 ^ 32 * ((z + 2 ^ 31) / 2 ^ 32) - 2 ^ 31 - z)
    with ((- ((z + 2 ^ 31) / 2 ^ 32)) * 2 ^ 32) by lia.
  apply Z_mod_mult.
Qed.

Lemma hashStep_poly (h : Z) (c : ascii) :
  hashStep (toInt32 h) c = toInt32 (31 * h + charCode c).
Proof.
  unfold hashStep. cbv zeta. apply toInt32_congr.
  pose proof (toInt32_diff h) as H1.
  pose proof (toInt32_diff (toInt32 h * 2 ^ 5)) as H2.
  apply Z.mod_divide in H1; [|lia]. apply Z.mod_divide in H2; [|lia].
  destruct H1 as [q1 H1], H2 as [q2 H2].
  apply Z.mod_divide; [lia|]. exists (q2 + 31 * q1). lia.
Qed.

Lemma hashFrom_poly (seed : string) (h : Z) :
  hashFrom (toInt32 h) seed = toInt32 (polyHash h seed).
Proof.
  revert h. induction seed as [|c seed IH]; intros h; [reflexivity|].
  cbn [hashFrom polyHash]. by rewrite hashStep_poly, IH.
Qed.

(** X13. The hash of a seed is the polynomial in 31 over its character codes,
    wrapped to a signed 32-bit integer; in particular it lies between -2^31
    and 2^31 - 1. *)
Theorem hash_is_wrapped_polynomial (seed : string) :
  hashFrom 0 seed = toInt32 (polyHash 0 seed) /\
  - 2 ^ 31 <= hashFrom 0 seed < 2 ^ 31.
Proof.
  assert (hashFrom 0 seed = toInt32 (polyHash 0 seed)) as E
    by exact (hashFrom_poly seed 0).
  split; [exact E|]. rewrite E. apply toInt32_range.
Qed.

Example polyHash_wraps :
  polyHash 0 "zzzzzzz" = 111884630714 /\ hashFrom 0 "zzzzzzz" = 215481018.
Proof. split; vm_compute; reflexivity. Qed.

(** ** Normalisation of the text *)

Lemma toLowerCaseChar_idem (c : ascii) :
  toLowerCaseChar (toLowerCaseChar c) = toLowerCaseChar c.
Proof. destruct c as [[] [] [] [] [] [] [] []]; vm_compute; reflexivity. Qed.

Lemma toLowerCaseChar_space (c : ascii) :
  isWhiteSpace (toLowerCaseChar c) = isWhiteSpace c.
Proof. destruct c as [[] [] [] [] [] [] [] []]; vm_compute; reflexivity. Qed.

Lemma toLowerCase_idem (s : string) : toLowerCase (toLowerCase s) = toLowerCase s.
Proof.
  induction s as [|c s IH]; [reflexivity|]. cbn [toLowerCase].
  by rewrite toLowerCaseChar_idem, IH.
Qed.

Lemma toLowerCase_trimStart (s : string) :
  toLowerCase (trimStart s) = trimStart (toLowerCase s).
Proof.
  induction s as [|c s IH]; [reflexivity|]. cbn [toLowerCase trimStart].
  rewrite toLowerCaseChar_space. by destruct (isWhiteSpace c).
Qed.

Lemma toLowerCase_trimEnd (s : string) :
  toLowerCase (trimEnd s) = trimEnd (toLowerCase s).
Proof.
  induction s as [|c s IH]; [reflexivity|]. cbn [toLowerCase trimEnd].
  rewrite <- IH, toLowerCaseChar_space.
  destruct (trimEnd s); [by destruct (isWhiteSpace c)|reflexivity].
Qed.

Lemma toLowerCase_trim (s : string) : toLowerCase (trim s) = trim (toLowerCase s).
Proof. unfold trim. by rewrite toLowerCase_trimEnd, toLowerCase_trimStart. Qed.

Lemma trimEnd_idem (s : string) : trimEnd (trimEnd s) = trimEnd s.
Proof.
  induction s as [|c s IH]; [reflexivity|]. cbn [trimEnd].
  destruct (trimEnd s) as [|d t] eqn:E.
  - destruct (isWhiteSpace c) eqn:W; [reflexivity|]. cbn [trimEnd]. by rewrite W.
  - cbn [trimEnd]. cbn [trimEnd] in IH.
    destruct (trimEnd t) as [|e u]; [|by rewrite IH].
    destruct (isWhiteSpace d); [discriminate|]. by rewrite IH.
Qed.

(** Trimming the end keeps a first character that is not white space. *)
Lemma trimEnd_head (c : ascii) (s : string) :
  isWhiteSpace c = false -> exists t, trimEnd (String c s) = String c t.
Proof.
  intros W. cbn [trimEnd]. destruct (trimEnd s) as [|d t]; [|by eexists].
  rewrite W. by eexists.
Qed.

Lemma trimStart_head (s : string) :
  match trimStart s with
  | EmptyString => True
  | String c _ => isWhiteSpace c = false
  end.
Proof.
  induction s as [|c s IH]; [done|]. cbn [trimStart].
  destruct (isWhiteSpace c) eqn:W; [exact IH | exact W].
Qed.

Lemma trim_idem (s : string) : trim (trim s) = trim s.
Proof.
  unfold trim. pose proof (trimStart_head s) as H.
  destruct (trimStart s) as [|c t]; [reflexivity|].
  destruct (trimEnd_head c t H) as [u E]. rewrite E.
  cbn [trimStart]. rewrite H, <- E. apply trimEnd_idem.
Qed.

(** X14. The fallback embedding does not see the case of the text nor the
    white space around it: lower-casing or trimming the text first gives the
    same embedding, whatever [Math.sin] is. *)
Theorem embedding_ignores_case_and_margins (sin : float -> option float)
    (text : string) (dimensions : nat) :
  generateSimpleEmbedding sin (toLowerCase text) dimensions
    = generateSimpleEmbedding sin text dimensions /\
  generateSimpleEmbedding sin (trim text) dimensions
    = generateSimpleEmbedding sin text dimensions.
Proof.
  unfold generateSimpleEmbedding. cbv zeta. split.
  - by rewrite toLowerCase_idem.
  - by rewrite toLowerCase_trim, trim_idem.
Qed.

(** ** Decimal texts *)

Lemma pretty_N_char_digit (x : N) : isDigit (pretty_N_char x) = true.
Proof. unfold pretty_N_char. by repeat case_match. Qed.

Lemma pretty_N_go_digits (x : N) :
  forall s, allChars isDigit s = true -> allChars isDigit (pretty_N_go x s) = true.
Proof.
  induction (N.lt_wf_0 x) as [x _ IH]. intros s Hs.
  destruct (decide (x = 0)%N) as [->|Hx]; [by rewrite pretty_N_go_0|].
  rewrite pretty_N_go_step by lia. apply IH.
  - apply N.div_lt; lia.
  - cbn [allChars]. by rewrite pretty_N_char_digit, Hs.
Qed.

Lemma pretty_N_go_length_ge (x : N) :
  forall s, (String.length s <= String.length (pretty_N_go x s))%nat.
Proof.
  induction (N.lt_wf_0 x) as [x _ IH]. intros s.
  destruct (decide (x = 0)%N) as [->|Hx]; [by rewrite pretty_N_go_0|].
  rewrite pretty_N_go_step by lia.
  etrans; [|apply IH, N.div_lt; lia]. cbn [String.length]. lia.
Qed.

Lemma pretty_N_go_length_le (n : nat) :
  forall x s, (x < 10 ^ N.of_nat n)%N ->
    (String.length (pretty_N_go x s) <= n + String.length s)%nat.
Proof.
  induction n as [|n IH]; intros x s Hx.
  - assert (x = 0%N) as -> by (simpl in Hx; lia). by rewrite pretty_N_go_0.
  - destruct (decide (x = 0)%N) as [->|H0]; [rewrite pretty_N_go_0; lia|].
    rewrite pretty_N_go_step by lia.
    etrans; [apply IH|cbn [String.length]; lia].
    apply N.Div0.div_lt_upper_bound.
    replace (N.of_nat (S n)) with (N.succ (N.of_nat n)) in Hx by lia.
    by rewrite N.pow_succ_r' in Hx.
Qed.

(** The decimal text of a natural number: digits, at least one. *)
Lemma pretty_Z_digits (z : Z) :
  0 <= z -> allChars isDigit (pretty z) = true /\ pretty z <> "".
Proof.
  intros Hz. destruct z as [|p|p]; [done| |lia].
  change (pretty (Z.pos p)) with (pretty_N_go (N.pos p) "").
  split; [by apply pretty_N_go_digits|].
  rewrite pretty_N_go_step by lia.
  pose proof (pretty_N_go_length_ge (N.pos p `div` 10)
                (String (pretty_N_char (N.pos p `mod` 10)) "")) as H.
  intros E. rewrite E in H. cbn in H. lia.
Qed.

Lemma pretty_Z_length (z : Z) (n : nat) :
  0 <= z < 10 ^ Z.of_nat n -> (1 <= n)%nat -> (String.length (pretty z) <= n)%nat.
Proof.
  intros Hz Hn. destruct z as [|p|p]; [simpl; lia| |lia].
  change (pretty (Z.pos p)) with (pretty_N_go (N.pos p) "").
  pose proof (pretty_N_go_length_le n (N.pos p) "") as H. cbn [String.length] in H.
  rewrite Nat.add_0_r in H. apply H.
  apply N2Z.inj_lt. rewrite N2Z.inj_pow, nat_N_Z. simpl. lia.
Qed.

Lemma zeros_text (m : nat) :
  allChars isDigit (String.concat "" (repeat "0" m)) = true /\
  String.length (String.concat "" (repeat "0" m)) = m.
Proof.
  induction m as [|m [IH1 IH2]]; [done|].
  cbn [repeat String.concat]. destruct m as [|m]; [done|].
  change (repeat "0" (S m)) with ("0" :: repeat "0" m) in *.
  change ("0" +:+ "" +:+ String.concat "" ("0" :: repeat "0" m))
    with (String "0" (String.concat "" ("0" :: repeat "0" m))).
  cbn [allChars String.length]. by rewrite IH1, IH2.
Qed.

Lemma sixDigits_text (k : Z) :
  0 <= k < 10 ^ 6 ->
  allChars isDigit (sixDigits k) = true /\ String.length (sixDigits k) = 6%nat.
Proof.
  intros Hk. unfold sixDigits. cbv zeta.
  destruct (pretty_Z_digits k ltac:(lia)) as [Hd _].
  pose proof (pretty_Z_length k 6 ltac:(simpl; lia) ltac:(lia)) as Hl.
  destruct (zeros_text (6 - String.length (pretty k))) as [Z1 Z2].
  rewrite allChars_app, length_append, Z1, Hd, Z2. split; [done | lia].
Qed.

Lemma fixed6_text (negative : bool) (n : Z) :
  0 <= n ->
  isFixed6 ((if negative then "-" else "") +:+ pretty (n / 10 ^ 6) +:+ "." +:+
            sixDigits (n mod 10 ^ 6)).
Proof.
  intros Hn.
  assert (0 <= n / 10 ^ 6) as Hq by (apply Z.div_pos; lia).
  pose proof (Z.mod_pos_bound n (10 ^ 6) ltac:(lia)) as Hr.
  destruct (pretty_Z_digits _ Hq) as [D1 D2].
  destruct (sixDigits_text _ Hr) as [S1 S2].
  exists (if negative then "-" else ""), (pretty (n / 10 ^ 6)), (sixDigits (n mod 10 ^ 6)).
  repeat split; try done. destruct negative; auto.
Qed.

(** The number [toFixed6] writes is not negative. *)
Lemma toFixed6_numerator (m : positive) (e : Z) :
  0 <= (if 0 <=? e then Z.pos m * 2 ^ e * 10 ^ 6
        else (2 * Z.pos m * 10 ^ 6 + 2 ^ (- e)) / 2 ^ (- e + 1)).
Proof.
  destruct (Z.leb_spec 0 e).
  - assert (0 < 2 ^ e) by (apply Z.pow_pos_nonneg; lia). nia.
  - assert (0 < 2 ^ (- e)) by (apply Z.pow_pos_nonneg; lia).
    assert (0 < 2 ^ (- e + 1)) by (apply Z.pow_pos_nonneg; lia).
    apply Z.div_pos; lia.
Qed.

Lemma nonFiniteText_not_fixed6 (s : string) : isNonFiniteText s = true -> ~ isFixed6 s.
Proof.
  intros H (sign & int & frac & -> & Hs & Hi & Di & Df & Lf).
  assert (exists c int', int = String c int' /\ isDigit c = true) as (c & int' & -> & Dc).
  { destruct int as [|c int']; [done|]. exists c, int'. split; [done|].
    simpl in Di. by apply andb_true_iff in Di as [? _]. }
  unfold isNonFiniteText in H.
  destruct Hs as [-> | ->].
  - change (String.eqb (String c (int' +:+ "." +:+ frac)) "NaN"
            || String.eqb (String c (int' +:+ "." +:+ frac)) "Infinity"
            || String.eqb (String c (int' +:+ "." +:+ frac)) "-Infinity" = true) in H.
    cbn [String.eqb] in H.
    destruct c as [[] [] [] [] [] [] [] []]; vm_compute in Dc; try discriminate Dc;
      cbn in H; discriminate H.
  - change (String.eqb (String "-" (String c (int' +:+ "." +:+ frac))) "NaN"
            || String.eqb (String "-" (String c (int' +:+ "." +:+ frac))) "Infinity"
            || String.eqb (String "-" (String c (int' +:+ "." +:+ frac))) "-Infinity" = true) in H.
    cbn [String.eqb] in H.
    destruct c as [[] [] [] [] [] [] [] []]; vm_compute in Dc; try discriminate Dc;
      cbn in H; discriminate H.
Qed.

(** ** Texts of the grammar *)

Lemma Matches_digits (s : string) :
  allChars isDigit s = true -> Matches (RStar (RClass isDigit)) s.
Proof.
  induction s as [|c s IH]; [constructor|]. cbn [allChars].
  intros [Hc Hs]%andb_true_iff.
  change (String c s) with (String c "" +:+ s).
  apply MStarCons; [by constructor | done | by apply IH].
Qed.

Lemma Matches_digits1 (s : string) :
  s <> "" -> allChars isDigit s = true -> Matches (RPlus (RClass isDigit)) s.
Proof.
  destruct s as [|c s]; [done|]. intros _. cbn [allChars].
  intros [Hc Hs]%andb_true_iff.
  change (String c s) with (String c "" +:+ s).
  apply MSeq; [by constructor | by apply Matches_digits].
Qed.

Lemma fixed6_decimal (s : string) : isFixed6 s -> Matches signedDecimal s.
Proof.
  intros (sign & int & frac & -> & Hs & Hi & Di & Df & Lf).
  unfold signedDecimal. cbn [RSeqs].
  apply MSeq; [destruct Hs as [-> | ->]; [apply MOptNone | apply MOptSome, MChar]|].
  apply MSeq; [by apply Matches_digits1|].
  apply MOptSome. change ("." +:+ frac) with (String "." "" +:+ frac).
  apply MSeq; [apply MChar|]. apply Matches_digits1; [|done].
  intros ->. discriminate Lf.
Qed.

Lemma Matches_decimal_tail (parts : list string) :
  Forall (Matches signedDecimal) parts ->
  Matches (RStar (RSeq (RChar ",") signedDecimal))
          (fold_right (fun p acc => "," +:+ p +:+ acc) "" parts).
Proof.
  induction 1 as [|p parts Hp _ IH]; [constructor|]. cbn [fold_right].
  rewrite <- append_assoc.
  apply MStarCons; [|done|exact IH].
  change ("," +:+ p) with (String "," "" +:+ p). apply MSeq; [apply MChar | exact Hp].
Qed.

Lemma join_cons (sep p : string) (parts : list string) :
  join sep (p :: parts) = p +:+ fold_right (fun q acc => sep +:+ q +:+ acc) "" parts.
Proof.
  unfold join. revert p. induction parts as [|q parts IH]; intros p.
  - by rewrite append_empty_r.
  - cbn [String.concat fold_right] in *. by rewrite IH.
Qed.

Lemma Matches_decimalList (parts : list string) :
  parts <> [] -> Forall (Matches signedDecimal) parts ->
  Matches decimalList (join "," parts).
Proof.
  destruct parts as [|p parts]; [done|]. intros _ H.
  apply Forall_cons in H as [Hp H]. rewrite join_cons.
  apply MSeq; [exact Hp | by apply Matches_decimal_tail].
Qed.

(** ** What the fallback generator writes *)

(** X15. [toFixed(6)] answers a double that is a number with an optional
    minus sign, digits, a dot and exactly six digits, which is a decimal of
    the embedding grammar; NaN and the infinities are written by name, and
    no text of one kind is a text of the other. Only a number from 10^21 on
    is outside the modelled fragment. *)
Theorem toFixed6_format (x : float) :
  match toFixed6 x with
  | Some s =>
      if isFiniteNumber x
      then isFixed6 s /\ Matches signedDecimal s /\ isNonFiniteText s = false
      else isNonFiniteText s = true /\ ~ isFixed6 s
  | None => isFiniteNumber x = true
  end.
Proof.
  unfold toFixed6, isFiniteNumber.
  destruct (Prim2SF x) as [s|s| |s m e].
  - assert (isFixed6 "0.000000") as H.
    { exists "", "0", "000000". repeat split; auto. }
    split; [exact H|]. split; [by apply fixed6_decimal | reflexivity].
  - assert (isNonFiniteText (if s then "-Infinity" else "Infinity") = true) as H
      by (by destruct s).
    split; [exact H | by apply nonFiniteText_not_fixed6].
  - split; [reflexivity | by apply nonFiniteText_not_fixed6].
  - cbv zeta. destruct (if 0 <=? e then _ else _); [reflexivity|].
    pose proof (fixed6_text s _ (toFixed6_numerator m e)) as H.
    split; [exact H|]. split; [by apply fixed6_decimal|].
    destruct (isNonFiniteText _) eqn:E; [|reflexivity].
    by apply nonFiniteText_not_fixed6 in E.
Qed.

Lemma toFixed6_cases (x : float) (s : string) :
  toFixed6 x = Some s -> isNonFiniteText s = true \/ isFixed6 s.
Proof.
  unfold toFixed6.
  destruct (Prim2SF x) as [sg|sg| |sg m e].
  - intros [= <-]. right. exists "", "0", "000000". repeat split; auto.
  - intros [= <-]. left. by destruct sg.
  - intros [= <-]. by left.
  - cbv zeta. destruct (if 0 <=? e then _ else _); [discriminate|].
    intros [= <-]. right. apply fixed6_text, toFixed6_numerator.
Qed.

Lemma embeddingComponent_cases (sin : float -> option float) (normalized : string)
    (i : nat) (s : string) :
  embeddingComponent sin normalized i = Some s -> isNonFiniteText s = true \/ isFixed6 s.
Proof.
  unfold embeddingComponent. cbv zeta.
  destruct (sin _) as [y|]; [apply toFixed6_cases | discriminate].
Qed.

Lemma generateSimpleEmbedding_entries (sin : float -> option float) (text : string)
    (dimensions : nat) (embedding : list string) :
  generateSimpleEmbedding sin text dimensions = Some embedding ->
  length embedding = dimensions /\
  Forall (fun s => isNonFiniteText s = true \/ isFixed6 s) embedding.
Proof.
  unfold generateSimpleEmbedding. cbv zeta. intros H.
  apply mapM_Some in H. split.
  - apply Forall2_length in H. by rewrite length_seq in H.
  - eapply Forall2_Forall_r; [exact H|].
    apply Forall_forall. intros i _ s. apply embeddingComponent_cases.
Qed.

(** X16. An embedding returned by [generateSimpleEmbedding] has as many
    entries as dimensions were asked for. When there is at least one and none
    is the text of NaN or of an infinity, the comma-joined string that
    [generateEmbeddingWithFallback] reports is accepted by the grammar of
    [cleanupExistingData], which returns it unchanged. *)
Theorem fallback_embedding_is_clean (sin : float -> option float) (content : string)
    (dimensions : nat) (simpleEmbedding : list string) :
  generateSimpleEmbedding sin content dimensions = Some simpleEmbedding ->
  (1 <= dimensions)%nat ->
  existsb isNonFiniteText simpleEmbedding = false ->
  length simpleEmbedding = dimensions /\
  fallbackEmbeddingString sin content dimensions = Some (join "," simpleEmbedding) /\
  test embeddingGrammar (join "," simpleEmbedding) = true /\
  cleanupExistingData (join "," simpleEmbedding) = Some (join "," simpleEmbedding).
Proof.
  intros Hgen Hd Hfin.
  destruct (generateSimpleEmbedding_entries _ _ _ _ Hgen) as [Hlen Hall].
  split; [exact Hlen|]. split; [unfold fallbackEmbeddingString; by rewrite Hgen|].
  assert (test embeddingGrammar (join "," simpleEmbedding) = true) as Ht.
  { apply grammar_test_correct, Matches_decimalList.
    - intros ->. simpl in Hlen. lia.
    - apply List.Forall_forall. intros s Hs.
      destruct (proj1 (List.Forall_forall _ _) Hall s Hs) as [Hn|Hf];
        [|by apply fixed6_decimal].
      assert (existsb isNonFiniteText simpleEmbedding = true) as Hex; [|congruence].
      apply existsb_exists. by exists s. }
  split; [exact Ht|].
  unfold cleanupExistingData.
  by rewrite (clean_has_no_wrapper _ (grammar_chars _ Ht)).
Qed.

Lemma fallback_embedding_is_clean_witness :
  generateSimpleEmbedding Math_sin "idjftna" 1 = Some ["0.000000"] /\
  (1 <= 1)%nat /\
  existsb isNonFiniteText ["0.000000"] = false /\
  length ["0.000000"] = 1%nat /\
  fallbackEmbeddingString Math_sin "idjftna" 1 = Some (join "," ["0.000000"]) /\
  test embeddingGrammar (join "," ["0.000000"]) = true /\
  cleanupExistingData (join "," ["0.000000"]) = Some (join "," ["0.000000"]).
Proof.
  assert (generateSimpleEmbedding Math_sin "idjftna" 1 = Some ["0.000000"]) as H1
    by (vm_compute; reflexivity).
  assert (1 <= 1)%nat as H2 by lia.
  assert (existsb isNonFiniteText ["0.000000"] = false) as H3 by reflexivity.
  split; [exact H1|]. split; [exact H2|]. split; [exact H3|].
  exact (fallback_embedding_is_clean Math_sin "idjftna" 1 ["0.000000"] H1 H2 H3).
Defined.

(** An entry that is not a number spoils the string: the grammar rejects
    it. *)
Example fallback_embedding_with_nan :
  generateSimpleEmbedding (fun _ => Some nan) "abc" 2 = Some ["NaN"; "NaN"] /\
  test embeddingGrammar (join "," ["NaN"; "NaN"]) = false.
Proof. split; vm_compute; reflexivity. Qed.

(** ** Repair and dispatch *)

(** X17. [cleanupExistingData] is idempotent: applied to a string it
    returned, it returns that string again. *)
Theorem cleanupExistingData_idempotent (embeddingValue : string) :
  match cleanupExistingData embeddingValue with
  | Some cleaned => cleanupExistingData cleaned = Some cleaned
  | None => True
  end.
Proof.
  unfold cleanupExistingData at 1.
  destruct (includes embeddingValue embeddingWrapper) eqn:E.
  - cbv zeta. destruct (negb _ && test embeddingGrammar _) eqn:T; [|done].
    apply andb_true_iff in T as [_ T].
    unfold cleanupExistingData.
    by rewrite (clean_has_no_wrapper _ (grammar_chars _ T)).
  - unfold cleanupExistingData. by rewrite E.
Qed.

(** X18. The script hands a stored value back to the crawler only when the
    value carries the wrapper and no fetch error, and what it hands back is
    the non-empty cleaned value, accepted by the grammar. A stored value that
    is already a clean embedding is never kept: the embedding is generated
    again, as it is when nothing is stored. *)
Theorem dispatch_cases (currentEmbedding : option string) :
  match dispatch currentEmbedding with
  | ReturnData cleaned =>
      exists v, currentEmbedding = Some v /\
        includes v failedFetch = false /\ includes v embeddingWrapper = true /\
        cleaned = cleanupMalformedData v /\ cleaned <> "" /\
        test embeddingGrammar cleaned = true
  | Regenerate =>
      match currentEmbedding with
      | Some v =>
          includes v failedFetch = true \/ includes v embeddingWrapper = false \/
          cleanupExistingData v = None
      | None => True
      end
  end /\
  match currentEmbedding with
  | Some v => if test embeddingGrammar v then dispatch currentEmbedding = Regenerate else True
  | None => dispatch currentEmbedding = Regenerate
  end.
Proof.
  destruct currentEmbedding as [v|]; [|done]. split.
  - unfold dispatch.
    destruct (includes v failedFetch) eqn:F; [rewrite andb_true_r|rewrite andb_false_r].
    { destruct (truthy v) eqn:T; [by left|].
      apply negb_false_iff, String.eqb_eq in T. subst v. discriminate F. }
    destruct (includes v embeddingWrapper) eqn:W;
      [rewrite andb_true_r|rewrite andb_false_r; auto].
    destruct (truthy v) eqn:T.
    2:{ apply negb_false_iff, String.eqb_eq in T. subst v. discriminate W. }
    unfold cleanupExistingData. rewrite W. cbv zeta.
    destruct (negb _ && test embeddingGrammar _) eqn:G; [|auto].
    apply andb_true_iff in G as [G1 G2]. unfold truthy. rewrite G1.
    exists v. repeat split; try done.
    intros E. rewrite E in G1. discriminate G1.
  - destruct (test embeddingGrammar v) eqn:G; [|done].
    apply grammar_chars in G.
    unfold dispatch. rewrite (clean_has_no_wrapper _ G), andb_false_r.
    by destruct (truthy v && includes v failedFetch).
Qed.

(** * The cleaning of the extracted content *)

Lemma skipClass_length (p : ascii -> bool) (s : string) :
  (String.length (skipClass p s) <= String.length s)%nat.
Proof.
  induction s as [|c s IH]; [done|]. cbn [skipClass String.length].
  destruct (p c); cbn [String.length]; lia.
Qed.

Lemma skipClass_head (p : ascii -> bool) (s : string) :
  match skipClass p s with
  | EmptyString => True
  | String c _ => p c = false
  end.
Proof.
  induction s as [|c s IH]; [done|]. cbn [skipClass].
  destruct (p c) eqn:E; [exact IH | exact E].
Qed.

Lemma allChars_skipClass (p q : ascii -> bool) (s : string) :
  allChars q s = true -> allChars q (skipClass p s) = true.
Proof.
  induction s as [|c s IH]; [done|]. cbn [skipClass allChars].
  intros [Hc Hs]%andb_true_iff. destruct (p c); [by apply IH|].
  cbn [allChars]. by rewrite Hc, Hs.
Qed.

(** The greedy star over a class takes the longest run. *)
Lemma starLoop_class (p : ascii -> bool) (total n : nat) :
  forall s, (String.length s <= n)%nat ->
    starLoop (rmatch (RClass p) total) Some n s = Some (skipClass p s).
Proof.
  induction n as [|n IH]; intros s Hlen.
  - destruct s; [reflexivity | cbn in Hlen; lia].
  - destruct s as [|c s]; [reflexivity|].
    cbn [starLoop rmatch skipClass String.length] in *.
    destruct (p c); [|reflexivity].
    destruct (Nat.ltb_spec (String.length s) (S (String.length s))); [|lia].
    rewrite IH by lia. reflexivity.
Qed.

Lemma rmatch_run (p : ascii -> bool) (total : nat) (s : string) :
  rmatch (RPlus (RClass p)) total s Some =
  match s with
  | EmptyString => None
  | String c s' => if p c then Some (skipClass p s') else None
  end.
Proof.
  destruct s as [|c s]; [reflexivity|].
  unfold RPlus. cbn [rmatch]. destruct (p c); [|reflexivity].
  exact (starLoop_class p total _ s (le_n _)).
Qed.

Lemma replaceAllFrom_run (total fuel : nat) (c : ascii) (s : string) :
  replaceAllFrom whiteSpaceRun " " total (S fuel) (String c s) =
  if isWhiteSpace c
  then String space (replaceAllFrom whiteSpaceRun " " total fuel (skipClass isWhiteSpace s))
  else String c (replaceAllFrom whiteSpaceRun " " total fuel s).
Proof.
  cbn [replaceAllFrom]. unfold whiteSpaceRun at 1. rewrite rmatch_run.
  destruct (isWhiteSpace c); [|reflexivity].
  pose proof (skipClass_length isWhiteSpace s) as Hs.
  destruct (Nat.ltb_spec (String.length (skipClass isWhiteSpace s))
              (String.length (String c s))) as [_|Hge];
    [reflexivity | cbn [String.length] in Hge; lia].
Qed.

(** Replacing every run of white space by a space leaves no other white
    space, and no two spaces in a row. *)
Lemma collapse_from (total : nat) (fuel : nat) :
  forall s, (String.length s < fuel)%nat ->
    let t := replaceAllFrom whiteSpaceRun " " total fuel s in
    allChars isInkOrSpace t = true /\ noAdjacentSpaces t = true /\
    match s with
    | EmptyString => t = EmptyString
    | String c _ =>
        if isWhiteSpace c then exists t', t = String space t' /\
             match t' with EmptyString => True | String d _ => isWhiteSpace d = false end
        else exists t', t = String c t'
    end.
Proof.
  induction fuel as [|fuel IH]; intros s Hlen; [lia|]. cbv zeta.
  destruct s as [|c s]; [done|].
  rewrite replaceAllFrom_run. cbn [String.length] in Hlen.
  destruct (isWhiteSpace c) eqn:W.
  - pose proof (skipClass_length isWhiteSpace s) as Hs.
    pose proof (skipClass_head isWhiteSpace s) as Hh.
    destruct (IH (skipClass isWhiteSpace s) ltac:(lia)) as (A & B & C).
    cbv zeta in A, B, C.
    set (t := replaceAllFrom whiteSpaceRun " " total fuel (skipClass isWhiteSpace s)) in *.
    assert (match t with EmptyString => True | String d _ => isWhiteSpace d = false end)
      as Ht.
    { destruct (skipClass isWhiteSpace s) as [|d u]; [by rewrite C|].
      rewrite Hh in C. destruct C as [t' ->]. exact Hh. }
    split; [cbn [allChars]; by rewrite A|]. split; [|by exists t].
    cbn [noAdjacentSpaces]. destruct t as [|d u]; [done|].
    rewrite B, andb_true_r. apply negb_true_iff, andb_false_iff. right.
    destruct (Ascii.eqb_spec d space) as [->|]; [discriminate Ht | done].
  - destruct (IH s ltac:(lia)) as (A & B & C). cbv zeta in A, B, C.
    set (t := replaceAllFrom whiteSpaceRun " " total fuel s) in *.
    split; [cbn [allChars]; unfold isInkOrSpace at 1; by rewrite W, A|].
    split; [|by exists t].
    cbn [noAdjacentSpaces]. destruct t as [|d u]; [done|].
    rewrite B, andb_true_r. apply negb_true_iff, andb_false_iff. left.
    destruct (Ascii.eqb_spec c space) as [->|]; [discriminate W | done].
Qed.

(** With nothing to match, the global replacement leaves the string
    alone. *)
Lemma replaceAllFrom_no_match (r : Regex) (replacement : string) (p : ascii -> bool)
    (total : nat) :
  (forall s, allChars p s = true -> rmatch r total s Some = None) ->
  forall fuel s, allChars p s = true -> replaceAllFrom r replacement total fuel s = s.
Proof.
  intros Hno. induction fuel as [|fuel IH]; intros s Hs; [done|]. cbn [replaceAllFrom].
  rewrite (Hno s Hs). destruct s as [|c s]; [done|].
  cbn [allChars] in Hs. apply andb_true_iff in Hs as [_ Hs]. by rewrite IH.
Qed.

Lemma replaceAll_no_first (r : Regex) (replacement : string) (p : ascii -> bool)
    (s : string) :
  mustConsume r = true ->
  (forall c, p c = true -> firstChars r c = false) ->
  allChars p s = true -> replaceAll r replacement s = s.
Proof.
  intros Hm Hf Hs. unfold replaceAll.
  apply (replaceAllFrom_no_match r replacement p); [|done].
  intros s' Hs'. apply rmatch_none; [done|].
  destruct s' as [|c s']; [done|]. cbn [allChars] in Hs'.
  apply andb_true_iff in Hs' as [Hc _]. cbn. by apply Hf.
Qed.

Lemma inkOrSpace_inert (c : ascii) :
  isInkOrSpace c = true ->
  firstChars newlineRun c = false /\ firstChars tabRun c = false.
Proof.
  destruct c as [[] [] [] [] [] [] [] []]; vm_compute; intros H;
    try discriminate H; by split.
Qed.

(** A global removal keeps the characters of the string. *)
Lemma removeAllFrom_chars (r : Regex) (q : ascii -> bool) (total : nat) :
  anchorFree r = true ->
  forall fuel s, allChars q s = true -> allChars q (removeAllFrom r total fuel s) = true.
Proof.
  intros Ha. induction fuel as [|fuel IH]; intros s Hs; [done|]. cbn [removeAllFrom].
  assert (allChars q match s with
                     | EmptyString => EmptyString
                     | String c s' => String c (removeAllFrom r total fuel s')
                     end = true) as Hskip.
  { destruct s as [|c s]; [done|]. cbn [allChars] in *.
    apply andb_true_iff in Hs as [Hc Hs]. by rewrite Hc, IH. }
  destruct (rmatch r total s Some) as [rest|] eqn:E; [|exact Hskip].
  destruct (Nat.ltb _ _); [|exact Hskip].
  apply (rmatch_sound r total Ha) in E as (s1 & s2 & -> & _ & [= ->]).
  rewrite allChars_app in Hs. apply andb_true_iff in Hs as [_ Hs]. by apply IH.
Qed.

Lemma allChars_trimEnd (q : ascii -> bool) (s : string) :
  allChars q s = true -> allChars q (trimEnd s) = true.
Proof.
  induction s as [|c s IH]; [done|]. cbn [allChars trimEnd].
  intros [Hc Hs]%andb_true_iff. specialize (IH Hs).
  destruct (trimEnd s) as [|d t].
  - destruct (isWhiteSpace c); [done|]. cbn [allChars]. by rewrite Hc.
  - cbn [allChars] in *. by rewrite Hc, IH.
Qed.

Lemma allChars_trimStart (q : ascii -> bool) (s : string) :
  allChars q s = true -> allChars q (trimStart s) = true.
Proof.
  induction s as [|c s IH]; [done|]. cbn [allChars trimStart].
  intros [Hc Hs]%andb_true_iff. destruct (isWhiteSpace c); [by apply IH|].
  cbn [allChars]. by rewrite Hc, Hs.
Qed.

Lemma allChars_trim (q : ascii -> bool) (s : string) :
  allChars q s = true -> allChars q (trim s) = true.
Proof. intros H. unfold trim. by apply allChars_trimEnd, allChars_trimStart. Qed.

(** X19. In the cleaning of [extractBlogContent], the first replacement
    leaves single spaces as the only white space, so the replacements of
    newlines and of tabs that follow change nothing; the cleaned content
    holds no white space other than the space. *)
Theorem cleanContent_steps (content : string) :
  let collapsed := replaceAll whiteSpaceRun " " content in
  allChars isInkOrSpace collapsed = true /\ noAdjacentSpaces collapsed = true /\
  replaceAll newlineRun " " collapsed = collapsed /\
  replaceAll tabRun " " collapsed = collapsed /\
  cleanContent content = trim (removeAll boilerplateWords collapsed) /\
  allChars isInkOrSpace (cleanContent content) = true.
Proof.
  cbv zeta.
  destruct (collapse_from (String.length content) (S (String.length content)) content
              ltac:(lia)) as (A & B & _).
  cbv zeta in A, B. fold (replaceAll whiteSpaceRun " " content) in A, B.
  set (collapsed := replaceAll whiteSpaceRun " " content) in *.
  assert (replaceAll newlineRun " " collapsed = collapsed) as N.
  { apply (replaceAll_no_first _ _ isInkOrSpace); [done| |done].
    intros c Hc. by apply inkOrSpace_inert in Hc as [? _]. }
  assert (replaceAll tabRun " " collapsed = collapsed) as T.
  { apply (replaceAll_no_first _ _ isInkOrSpace); [done| |done].
    intros c Hc. by apply inkOrSpace_inert in Hc as [_ ?]. }
  assert (cleanContent content = trim (removeAll boilerplateWords collapsed)) as E.
  { unfold cleanContent. fold collapsed. by rewrite N, T. }
  repeat split; try done.
  rewrite E. apply allChars_trim. unfold removeAll. by apply removeAllFrom_chars.
Qed.

(** Removing a word can bring two spaces together again. *)
Example cleanContent_sample :
  cleanContent (String tab ("Read our  COOKIE" +:+ String newline "policy ")) = "Read our  policy" /\
  cleanContent "Shared terms" = "d".
Proof. split; vm_compute; reflexivity. Qed.

(** * The context of a link *)

Lemma firstAfter_here (passes : Element -> Prop) (element : Element) (rest : list Element) :
  firstAfter passes (element :: rest) element.
Proof. exists [], rest. split; [reflexivity | apply List.Forall_nil]. Qed.

Lemma firstAfter_later (passes : Element -> Prop) (first element : Element)
    (rest : list Element) :
  passes first -> firstAfter passes rest element ->
  firstAfter passes (first :: rest) element.
Proof.
  intros Hp (before & after & -> & Hb).
  exists (first :: before), after. split; [reflexivity | by apply List.Forall_cons].
Qed.



Lemma templateLoop_cases (rounds : nat) (chain : list Element) :
  let visited := firstn rounds (belowBody chain) in
  match templateLoop rounds chain with
  | Normal None => Forall passesTemplate visited
  | Normal (Some context) =>
      exists element className,
        firstAfter passesTemplate visited element /\
        classNameLower element = Normal className /\
        templateVerdict element className = Some context
  | TypeError => exists element, firstAfter passesTemplate visited element /\ throwsAt element
  end.
Proof.
  revert chain. induction rounds as [|rounds IH]; intros chain; [apply List.Forall_nil|].
  destruct chain as [|element parents]; [apply List.Forall_nil|].
  cbn [templateLoop belowBody]. destruct (isBody element); [apply List.Forall_nil|].
  cbn [firstn]. cbv zeta.
  destruct (classNameLower element) as [className|] eqn:C.
  - destruct (templateVerdict element className) as [context|] eqn:V.
    + exists element, className. split; [apply firstAfter_here | done].
    + assert (passesTemplate element) as Hp by by exists className.
      specialize (IH parents). cbv zeta in IH.
      destruct (templateLoop rounds parents) as [[context|]|].
      * destruct IH as (e & cls & Hf & He). exists e, cls.
        split; [by apply firstAfter_later | done].
      * by apply List.Forall_cons.
      * destruct IH as (e & Hf & He). exists e. split; [by apply firstAfter_later | done].
  - exists element. split; [apply firstAfter_here | done].
Qed.

Lemma contentLoop_cases (rounds : nat) (chain : list Element) :
  let visited := firstn rounds chain in
  match contentLoop rounds chain with
  | Normal false => Forall passesContent visited
  | Normal true =>
      exists element className,
        firstAfter passesContent visited element /\
        classNameLower element = Normal className /\
        isWrittenContent element className = true
  | TypeError => exists element, firstAfter passesContent visited element /\ throwsAt element
  end.
Proof.
  revert chain. induction rounds as [|rounds IH]; intros chain; [apply List.Forall_nil|].
  destruct chain as [|element parents]; [apply List.Forall_nil|].
  cbn [contentLoop firstn]. cbv zeta.
  destruct (classNameLower element) as [className|] eqn:C.
  - destruct (isWrittenContent element className) eqn:V.
    + exists element, className. split; [apply firstAfter_here | done].
    + assert (passesContent element) as Hp by by exists className.
      specialize (IH parents). cbv zeta in IH.
      destruct (contentLoop rounds parents) as [[|]|].
      * destruct IH as (e & cls & Hf & He). exists e, cls.
        split; [by apply firstAfter_later | done].
      * by apply List.Forall_cons.
      * destruct IH as (e & Hf & He). exists e. split; [by apply firstAfter_later | done].
  - exists element. split; [apply firstAfter_here | done].
Qed.












Lemma getLinkContext_throws (href linkText : string) (chain : list Element) :
  getLinkContext href linkText chain = TypeError ->
  (exists element, firstAfter passesTemplate (firstn 5 (belowBody chain)) element /\
                   throwsAt element) \/
  (exists element, firstAfter passesContent (firstn 3 chain) element /\ throwsAt element).
Proof.
  unfold getLinkContext.
  destruct (test tradingPath href && test pairPath href); [done|].
  destruct (test pairText linkText); [done|].
  pose proof (templateLoop_cases 5 chain) as T. cbv zeta in T.
  pose proof (contentLoop_cases 3 chain) as K. cbv zeta in K.
  destruct (templateLoop 5 chain) as [[context|]|]; [done| |by left].
  destruct (contentLoop 3 chain) as [[|]|]; [done..|by right].
Qed.

Lemma firstn_In (rounds : nat) (chain : list Element) (element : Element) :
  In element (firstn rounds chain) -> In element chain.
Proof.
  revert chain. induction rounds as [|rounds IH]; intros [|x chain]; try done.
  cbn. intros [->|He]; [by left | right; by apply IH].
Qed.

Lemma belowBody_In (chain : list Element) (element : Element) :
  In element (belowBody chain) -> In element chain.
Proof.
  induction chain as [|x chain IH]; [done|]. cbn. destruct (isBody x); [done|].
  intros [->|He]; [by left | right; by apply IH].
Qed.


(** On a chain of HTML elements, whose class names are strings, the call
    never throws. *)
Lemma getLinkContext_html (href linkText : string) (chain : list Element) :
  Forall (fun element => exists value, className element = classString value) chain ->
  getLinkContext href linkText chain <> TypeError.
Proof.
  intros H E. rewrite List.Forall_forall in H.
  assert (forall element, In element chain -> ~ throwsAt element) as N.
  { intros element Hin C. destruct (H element Hin) as [value Hv].
    unfold throwsAt, classNameLower in C. by rewrite Hv in C. }
  destruct (getLinkContext_throws _ _ _ E)
    as [(e & (b & a & Hf & _) & C) | (e & (b & a & Hf & _) & C)].
  - apply (N e); [|done]. apply belowBody_In, (firstn_In 5).
    rewrite Hf. apply in_or_app. right. by left.
  - apply (N e); [|done]. apply (firstn_In 3).
    rewrite Hf. apply in_or_app. right. by left.
Qed.

(** A paragraph inside a price table is interface, a paragraph inside an
    article is content, and the class of the body can make a link
    contextual, though the body is never looked at for template markers. *)
Example getLinkContext_samples :
  let html tag class := {| tagName := tag; className := classString class; id := "";
                           role := None; isBody := false |} in
  let a := html "A" "" in
  let p := html "P" "" in
  let td := html "TD" "" in
  let article := html "ARTICLE" "Main" in
  let footer := html "DIV" "site-footer" in
  let footerMenu := html "DIV" "footer-menu" in
  let body := {| tagName := "BODY"; className := classString "nav entry-content"; id := "";
                 role := None; isBody := true |} in
  getLinkContext "/fees" "Fees" [a; p; td; body] = Normal ctxNavigation /\
  getLinkContext "/fees" "Fees" [a; p; article; body] = Normal ctxContextual /\
  getLinkContext "/fees" "Fees" [a; footer; body] = Normal ctxFooter /\
  getLinkContext "/fees" "Fees" [a; footerMenu; body] = Normal ctxNavigation /\
  getLinkContext "/fees" "Fees" [a; body] = Normal ctxContextual /\
  getLinkContext "/Trade/btc-inr" "Trade" [a; p; article; body] = Normal ctxNavigation /\
  getLinkContext "/fees" "BTC-INR" [a; p; article; body] = Normal ctxNavigation /\
  getLinkContext "/fees" "Btc-INR" [a; p; article; body] = Normal ctxContextual.
Proof. cbv zeta. repeat split; vm_compute; reflexivity. Qed.

(** A link of an inline SVG: its class name is an object and the first
    round throws, unless one of the two patterns has answered before. An
    HTML link in a paragraph inside a [foreignObject] throws as well, in the
    third round of the first loop, although the paragraph is written
    content. *)
Example getLinkContext_svg :
  let html tag class := {| tagName := tag; className := classString class; id := "";
                           role := None; isBody := false |} in
  let svg tag := {| tagName := tag; className := classAnimated; id := "";
                    role := None; isBody := false |} in
  let body := {| tagName := "BODY"; className := classString ""; id := "";
                 role := None; isBody := true |} in
  getLinkContext "/fees" "Fees" [svg "a"; svg "svg"; html "P" ""; body] = TypeError /\
  getLinkContext "/trade/btc-inr" "Fees" [svg "a"; svg "svg"; html "P" ""; body]
    = Normal ctxNavigation /\
  getLinkContext "/fees" "BTC-INR" [svg "a"; svg "svg"; html "P" ""; body]
    = Normal ctxNavigation /\
  getLinkContext "/fees" "Fees" [html "A" ""; html "P" ""; svg "foreignObject"; svg "svg"; body]
    = TypeError /\
  getLinkContext "/fees" "Fees" [html "A" ""; html "NAV" ""; svg "foreignObject"; body]
    = Normal ctxNavigation.
Proof. cbv zeta. repeat split; vm_compute; reflexivity. Qed.

(** * Page categories *)

(** An expression without anchors is found in a string exactly when some
    part of the string is in its language. *)
Lemma testFrom_Matches (r : Regex) (total : nat) (s : string) :
  anchorFree r = true ->
  (testFrom r total s = true <->
   exists before found after, s = before +:+ found +:+ after /\ Matches r found).
Proof.
  intros Ha. split.
  - induction s as [|c s IH]; cbn [testFrom].
    + destruct (rmatch r total "" Some) as [rest|] eqn:E; [|done]. intros _.
      apply (rmatch_sound r total Ha) in E as (s1 & s2 & E & Hm & _).
      by exists "", s1, s2.
    + destruct (rmatch r total (String c s) Some) as [rest|] eqn:E.
      * intros _. apply (rmatch_sound r total Ha) in E as (s1 & s2 & E & Hm & _).
        by exists "", s1, s2.
      * intros H. apply IH in H as (before & found & after & -> & Hm).
        by exists (String c before), found, after.
  - intros (before & found & after & -> & Hm).
    induction before as [|c before IH].
    + change ("" +:+ found +:+ after) with (found +:+ after).
      destruct (rmatch_complete r found Hm total after Some ltac:(by eexists)) as [[x E] _].
      destruct (found +:+ after); cbn [testFrom]; by rewrite E.
    + change (String c before +:+ found +:+ after)
        with (String c (before +:+ found +:+ after)).
      cbn [testFrom]. by destruct (rmatch r total _ Some).
Qed.

Lemma test_Matches (r : Regex) (s : string) :
  anchorFree r = true ->
  (test r s = true <->
   exists before found after, s = before +:+ found +:+ after /\ Matches r found).
Proof. apply testFrom_Matches. Qed.

(** What a trading pair path starts with is a trading path. *)
Lemma tradingPair_prefix (found : string) :
  Matches tradingPairPattern found ->
  exists segment rest, found = segment +:+ rest /\ Matches tradingGeneralPattern segment.
Proof.
  unfold tradingPairPattern. cbn [RSeqs map RAlts].
  intros H.
  inversion H as [| | |r1 r2 s1 s2 H1 H2| | | | | |]; subst; clear H.
  inversion H2 as [| | |r1 r2 s3 s4 H3 H4| | | | | |]; subst; clear H2.
  inversion H4 as [| | |r1 r2 s5 s6 H5 H6| | | | | |]; subst; clear H4.
  exists (s1 +:+ s3 +:+ s5), s6. split; [by rewrite !append_assoc|].
  unfold tradingGeneralPattern, pathSegment. cbn [RSeqs map RAlts].
  apply MSeq; [exact H1|]. apply MSeq; [|exact H5].
  inversion H3; subst; [by apply MAltL | by apply MAltR, MAltL].
Qed.

(** X21. The order of the pattern table matters: whatever matches the
    trading-pair pattern matches the trading-general pattern as well, so a
    page is categorised trading-pair only because that entry comes first. *)
Theorem trading_pair_shadows_general (url title : string) :
  (forall s, if test tradingPairPattern s then test tradingGeneralPattern s = true else True) /\
  (if String.eqb (categorizePageType url title) "trading-pair"
   then firstCategory (List.filter (fun entry => negb (String.eqb (fst entry) "trading-pair"))
                         patterns) (toLowerCase url) (toLowerCase title)
        = "trading-general"
   else True).
Proof.
  assert (forall s, test tradingPairPattern s = true -> test tradingGeneralPattern s = true)
    as Himp.
  { intros s H. apply test_Matches in H as (before & found & after & -> & Hm); [|done].
    apply tradingPair_prefix in Hm as (segment & rest & -> & Hs).
    apply test_Matches; [done|]. exists before, segment, (rest +:+ after).
    split; [by rewrite !append_assoc | done]. }
  split.
  - intros s. destruct (test tradingPairPattern s) eqn:E; [by apply Himp | done].
  - unfold categorizePageType. cbv zeta.
    set (urlLower := toLowerCase url). set (titleLower := toLowerCase title).
    assert (List.filter (fun entry => negb (String.eqb (fst entry) "trading-pair")) patterns
            = ("homepage", RSeq RBol (RSeq homepageBody REol))
              :: ("trading-general", tradingGeneralPattern) :: skipn 3 patterns) as ->
      by reflexivity.
    change patterns
      with (("homepage", RSeq RBol (RSeq homepageBody REol))
            :: ("trading-pair", tradingPairPattern)
            :: ("trading-general", tradingGeneralPattern) :: skipn 3 patterns) at 1.
    cbn [firstCategory].
    destruct (test (RSeq RBol (RSeq homepageBody REol)) urlLower
              || test (RSeq RBol (RSeq homepageBody REol)) titleLower); [exact I|].
    destruct (test tradingPairPattern urlLower || test tradingPairPattern titleLower) eqn:E.
    + change (String.eqb "trading-pair" "trading-pair") with true. cbv iota.
      apply orb_true_iff in E as [E|E]; apply Himp in E; rewrite E;
        [done | by rewrite orb_true_r].
    + destruct (test tradingGeneralPattern urlLower || test tradingGeneralPattern titleLower);
        [exact I|].
      cbn [skipn patterns firstCategory].
      repeat (match goal with
              | |- context [test ?r urlLower || test ?r titleLower] =>
                  destruct (test r urlLower || test r titleLower); [exact I|]
              end).
      exact I.
Qed.

(** X22. The table of page type weights and the table of suggestions have
    the same keys, each of them a category [categorizePageType] can answer;
    and blog-article is the one category whose name contains blog, which is
    what the blog failure recommendation tests. *)
Theorem category_tables_consistent :
  dom pageTypeWeights = dom contextualSuggestions /\
  (forall k, k ∈ dom pageTypeWeights -> k ∈ categories) /\
  List.filter (fun category => includes category "blog") categories = ["blog-article"].
Proof.
  split; [|split].
  - unfold pageTypeWeights, contextualSuggestions. rewrite !dom_insert_L, !dom_empty_L.
    set_solver.
  - unfold pageTypeWeights. rewrite !dom_insert_L, !dom_empty_L. intros k Hk.
    unfold categories. cbn.
    repeat (apply elem_of_union in Hk as [Hk|Hk];
            [apply elem_of_singleton in Hk; subst k; set_solver|]).
    set_solver.
  - vm_compute. reflexivity.
Qed.

Example categorizePageType_samples :
  categorizePageType "https://Example.com/" "Home" = "homepage" /\
  categorizePageType "https://example.com?ref=/a/b" "Home" = "homepage" /\
  categorizePageType "https://example.com/trade/BTC-INR" "Trade" = "trading-pair" /\
  categorizePageType "https://example.com/trade/" "Trade" = "trading-general" /\
  categorizePageType "https://example.com/blog/fees/" "Fees" = "blog-article" /\
  categorizePageType "https://example.com/fees" "Our /fees/ explained" = "fees-pricing" /\
  categorizePageType "https://example.com/fees" "Fees" = "other".
Proof. repeat split; vm_compute; reflexivity. Qed.

(** * Counting words *)

Lemma splitFrom_weight (total fuel : nat) :
  forall cur s,
    (piecesWeight (splitFrom whiteSpaceRun total fuel cur s)
     <= S (String.length cur + String.length s))%nat.
Proof.
  induction fuel as [|fuel IH]; intros cur s.
  - cbn [splitFrom piecesWeight fold_right]. rewrite length_append. lia.
  - cbn [splitFrom]. destruct s as [|c s]; [cbn; lia|].
    unfold whiteSpaceRun at 1. rewrite rmatch_run.
    assert (piecesWeight (splitFrom whiteSpaceRun total fuel (cur +:+ String c "") s)
            <= S (String.length cur + String.length (String c s)))%nat as Hadv.
    { etrans; [apply IH|]. rewrite length_append. cbn [String.length]. lia. }
    destruct (isWhiteSpace c); [|exact Hadv].
    pose proof (skipClass_length isWhiteSpace s) as Hs.
    destruct (Nat.eqb_spec (String.length (skipClass isWhiteSpace s))
                (String.length (String c s))) as [E|_];
      [cbn [String.length] in E; lia|].
    cbn [piecesWeight fold_right].
    pose proof (IH "" (skipClass isWhiteSpace s)) as H.
    unfold piecesWeight in H. cbn [String.length] in *. lia.
Qed.

Lemma filter_weight (keep : string -> bool) (pieces : list string) :
  (forall piece, keep piece = true -> (3 <= String.length piece)%nat) ->
  (4 * length (List.filter keep pieces) <= piecesWeight pieces)%nat.
Proof.
  intros Hkeep. induction pieces as [|piece pieces IH]; [done|].
  cbn [List.filter piecesWeight fold_right]. fold (piecesWeight pieces).
  destruct (keep piece) eqn:E; [|lia].
  apply Hkeep in E. cbn [length]. lia.
Qed.

Lemma trimStart_length (s : string) : (String.length (trimStart s) <= String.length s)%nat.
Proof.
  induction s as [|c s IH]; [done|]. cbn [trimStart].
  destruct (isWhiteSpace c); cbn [String.length]; lia.
Qed.

Lemma trimEnd_length (s : string) : (String.length (trimEnd s) <= String.length s)%nat.
Proof.
  induction s as [|c s IH]; [done|]. cbn [trimEnd].
  destruct (trimEnd s); [destruct (isWhiteSpace c)|]; cbn [String.length] in *; lia.
Qed.

Lemma trim_length (s : string) : (String.length (trim s) <= String.length s)%nat.
Proof.
  unfold trim. etrans; [apply trimEnd_length | apply trimStart_length].
Qed.

Lemma collapse_length (total fuel : nat) :
  forall s, (String.length (replaceAllFrom whiteSpaceRun " " total fuel s)
             <= String.length s)%nat.
Proof.
  induction fuel as [|fuel IH]; intros s; [done|].
  destruct s as [|c s]; [done|]. rewrite replaceAllFrom_run.
  pose proof (skipClass_length isWhiteSpace s).
  pose proof (IH (skipClass isWhiteSpace s)). pose proof (IH s).
  destruct (isWhiteSpace c); cbn [String.length]; lia.
Qed.

(** X23. Both word counters count at most one word for every four
    characters: four times the count of [analyzeContentElement] is at most the
    length of the trimmed text plus one, and the same holds for the count and
    the clean text of [_cleanTextContent], whose clean text is never longer
    than the text. A page therefore needs at least 1199 characters of text
    to be rated other than thin. *)
Theorem word_counts_bounded (text : string) (headings paragraphs : Z) :
  (0 <= countMeaningfulWords text /\
   4 * countMeaningfulWords text <= Z.of_nat (String.length (trim text)) + 1) /\
  (let (cleanText, words) := _cleanTextContent text in
   0 <= words /\ 4 * words <= Z.of_nat (String.length cleanText) + 1 /\
   (String.length cleanText <= String.length text)%nat) /\
  (if qualityRank (classifyQuality (countMeaningfulWords text) headings paragraphs) =? 0
   then True else 1199 <= Z.of_nat (String.length text)).
Proof.
  assert (4 * countMeaningfulWords text <= Z.of_nat (String.length (trim text)) + 1) as H1.
  { unfold countMeaningfulWords, split.
    pose proof (filter_weight isMeaningfulWord
                  (splitFrom whiteSpaceRun (String.length (trim text))
                     (2 * String.length (trim text) + 1) "" (trim text))) as Hf.
    pose proof (splitFrom_weight (String.length (trim text))
                  (2 * String.length (trim text) + 1) "" (trim text)) as Hw.
    cbn [String.length] in Hw.
    assert (forall piece, isMeaningfulWord piece = true -> (3 <= String.length piece)%nat)
      as Hk.
    { intros piece Hp. unfold isMeaningfulWord in Hp.
      apply andb_true_iff in Hp as [Hp _]. apply andb_true_iff in Hp as [Hp _].
      apply Nat.ltb_lt in Hp. lia. }
    specialize (Hf Hk). lia. }
  split; [split; [unfold countMeaningfulWords; lia | exact H1]|]. split.
  - unfold _cleanTextContent. cbv zeta.
    set (cleanText := trim (replaceAll whiteSpaceRun " " text)).
    split; [lia|]. split.
    + unfold split.
      pose proof (filter_weight (fun word => (2 <? String.length word)%nat)
                    (splitFrom whiteSpaceRun (String.length cleanText)
                       (2 * String.length cleanText + 1) "" cleanText)) as Hf.
      pose proof (splitFrom_weight (String.length cleanText)
                    (2 * String.length cleanText + 1) "" cleanText) as Hw.
      cbn [String.length] in Hw.
      assert (forall piece, (2 <? String.length piece)%nat = true ->
                            (3 <= String.length piece)%nat) as Hk.
      { intros piece Hp. apply Nat.ltb_lt in Hp. lia. }
      specialize (Hf Hk). lia.
    + unfold cleanText. etrans; [apply trim_length|]. apply collapse_length.
  - pose proof (trim_length text) as Ht.
    unfold classifyQuality.
    change CONFIG.THIN_CONTENT_THRESHOLD with 300.
    change CONFIG.MEDIUM_CONTENT_THRESHOLD with 800.
    destruct (Z.ltb_spec (countMeaningfulWords text) 300); [done|].
    destruct (qualityRank _ =? 0); [done | lia].
Qed.

Example word_count_sample :
  split whiteSpaceRun "to be  or 42 ... not" = ["to"; "be"; "or"; "42"; "..."; "not"] /\
  countMeaningfulWords " The 2024 report --- covers 365 days " = 4 /\
  _cleanTextContent " The 2024 report --- covers 365 days "
    = ("The 2024 report --- covers 365 days", 7).
Proof. repeat split; vm_compute; reflexivity. Qed.

(** * Further properties of semantic.js *)

(** ** Cosine similarity *)

Lemma float_mul_comm (x y : float) : (x * y = y * x)%float.
Proof.
  apply Prim2SF_inj. rewrite !mul_spec. unfold SF64mul, SFmul.
  destruct (Prim2SF x) as [sx|sx| |sx mx ex], (Prim2SF y) as [sy|sy| |sy my ey];
    try reflexivity; try (by rewrite xorb_comm).
  by rewrite xorb_comm, Pos.mul_comm, Z.add_comm.
Qed.

Lemma accumulate_swap (vecA vecB : list float) (acc : Sums) :
  let s := fold_left accumulate (combine vecA vecB) acc in
  fold_left accumulate (combine vecB vecA)
    {| dotProduct := dotProduct acc; normA := normB acc; normB := normA acc |}
  = {| dotProduct := dotProduct s; normA := normB s; normB := normA s |}.
Proof.
  revert vecB acc. induction vecA as [|a vecA IH]; intros [|b vecB] acc; try reflexivity.
  cbn [combine fold_left]. rewrite <- IH. unfold accumulate at 2 4. cbn.
  by rewrite (float_mul_comm b a).
Qed.

(** X24. [_cosineSimilarity] is symmetric in its two vectors, exactly, in
    floating point; it throws exactly when their lengths differ; and it has
    increased the counter by one in either case. *)
Theorem cosine_symmetric (metrics : Metrics) (vecA vecB : list float) :
  _cosineSimilarity metrics vecA vecB = _cosineSimilarity metrics vecB vecA /\
  (snd (_cosineSimilarity metrics vecA vecB) = Thrown "Vector dimension mismatch"
     <-> length vecA <> length vecB) /\
  similarityCalculations (fst (_cosineSimilarity metrics vecA vecB))
    = similarityCalculations metrics + 1.
Proof.
  unfold _cosineSimilarity. cbv zeta.
  rewrite (Nat.eqb_sym (length vecB) (length vecA)).
  destruct (Nat.eqb_spec (length vecA) (length vecB)) as [E|E]; cbn [negb].
  - split; [|split; [split; [discriminate | done] | reflexivity]].
    pose proof (accumulate_swap vecA vecB {| dotProduct := 0; normA := 0; normB := 0 |}) as H.
    cbv zeta in H. cbn [dotProduct normA normB] in H. rewrite H.
    cbn [dotProduct normA normB]. by rewrite float_mul_comm.
  - split; [reflexivity|]. split; [by split | reflexivity].
Qed.

(** ** A vector of zeros *)

Lemma mul_zero_r_class (a b : float) : is_zero b = true -> isZeroOrNaN (a * b) = true.
Proof.
  intros Hb. unfold isZeroOrNaN. rewrite mul_spec. unfold SF64mul, SFmul.
  destruct (is_zero_cases b Hb) as [-> | ->];
    [change (Prim2SF 0) with (S754_zero false) | change (Prim2SF (-0)) with (S754_zero true)];
    by destruct (Prim2SF a).
Qed.

Lemma add_class (s t : float) :
  isZeroOrNaN s = true -> isZeroOrNaN t = true -> isZeroOrNaN (s + t) = true.
Proof.
  unfold isZeroOrNaN. rewrite add_spec. unfold SF64add, SFadd.
  destruct (Prim2SF s) as [[]|[]| |[] ? ?], (Prim2SF t) as [[]|[]| |[] ? ?];
    try discriminate; reflexivity.
Qed.

Lemma div_class (s t : float) :
  isZeroOrNaN s = true -> isZeroOrNaN t = true -> (s / t)%float = nan.
Proof.
  unfold isZeroOrNaN. intros Hs Ht. apply Prim2SF_inj. rewrite div_spec.
  unfold SF64div, SFdiv. change (Prim2SF nan) with S754_nan.
  destruct (Prim2SF s) as [[]|[]| |[] ? ?], (Prim2SF t) as [[]|[]| |[] ? ?];
    try discriminate; reflexivity.
Qed.

Lemma accumulate_zero (vecA vecB : list float) (acc : Sums) :
  forallb is_zero vecB = true ->
  isZeroOrNaN (dotProduct acc) = true -> normB acc = 0%float ->
  let s := fold_left accumulate (combine vecA vecB) acc in
  isZeroOrNaN (dotProduct s) = true /\ normB s = 0%float.
Proof.
  revert vecB acc. induction vecA as [|a vecA IH]; intros [|b vecB] acc Hz Hd Hn;
    try (by split).
  cbn [forallb] in Hz. apply andb_true_iff in Hz as [Hb Hz].
  cbn [combine fold_left]. apply IH; [exact Hz| |].
  - cbn. apply add_class; [exact Hd | by apply mul_zero_r_class].
  - cbn. rewrite Hn. by destruct (is_zero_cases b Hb) as [-> | ->].
Qed.

(** X25. Against a vector of zeros of the same length, whatever the other
    vector is, the similarity is NaN, and NaN does not pass the test of
    [_findSimilarPages]: such a page is never reported as similar. *)
Theorem zero_vector_never_similar (metrics : Metrics) (vecA vecB : list float) :
  if Nat.eqb (length vecA) (length vecB) && forallb is_zero vecB
  then snd (_cosineSimilarity metrics vecA vecB) = Returned nan /\ isSimilar nan = false
  else True.
Proof.
  destruct (Nat.eqb _ _ && _) eqn:H; [|done].
  apply andb_true_iff in H as [Hl Hz].
  split; [|reflexivity].
  unfold _cosineSimilarity. cbv zeta. rewrite Hl. cbn [negb snd]. f_equal.
  destruct (accumulate_zero vecA vecB {| dotProduct := 0; normA := 0; normB := 0 |}
              Hz eq_refl eq_refl) as [Hd Hn].
  cbv zeta in Hd, Hn. rewrite Hn.
  apply div_class; [exact Hd|].
  apply mul_zero_r_class. reflexivity.
Qed.

(** ** Thresholds *)

(** Comparing a double with a constant between 1/2 and 1, whose exponent is
    -53. *)
Lemma ltb_const (m : positive) (x : float) :
  SFltb (S754_finite false m (-53)) (Prim2SF x) =
  match Prim2SF x with
  | S754_infinity s => negb s
  | S754_finite false mx ex =>
      match -53 ?= ex with Lt => true | Gt => false | Eq => Z.pos m <? Z.pos mx end
  | _ => false
  end.
Proof.
  unfold SFltb, SFcompare. destruct (Prim2SF x) as [[]|[]| |[] mx ex]; try reflexivity.
  by destruct (-53 ?= ex).
Qed.

Lemma leb_const (m : positive) (x : float) :
  SFleb (S754_finite false m (-53)) (Prim2SF x) =
  match Prim2SF x with
  | S754_infinity s => negb s
  | S754_finite false mx ex =>
      match -53 ?= ex with Lt => true | Gt => false | Eq => Z.pos m <=? Z.pos mx end
  | _ => false
  end.
Proof.
  unfold SFleb, SFcompare. destruct (Prim2SF x) as [[]|[]| |[] mx ex]; try reflexivity.
  by destruct (-53 ?= ex).
Qed.

Lemma ltb_const_r (m : positive) (x : float) :
  SFltb (Prim2SF x) (S754_finite false m (-53)) =
  match Prim2SF x with
  | S754_nan => false
  | S754_infinity s => s
  | S754_zero _ => true
  | S754_finite true _ _ => true
  | S754_finite false mx ex =>
      match ex ?= -53 with Lt => true | Gt => false | Eq => Z.pos mx <? Z.pos m end
  end.
Proof.
  unfold SFltb, SFcompare. destruct (Prim2SF x) as [[]|[]| |[] mx ex]; try reflexivity.
  by destruct (ex ?= -53).
Qed.

(** X26. A similarity that passes the test of [_findSimilarPages] has link
    potential HIGH and is never classified LOOSELY_RELATED; it is classified
    RELATED only when it is exactly the threshold 0.85. *)
Theorem similar_page_classification (similarity : float) :
  if isSimilar similarity
  then _assessLinkPotential similarity = HIGH /\
       _classifyRelationship similarity <> LOOSELY_RELATED /\
       (_classifyRelationship similarity = RELATED <-> similarity = 0.85%float)
  else True.
Proof.
  unfold isSimilar, _assessLinkPotential, _classifyRelationship.
  rewrite leb_spec, !ltb_spec.
  change (Prim2SF SEMANTIC_CONFIG.SIMILARITY_THRESHOLD)
    with (S754_finite false 7656119366529843 (-53)).
  change (Prim2SF 0.8) with (S754_finite false 7205759403792794 (-53)).
  change (Prim2SF 0.95) with (S754_finite false 8556839292003942 (-53)).
  change (Prim2SF 0.85) with (S754_finite false 7656119366529843 (-53)).
  change (Prim2SF 0.75) with (S754_finite false 6755399441055744 (-53)).
  rewrite leb_const, !ltb_const.
  assert (Prim2SF 0.85 = S754_finite false 7656119366529843 (-53)) as E85 by reflexivity.
  destruct (Prim2SF similarity) as [s|s| |s mx ex] eqn:E.
  - done.
  - destruct s; [done|]. cbn [negb]. repeat split; try discriminate.
    intros ->. rewrite E85 in E. discriminate E.
  - done.
  - destruct s; [done|].
    destruct (-53 ?= ex) eqn:C.
    + apply Z.compare_eq in C. subst ex.
      destruct (Z.leb_spec 7656119366529843 (Z.pos mx)) as [H|H]; [|done].
      destruct (Z.ltb_spec 7205759403792794 (Z.pos mx)); [|lia].
      split; [reflexivity|].
      destruct (Z.ltb_spec 8556839292003942 (Z.pos mx)).
      { split; [discriminate|]. split; [discriminate|].
        intros ->. rewrite E85 in E. injection E as <-. lia. }
      destruct (Z.ltb_spec 7656119366529843 (Z.pos mx)).
      { split; [discriminate|]. split; [discriminate|].
        intros ->. rewrite E85 in E. injection E as <-. lia. }
      destruct (Z.ltb_spec 6755399441055744 (Z.pos mx)); [|lia].
      split; [discriminate|]. split; [intros _|reflexivity].
      assert (mx = 7656119366529843%positive) as -> by (apply Pos2Z.inj; lia).
      apply Prim2SF_inj. by rewrite E.
    + repeat split; try discriminate.
      intros ->. rewrite E85 in E. injection E as _ <-. discriminate C.
    + done.
Qed.

(** X27. A theme alignment classified HIGH never comes with the three
    corrective recommendations: it is reported as well aligned. NaN is
    classified LOW and is reported as well aligned too. *)
Theorem theme_consistency_levels (score : float) :
  match _classifyConsistency score with
  | HIGH => _generateThemeRecommendations score = ["Content theme is well-aligned"]
  | _ => True
  end /\
  (_classifyConsistency nan = LOW /\
   _generateThemeRecommendations nan = ["Content theme is well-aligned"]).
Proof.
  split; [|split; reflexivity].
  destruct (_classifyConsistency score) eqn:E; [|done|done]. revert E.
  unfold _classifyConsistency, _generateThemeRecommendations.
  rewrite !ltb_spec.
  change (Prim2SF 0.8) with (S754_finite false 7205759403792794 (-53)).
  change (Prim2SF 0.6) with (S754_finite false 5404319552844595 (-53)).
  change (Prim2SF 0.7) with (S754_finite false 6305039478318694 (-53)).
  rewrite !ltb_const, ltb_const_r.
  destruct (Prim2SF score) as [[]|[]| |[] mx ex]; try done.
  rewrite (Z.compare_antisym (-53) ex).
  destruct (-53 ?= ex) eqn:C; cbn [CompOpp]; [|done|done].
  destruct (Z.ltb_spec 7205759403792794 (Z.pos mx)) as [H|H].
  - intros _. destruct (Z.ltb_spec (Z.pos mx) 6305039478318694); [lia | reflexivity].
  - destruct (Z.ltb_spec 5404319552844595 (Z.pos mx)); discriminate.
Qed.

(** ** The semantic score *)

Lemma checkFrom_spec (check : Z -> bool) (count : nat) :
  forall start k, checkFrom check start count = true ->
    start <= k < start + Z.of_nat count -> check k = true.
Proof.
  induction count as [|count IH]; intros start k H Hk; [lia|].
  cbn [checkFrom] in H. apply andb_true_iff in H as [H0 H].
  destruct (Z.eq_dec k start) as [->|Hne]; [exact H0|].
  apply (IH (start + 1)); [exact H | lia].
Qed.

Lemma semanticScoreCheck_20000 : checkFrom semanticScoreCheck 0 (Z.to_nat 20001) = true.
Proof. vm_compute. reflexivity. Qed.

(** X28. For a page of up to 20000 words the grade of
    [_calculateSemanticScore] depends on the word count alone: C below 250
    words, B from 250 to 649, A from 650 on, never A+ nor D. The overall
    score is a whole number between 64 and 89, at least 66 from 100 words on,
    so that [_determineActionPriority] never answers HIGH for it. *)
Theorem semantic_score_by_words (words : Z) :
  0 <= words <= 20000 ->
  let s := _calculateSemanticScore words in
  grade s = (if words <? 250 then gradeC else if words <? 650 then gradeB else gradeA) /\
  (exists n, exactInteger (overallScore s) = Some n /\ 64 <= n <= 89 /\
             (100 <= words -> 66 <= n)) /\
  (forall totalSuggestions missingTopics,
     _determineActionPriority s totalSuggestions missingTopics <> HIGH).
Proof.
  intros Hw s.
  pose proof (checkFrom_spec _ _ 0 words semanticScoreCheck_20000 ltac:(lia)) as H.
  unfold semanticScoreCheck in H. cbv zeta in H. fold s in H.
  apply andb_true_iff in H as [H H3]. apply andb_true_iff in H as [H1 H2].
  split; [|split].
  - destruct (grade s), (if words <? 250 then _ else _); try discriminate H1; reflexivity.
  - destruct (exactInteger (overallScore s)) as [n|]; [|discriminate].
    exists n. split; [reflexivity|].
    apply andb_true_iff in H2 as [H2 H4]. apply andb_true_iff in H2 as [H2 H5].
    apply orb_true_iff in H4. lia.
  - intros t m. unfold _determineActionPriority.
    apply negb_true_iff in H3. rewrite H3.
    destruct (3 <? t); [discriminate|].
    by destruct (match m with Some n => 2 <? n | None => false end).
Qed.

Lemma semantic_score_by_words_witness :
  0 <= 649 <= 20000 /\
  grade (_calculateSemanticScore 649) = gradeB /\
  (exists n, exactInteger (overallScore (_calculateSemanticScore 649)) = Some n /\
             64 <= n <= 89 /\ (100 <= 649 -> 66 <= n)) /\
  (forall totalSuggestions missingTopics,
     _determineActionPriority (_calculateSemanticScore 649) totalSuggestions missingTopics
       <> HIGH).
Proof.
  assert (0 <= 649 <= 20000) as H by lia.
  split; [exact H|]. exact (semantic_score_by_words 649 H).
Defined.

(** The grade is read off the sum before it is rounded: 649 words are shown
    as 80 points with grade B. *)
Example semantic_score_649 :
  overallScore (_calculateSemanticScore 649) = 80%float /\
  grade (_calculateSemanticScore 649) = gradeB /\
  grade (_calculateSemanticScore 650) = gradeA.
Proof. repeat split; vm_compute; reflexivity. Qed.

(** * Clusters *)

(** X29. When [_performSemanticClustering] finds a cluster, the cluster is
    one of the given clusters and lists the current page, the related pages
    leave the current page out, and they are fewer than the cluster size.
    When it finds none, no cluster lists the page and the report is
    UNCLUSTERED with size 0. With the clusters of [_findSemanticClusters], a
    page whose URL starts with http is never clustered. *)
Theorem clustering_cases (currentUrl : string) (clusters : list Cluster) :
  let r := _performSemanticClustering currentUrl clusters in
  match currentCluster r with
  | Some cluster =>
      In cluster clusters /\
      Exists (fun p => pageUrl p = currentUrl) (pages cluster) /\
      clusterSize r = Z.of_nat (length (pages cluster)) /\
      Forall (fun p => pageUrl p <> currentUrl) (relatedPages r) /\
      Z.of_nat (length (relatedPages r)) < clusterSize r
  | None =>
      clusterSize r = 0 /\ clusterTopic r = "UNCLUSTERED" /\ relatedPages r = [] /\
      Forall (fun cluster => Forall (fun p => pageUrl p <> currentUrl) (pages cluster))
             clusters
  end /\
  (if startsWith currentUrl "http"
   then currentCluster (_performSemanticClustering currentUrl _findSemanticClusters) = None
   else True).
Proof.
  cbv zeta. split.
  - unfold _performSemanticClustering. cbv zeta. cbn [currentCluster clusterSize
      clusterTopic relatedPages]. unfold _findPageCluster.
    destruct (List.find _ clusters) as [cluster|] eqn:E.
    + apply List.find_some in E as [Hin Hex].
      split; [exact Hin|]. split.
      { apply existsb_exists in Hex as (p & Hp & Heq). apply String.eqb_eq in Heq.
        apply List.Exists_exists. by exists p. }
      split; [reflexivity|]. split.
      { apply List.Forall_forall. intros p Hp. apply List.filter_In in Hp as [_ Hp].
        apply negb_true_iff in Hp. by apply String.eqb_neq in Hp. }
      clear Hin. induction (pages cluster) as [|p ps IH]; [discriminate Hex|].
      cbn [existsb List.filter length] in *.
      destruct (String.eqb (pageUrl p) currentUrl); cbn [negb orb] in *.
      * pose proof (List.filter_length_le
                      (fun q => negb (String.eqb (pageUrl q) currentUrl)) ps). lia.
      * specialize (IH Hex). cbn [length]. lia.
    + repeat split. apply List.Forall_forall. intros cluster Hin.
      apply List.Forall_forall. intros p Hp Heq.
      pose proof (List.find_none _ _ E cluster Hin) as Hn. cbn in Hn.
      assert (existsb (fun page => String.eqb (pageUrl page) currentUrl) (pages cluster)
              = true) as Ht; [|congruence].
      apply existsb_exists. exists p. split; [done|]. by apply String.eqb_eq.
  - destruct (startsWith currentUrl "http") eqn:S; [|done].
    unfold _performSemanticClustering, _findPageCluster, _findSemanticClusters.
    cbn [currentCluster List.find existsb pages pageUrl].
    destruct (String.eqb_spec "/trade" currentUrl) as [<-|_]; [discriminate S|].
    destruct (String.eqb_spec "/fees" currentUrl) as [<-|_]; [discriminate S|].
    reflexivity.
Qed.
